(** * concourse-github-pr-comment-resource: the check, in and out steps

    A shallow embedding of the resource's Go sources
    ([actions/common.go], [actions/check.go], [actions/in.go],
    [actions/out.go], [api/github.go]) and the properties of the
    specification that were settled against it.

    Conventions of the embedding:
    - Go [string]s are byte strings: Rocq [string], one [ascii] per byte.
    - Go [int]/[int64] values are [Z]; the program does no arithmetic on
      them, so no wrap-around is involved.
    - A Go pointer field of a go-github object is an [option]; a dereference
      of [nil] is the outcome [Panic].
    - A Go function returning [(T, error)] returns [result T].
    - A Go function that also writes (files, the remote service) is a
      function of the state that returns the state after it: [io S T].
    - Go's standard library, the file system and the REST client are
      collaborators. The parts whose behaviour the properties depend on
      ([strconv], [unicode/utf8], [encoding/json] on the persisted structs,
      [os.Expand]) are written out from their documented behaviour;
      [regexp], [sort.Slice], [strings.ToLower], [url.Parse],
      [filepath.Join] and the order of a [range] over a map are taken
      through the interface [GoLib], the file system through [FileSystem]
      and the REST endpoints through [GoGithub]. *)

From Stdlib Require Import ZArith String Ascii List Lia Sorted Permutation.
From Stdlib Require Import DecimalString DecimalPos.
From stdpp Require Import base option gmap strings list.

Open Scope Z_scope.

(* ===================================================================== *)
(** * Go runtime *)
(* ===================================================================== *)

Module Go.

(** Error values. [Errorf] is an error made by [fmt.Errorf]/[errors.New]
    with its final message; [NumError] is [*strconv.NumError]
    ([Func], [Num], and whether it is [ErrSyntax] or [ErrRange]);
    [External] is an error handed back by a collaborator (REST client,
    file system, regexp compiler), identified by its message. *)
Inductive numErr := ErrSyntax | ErrRange.

Inductive error :=
| Errorf (msg : string)
| NumError (func num : string) (kind : numErr)
| External (msg : string).

(** The double-quote byte. *)
Definition dquote : ascii := ascii_of_nat 34.

(** [err.Error()]. The escaping that [strconv.Quote] applies to the input
    of a [NumError] is not modelled: the message keeps the input as it is
    between the two quote characters. *)
Definition Error (e : error) : string :=
  match e with
  | Errorf msg => msg
  | NumError func num kind =>
      "strconv." +:+ func +:+ ": parsing " +:+ String dquote (num +:+ String dquote
        (match kind with
         | ErrSyntax => ": invalid syntax"
         | ErrRange => ": value out of range"
         end))
  | External msg => msg
  end.

(** Outcome of a call: a value, a returned error, or a run-time panic. *)
Inductive result (A : Type) :=
| Ok (a : A)
| Err (e : error)
| Panic (msg : string).
Arguments Ok {A} a.
Arguments Err {A} e.
Arguments Panic {A} msg.

Definition bind {A B} (r : result A) (k : A -> result B) : result B :=
  match r with
  | Ok a => k a
  | Err e => Err e
  | Panic m => Panic m
  end.

(** [*p] for a pointer [p]. *)
Definition nilDeref : string :=
  "runtime error: invalid memory address or nil pointer dereference".

Definition deref {A} (p : option A) : result A :=
  match p with
  | Some a => Ok a
  | None => Panic nilDeref
  end.

(** [strconv.FormatInt(n, 10)] and [strconv.Itoa]. *)
Definition FormatInt (n : Z) : string :=
  NilEmpty.string_of_int (Z.to_int n).

Definition Itoa (n : Z) : string := FormatInt n.

(** A call that also changes a state [S] (the file system, the remote
    service): the outcome and the state after it. *)
Definition io (S A : Type) : Type := S -> result A * S.

Definition bindIO {S A B} (m : io S A) (k : A -> io S B) : io S B :=
  fun s =>
    match m s with
    | (Ok a, s') => k a s'
    | (Err e, s') => (Err e, s')
    | (Panic msg, s') => (Panic msg, s')
    end.

(** A call without effect on the state. *)
Definition pureIO {S A} (r : result A) : io S A := fun s => (r, s).

(** A write that returns its error or nil: [if err != nil { return err }]. *)
Definition tryIO {S} (w : S -> option error * S) : io S unit :=
  fun s =>
    match w s with
    | (Some err, s') => (Err err, s')
    | (None, s') => (Ok tt, s')
    end.

(** [if err != nil { return fmt.Errorf(prefix + "%s", err) }] *)
Definition wrapIO {S} (prefix : string) (w : S -> option error * S) : io S unit :=
  fun s =>
    match w s with
    | (Some err, s') => (Err (Errorf (prefix +:+ Error err)), s')
    | (None, s') => (Ok tt, s')
    end.

End Go.
Export Go.

Declare Scope go_scope.
Delimit Scope go_scope with go.
Notation "'let!' x ':=' r 'in' k" := (Go.bind r (fun x => k))
  (at level 10, x name, r at level 200, k at level 200) : go_scope.
Notation "'do!' x ':=' m 'in' k" := (Go.bindIO m (fun x => k))
  (at level 10, x name, m at level 200, k at level 200) : go_scope.
Open Scope go_scope.

(* ===================================================================== *)
(** * strconv, unicode/utf8 and unicode/utf16 *)
(* ===================================================================== *)

(** The value of a byte. *)
Definition byteZ (c : ascii) : Z := Z.of_N (N_of_ascii c).

(** [byte(n)]: the conversion keeps the low eight bits. *)
Definition byteOf (n : Z) : ascii := ascii_of_N (Z.to_N (n mod 256)).

Module Strconv.

Definition isDigit (c : ascii) : bool := (48 <=? byteZ c) && (byteZ c <=? 57).

(** The value of a non-empty string of decimal digits. *)
Fixpoint digits (s : string) (acc : Z) : option Z :=
  match s with
  | EmptyString => Some acc
  | String c s' =>
      if isDigit c then digits s' (acc * 10 + (byteZ c - 48)) else None
  end.

(** [strconv.ParseInt(s, 10, 64)], with the name [fn] of the calling
    function in its errors: an optional sign, decimal digits, and the range
    of a 64-bit integer. *)
Definition parseInt64 (fn : string) (s : string) : result Z :=
  let '(neg, body) :=
    match s with
    | String "+" s' => (false, s')
    | String "-" s' => (true, s')
    | _ => (false, s)
    end in
  match body with
  | EmptyString => Err (NumError fn s ErrSyntax)
  | _ =>
      match digits body 0 with
      | None => Err (NumError fn s ErrSyntax)
      | Some un =>
          if negb neg && (2 ^ 63 <=? un) then Err (NumError fn s ErrRange)
          else if neg && (2 ^ 63 <? un) then Err (NumError fn s ErrRange)
          else Ok (if neg then - un else un)
      end
  end.

Definition ParseInt (s : string) : result Z := parseInt64 "ParseInt" s.

(** [strconv.Atoi(s)], for the 64-bit [int]. *)
Definition Atoi (s : string) : result Z := parseInt64 "Atoi" s.

End Strconv.
Export Strconv.

Module Utf8.

Definition RuneError : Z := 65533.     (* U+FFFD *)
Definition MaxRune : Z := 1114111.     (* U+10FFFF *)

(** The table [first] of package utf8 for a leading byte of 0x80 and above,
    with the entry of [acceptRanges] it selects: the size of the sequence
    and the range of the second byte; [None] is the entry [xx]. *)
Definition first (s0 : Z) : option (nat * Z * Z) :=
  if s0 <? 194 then None                          (* 0x80-0xC1 *)
  else if s0 <=? 223 then Some (2%nat, 128, 191)  (* 0xC2-0xDF *)
  else if s0 =? 224 then Some (3%nat, 160, 191)   (* 0xE0 *)
  else if s0 =? 237 then Some (3%nat, 128, 159)   (* 0xED *)
  else if s0 <=? 239 then Some (3%nat, 128, 191)  (* 0xE1-0xEF *)
  else if s0 =? 240 then Some (4%nat, 144, 191)   (* 0xF0 *)
  else if s0 <=? 243 then Some (4%nat, 128, 191)  (* 0xF1-0xF3 *)
  else if s0 =? 244 then Some (4%nat, 128, 143)   (* 0xF4 *)
  else None.                                      (* 0xF5-0xFF *)

(** A continuation byte: [locb <= b <= hicb]. *)
Definition isCont (b : Z) : bool := (128 <=? b) && (b <=? 191).

(** [utf8.DecodeRuneInString(s)]: the rune and its width in bytes; an
    invalid or short sequence gives [(RuneError, 1)], the empty string
    [(RuneError, 0)]. *)
Definition DecodeRuneInString (s : string) : Z * nat :=
  match s with
  | EmptyString => (RuneError, 0%nat)
  | String c0 t0 =>
      let s0 := byteZ c0 in
      if s0 <? 128 then (s0, 1%nat)
      else
        match first s0 with
        | None => (RuneError, 1%nat)
        | Some (sz, lo, hi) =>
            match t0 with
            | EmptyString => (RuneError, 1%nat)
            | String c1 t1 =>
                let s1 := byteZ c1 in
                if (s1 <? lo) || (hi <? s1) then (RuneError, 1%nat)
                else if (sz <=? 2)%nat then
                  (Z.lor (Z.shiftl (Z.land s0 31) 6) (Z.land s1 63), 2%nat)
                else
                  match t1 with
                  | EmptyString => (RuneError, 1%nat)
                  | String c2 t2 =>
                      let s2 := byteZ c2 in
                      if negb (isCont s2) then (RuneError, 1%nat)
                      else if (sz <=? 3)%nat then
                        (Z.lor (Z.lor (Z.shiftl (Z.land s0 15) 12)
                                      (Z.shiftl (Z.land s1 63) 6))
                               (Z.land s2 63), 3%nat)
                      else
                        match t2 with
                        | EmptyString => (RuneError, 1%nat)
                        | String c3 _ =>
                            let s3 := byteZ c3 in
                            if negb (isCont s3) then (RuneError, 1%nat)
                            else
                              (Z.lor (Z.lor (Z.lor (Z.shiftl (Z.land s0 7) 18)
                                                   (Z.shiftl (Z.land s1 63) 12))
                                            (Z.shiftl (Z.land s2 63) 6))
                                     (Z.land s3 63), 4%nat)
                        end
                  end
            end
        end
  end.

(** [utf8.EncodeRune]: the bytes of a rune; a surrogate or a value above
    [MaxRune] is written as [RuneError]. *)
Definition encode3 (r : Z) : string :=
  String (byteOf (Z.lor 224 (Z.shiftr r 12)))
    (String (byteOf (Z.lor 128 (Z.land (Z.shiftr r 6) 63)))
       (String (byteOf (Z.lor 128 (Z.land r 63))) EmptyString)).

Definition EncodeRune (r : Z) : string :=
  if r <=? 127 then String (byteOf r) EmptyString
  else if r <=? 2047 then
    String (byteOf (Z.lor 192 (Z.shiftr r 6)))
      (String (byteOf (Z.lor 128 (Z.land r 63))) EmptyString)
  else if (MaxRune <? r) || ((55296 <=? r) && (r <=? 57343)) then encode3 RuneError
  else if r <=? 65535 then encode3 r
  else
    String (byteOf (Z.lor 240 (Z.shiftr r 18)))
      (String (byteOf (Z.lor 128 (Z.land (Z.shiftr r 12) 63)))
         (String (byteOf (Z.lor 128 (Z.land (Z.shiftr r 6) 63)))
            (String (byteOf (Z.lor 128 (Z.land r 63))) EmptyString))).

(** [s[n:]] and [s[:n]]. *)
Fixpoint dropBytes (n : nat) (s : string) : string :=
  match n, s with
  | O, _ => s
  | S n', String _ s' => dropBytes n' s'
  | S _, EmptyString => EmptyString
  end.

Fixpoint takeBytes (n : nat) (s : string) : string :=
  match n, s with
  | O, _ => EmptyString
  | S n', String c s' => String c (takeBytes n' s')
  | S _, EmptyString => EmptyString
  end.

(** [utf8.ValidString(s)]: every position decodes to a rune other than the
    [(RuneError, 1)] of an invalid byte. The fuel is the length of [s]. *)
Fixpoint validFrom (fuel : nat) (s : string) : bool :=
  match s with
  | EmptyString => true
  | String _ _ =>
      match fuel with
      | O => false
      | S fuel' =>
          let '(r, size) := DecodeRuneInString s in
          if (r =? RuneError) && (size =? 1)%nat then false
          else validFrom fuel' (dropBytes size s)
      end
  end.

Definition ValidString (s : string) : bool := validFrom (String.length s) s.

(** The string with every invalid byte replaced by the encoding of
    [RuneError]: what a decoder that coerces its input to valid UTF-8
    reads. *)
Fixpoint coerceFrom (fuel : nat) (s : string) : string :=
  match s with
  | EmptyString => EmptyString
  | String _ _ =>
      match fuel with
      | O => EmptyString
      | S fuel' =>
          let '(r, size) := DecodeRuneInString s in
          EncodeRune r +:+ coerceFrom fuel' (dropBytes size s)
      end
  end.

Definition coerce (s : string) : string := coerceFrom (String.length s) s.

(** Package utf16. *)
Definition IsSurrogate (r : Z) : bool := (55296 <=? r) && (r <? 57344).

Definition utf16_DecodeRune (r1 r2 : Z) : Z :=
  if (55296 <=? r1) && (r1 <? 56320) && (56320 <=? r2) && (r2 <? 57344)
  then Z.lor (Z.shiftl (r1 - 55296) 10) (r2 - 56320) + 65536
  else RuneError.

End Utf8.
Export Utf8.

(* ===================================================================== *)
(** * encoding/json, on strings and on the persisted structs *)
(* ===================================================================== *)

Module Json.

Definition backslash : ascii := ascii_of_nat 92.

(** [hex[n]] for the table "0123456789abcdef". *)
Definition hexDigit (n : Z) : ascii :=
  if n <? 10 then byteOf (48 + n) else byteOf (87 + n).

(** [htmlSafeSet[b]] for a byte below 0x80: every printable byte but the
    quote, the backslash and the three HTML characters. *)
Definition htmlSafe (b : Z) : bool :=
  (32 <=? b) && negb ((b =? 34) || (b =? 92) || (b =? 60) || (b =? 62) || (b =? 38)).

(** The escape that [encodeState.string] writes for a byte below 0x80 that
    is not safe. *)
Definition escapeByte (b : Z) : string :=
  if (b =? 92) || (b =? 34) then String backslash (String (byteOf b) EmptyString)
  else if b =? 10 then String backslash "n"
  else if b =? 13 then String backslash "r"
  else if b =? 9 then String backslash "t"
  else String backslash
         (String "u" (String "0" (String "0"
            (String (hexDigit (Z.shiftr b 4))
               (String (hexDigit (Z.land b 15)) EmptyString))))).

(** The loop of [encodeState.string(s, escapeHTML = true)], from position
    [i] on ([s] is the rest [s[i:]]); without the two quotes. *)
Fixpoint encodeFrom (fuel : nat) (s : string) : string :=
  match s with
  | EmptyString => EmptyString
  | String c rest =>
      match fuel with
      | O => EmptyString
      | S fuel' =>
          let b := byteZ c in
          if b <? 128 then
            (if htmlSafe b then String c EmptyString else escapeByte b)
            +:+ encodeFrom fuel' rest
          else
            let '(r, size) := DecodeRuneInString s in
            if (r =? RuneError) && (size =? 1)%nat then
              String backslash "ufffd" +:+ encodeFrom fuel' (dropBytes size s)
            else if (r =? 8232) || (r =? 8233) then
              String backslash "u202" +:+ String (hexDigit (Z.land r 15)) EmptyString
              +:+ encodeFrom fuel' (dropBytes size s)
            else takeBytes size s +:+ encodeFrom fuel' (dropBytes size s)
      end
  end.

(** A Go string as a JSON string literal. *)
Definition encodeString (s : string) : string :=
  String dquote (encodeFrom (String.length s) s +:+ String dquote EmptyString).

(** JSON values as the decoder reads them: strings and keys are unquoted,
    numbers keep their literal. *)
#[warnings="-register-all"]
Inductive value :=
| JNull
| JTrue
| JFalse
| JNumber (lit : string)
| JString (s : string)
| JArray (elems : list value)
| JObject (members : list (string * value)).

Definition isSpace (c : ascii) : bool :=
  let b := byteZ c in (b =? 32) || (b =? 9) || (b =? 13) || (b =? 10).

Fixpoint skipSpace (s : string) : string :=
  match s with
  | String c s' => if isSpace c then skipSpace s' else s
  | EmptyString => EmptyString
  end.

Definition hexVal (c : ascii) : option Z :=
  let b := byteZ c in
  if (48 <=? b) && (b <=? 57) then Some (b - 48)
  else if (97 <=? b) && (b <=? 102) then Some (b - 87)
  else if (65 <=? b) && (b <=? 70) then Some (b - 55)
  else None.

(** [getu4(s)]: the rune of the escape [\uXXXX] that begins [s], if any. *)
Definition getu4 (s : string) : option Z :=
  match s with
  | String c0 (String "u" (String h1 (String h2 (String h3 (String h4 _))))) =>
      if Ascii.eqb c0 backslash then
        match hexVal h1, hexVal h2, hexVal h3, hexVal h4 with
        | Some a, Some b, Some c, Some d => Some (((a * 16 + b) * 16 + c) * 16 + d)
        | _, _, _, _ => None
        end
      else None
  | _ => None
  end.

(** The scanner and [unquote] on a string literal, after its opening
    quote: the unquoted string and the input after the closing quote.
    Control bytes and unknown escapes are syntax errors; bytes of 0x80 and
    above are coerced to valid UTF-8. *)
Fixpoint unquoteFrom (fuel : nat) (s : string) : option (string * string) :=
  match fuel with
  | O => None
  | S fuel' =>
      match s with
      | EmptyString => None
      | String c rest =>
          let b := byteZ c in
          let continue (out : string) (s' : string) :=
            match unquoteFrom fuel' s' with
            | Some (t, after) => Some (out +:+ t, after)
            | None => None
            end in
          if b =? 34 then Some (EmptyString, rest)
          else if b =? 92 then
            match rest with
            | EmptyString => None
            | String e rest2 =>
                let eb := byteZ e in
                if (eb =? 34) || (eb =? 92) || (eb =? 47)
                then continue (String e EmptyString) rest2
                else if eb =? 98 then continue (String (byteOf 8) EmptyString) rest2
                else if eb =? 102 then continue (String (byteOf 12) EmptyString) rest2
                else if eb =? 110 then continue (String (byteOf 10) EmptyString) rest2
                else if eb =? 114 then continue (String (byteOf 13) EmptyString) rest2
                else if eb =? 116 then continue (String (byteOf 9) EmptyString) rest2
                else if eb =? 117 then
                  match getu4 s with
                  | None => None
                  | Some rr =>
                      let after := dropBytes 6 s in
                      if IsSurrogate rr then
                        let dec :=
                          match getu4 after with
                          | Some rr1 => utf16_DecodeRune rr rr1
                          | None => RuneError
                          end in
                        if negb (dec =? RuneError)
                        then continue (EncodeRune dec) (dropBytes 6 after)
                        else continue (EncodeRune RuneError) after
                      else continue (EncodeRune rr) after
                  end
                else None
            end
          else if b <? 32 then None
          else if b <? 128 then continue (String c EmptyString) rest
          else
            let '(rr, size) := DecodeRuneInString s in
            continue (EncodeRune rr) (dropBytes size s)
      end
  end.

(** The number grammar of the scanner: an optional minus, an integer part
    without leading zero, an optional fraction, an optional exponent. *)
Fixpoint spanDigits (s : string) : string * string :=
  match s with
  | String c s' =>
      if isDigit c then let '(d, r) := spanDigits s' in (String c d, r)
      else (EmptyString, s)
  | EmptyString => (EmptyString, EmptyString)
  end.

Definition scanNumber (s : string) : option (string * string) :=
  let '(sign, s1) :=
    match s with
    | String "-" s' => ("-", s')
    | _ => (EmptyString, s)
    end in
  let '(int, s2) :=
    match s1 with
    | String "0" s' => ("0", s')
    | _ => spanDigits s1
    end in
  match int with
  | EmptyString => None
  | _ =>
      let frac :=
        match s2 with
        | String "." s' =>
            let '(d, r) := spanDigits s' in
            match d with
            | EmptyString => None
            | _ => Some (String "." d, r)
            end
        | _ => Some (EmptyString, s2)
        end in
      match frac with
      | None => None
      | Some (f, s3) =>
          let exp :=
            match s3 with
            | String e s' =>
                if Ascii.eqb e "e" || Ascii.eqb e "E" then
                  let '(sg, s'') :=
                    match s' with
                    | String "+" r => ("+", r)
                    | String "-" r => ("-", r)
                    | _ => (EmptyString, s')
                    end in
                  let '(d, r) := spanDigits s'' in
                  match d with
                  | EmptyString => None
                  | _ => Some (String e (sg +:+ d), r)
                  end
                else Some (EmptyString, s3)
            | EmptyString => Some (EmptyString, s3)
            end in
          match exp with
          | None => None
          | Some (x, s4) => Some (sign +:+ int +:+ f +:+ x, s4)
          end
      end
  end.

(** One JSON value at the head of [s] (no leading space) and the rest of
    the input. The fuel bounds the number of nested calls. *)
Fixpoint parseValue (fuel : nat) (s : string) : option (value * string) :=
  match fuel with
  | O => None
  | S fuel' =>
      match s with
      | String "{" rest =>
          match skipSpace rest with
          | String "}" after => Some (JObject [], after)
          | s' =>
              match parseMembers fuel' s' with
              | Some (ms, after) => Some (JObject ms, after)
              | None => None
              end
          end
      | String "[" rest =>
          match skipSpace rest with
          | String "]" after => Some (JArray [], after)
          | s' =>
              match parseElements fuel' s' with
              | Some (es, after) => Some (JArray es, after)
              | None => None
              end
          end
      | String "t" (String "r" (String "u" (String "e" after))) => Some (JTrue, after)
      | String "f" (String "a" (String "l" (String "s" (String "e" after)))) =>
          Some (JFalse, after)
      | String "n" (String "u" (String "l" (String "l" after))) => Some (JNull, after)
      | String c rest =>
          if Ascii.eqb c dquote then
            match unquoteFrom (String.length s) rest with
            | Some (t, after) => Some (JString t, after)
            | None => None
            end
          else
            match scanNumber s with
            | Some (lit, after) => Some (JNumber lit, after)
            | None => None
            end
      | EmptyString => None
      end
  end
(** The members of an object, from the first key to the closing brace. *)
with parseMembers (fuel : nat) (s : string) : option (list (string * value) * string) :=
  match fuel with
  | O => None
  | S fuel' =>
      match s with
      | String c rest =>
          if Ascii.eqb c dquote then
            match unquoteFrom (String.length s) rest with
            | Some (key, s1) =>
                match skipSpace s1 with
                | String ":" s2 =>
                    match parseValue fuel' (skipSpace s2) with
                    | Some (v, s3) =>
                        match skipSpace s3 with
                        | String "," s4 =>
                            match parseMembers fuel' (skipSpace s4) with
                            | Some (ms, after) => Some ((key, v) :: ms, after)
                            | None => None
                            end
                        | String "}" after => Some ([(key, v)], after)
                        | _ => None
                        end
                    | None => None
                    end
                | _ => None
                end
            | None => None
            end
          else None
      | EmptyString => None
      end
  end
(** The elements of an array, from the first one to the closing bracket. *)
with parseElements (fuel : nat) (s : string) : option (list value * string) :=
  match fuel with
  | O => None
  | S fuel' =>
      match parseValue fuel' s with
      | Some (v, s1) =>
          match skipSpace s1 with
          | String "," s2 =>
              match parseElements fuel' (skipSpace s2) with
              | Some (es, after) => Some (v :: es, after)
              | None => None
              end
          | String "]" after => Some ([v], after)
          | _ => None
          end
      | None => None
      end
  end.

Definition syntaxError : error := External "json: syntax error".
Definition typeError : error := External "json: cannot unmarshal value into Go value".

(** [checkValid] and the scan of the whole input: one value between
    optional spaces. *)
Definition parse (data : string) : result value :=
  match parseValue (S (String.length data)) (skipSpace data) with
  | Some (v, after) =>
      match skipSpace after with
      | EmptyString => Ok v
      | _ => Err syntaxError
      end
  | None => Err syntaxError
  end.

(** The folding under which the decoder matches a key with a field whose
    name has ASCII letters, digits and underscores only: the letters are
    compared without their case bit. *)
Definition isLetter (b : Z) : bool :=
  ((97 <=? b) && (b <=? 122)) || ((65 <=? b) && (b <=? 90)).

Fixpoint equalFold (name key : string) : bool :=
  match name, key with
  | EmptyString, EmptyString => true
  | String n name', String k key' =>
      (Ascii.eqb n k
       || (isLetter (byteZ n) && (Z.land (byteZ n) 223 =? Z.land (byteZ k) 223)))
      && equalFold name' key'
  | _, _ => false
  end.

(** A JSON value stored into a field of type [string]: a string is stored,
    [null] leaves the field as it is, any other value is a type error. *)
Definition intoString (old : string) (v : value) : result string :=
  match v with
  | JString s => Ok s
  | JNull => Ok old
  | _ => Err typeError
  end.

End Json.
Export Json.

(* ===================================================================== *)
(** * The regexp package, seen through its interface *)
(* ===================================================================== *)

(** A compiled [*regexp.Regexp], by the two observations the program makes:
    [SubexpNames()] (element 0 is the empty name of the whole match; an
    unnamed group has the empty name) and [FindStringSubmatch(s)], whose
    [nil] result (no match) is the empty list. *)
Record Regexp := {
  SubexpNames : list string;
  FindStringSubmatch : string -> list string
}.

(** [re.Match(b)]: there is a match. *)
Definition Regexp_Match (re : Regexp) (b : string) : bool :=
  match FindStringSubmatch re b with
  | [] => false
  | _ :: _ => true
  end.

(** A parsed [*url.URL], by the observations the program makes. *)
Record URL := {
  URL_String : string;
  URL_Path : string
}.

(** A [time.Time], by the observations the program makes: [t.Unix()] and
    the text [fmt.Sprintf("%v", t)]. *)
Record Time := {
  Unix : Z;
  Time_String : string
}.

(** The library functions the program calls without their source being
    part of it. *)
Record GoLib := {
  regexp_Compile : string -> result Regexp;
  strings_ToLower : string -> string;
  sort_Slice : forall A : Type, (A -> A -> bool) -> list A -> list A;
  url_Parse : string -> result URL;
  filepath_Join : list string -> string;
  (** the order in which a [range] visits the entries of a map *)
  range_map : gmap string string -> list (string * string)
}.

(** The file system, through the calls the program makes. A file opened
    by [os.Create] is named by its path. *)
Class FileSystem (F : Type) := {
  MkdirAll : string -> F -> option error * F;
  Create : string -> F -> option error * F;
  Truncate : string -> Z -> F -> option error * F;
  WriteString : string -> string -> F -> option error * F;
  WriteFile : string -> string -> F -> option error * F;
  ReadFile : string -> F -> result string
}.

(** Package os: [Getenv] and [Expand]. The environment is a finite map;
    a variable that is not set reads as the empty string. *)
Module Os.

Definition Getenv (env : gmap string string) (key : string) : string :=
  default "" (env !! key).

(** isShellSpecialVar reports whether the character identifies a special
    shell variable such as $*. *)
Definition isShellSpecialVar (c : ascii) : bool :=
  let b := byteZ c in
  (b =? 42) || (b =? 35) || (b =? 36) || (b =? 64) || (b =? 33) || (b =? 63)
  || (b =? 45) || ((48 <=? b) && (b <=? 57)).

(** isAlphaNum reports whether the byte is an ASCII letter, number, or
    underscore. *)
Definition isAlphaNum (c : ascii) : bool :=
  let b := byteZ c in
  (b =? 95) || ((48 <=? b) && (b <=? 57)) || ((97 <=? b) && (b <=? 122))
  || ((65 <=? b) && (b <=? 90)).

(** The scan to the closing brace in [getShellName]: [s] is the input
    after the opening brace and [i] counts from 1. *)
Fixpoint toBrace (s : string) (i : nat) : option (string * nat) :=
  match s with
  | EmptyString => None
  | String c s' =>
      if Ascii.eqb c "}" then Some (EmptyString, i)
      else match toBrace s' (S i) with
           | Some (name, j) => Some (String c name, j)
           | None => None
           end
  end.

Fixpoint spanAlphaNum (s : string) : string * nat :=
  match s with
  | String c s' =>
      if isAlphaNum c then let '(name, i) := spanAlphaNum s' in (String c name, S i)
      else (EmptyString, O)
  | EmptyString => (EmptyString, O)
  end.

(** getShellName returns the name that begins the string and the number of
    bytes consumed to extract it. The string is not empty. *)
Definition getShellName (s : string) : string * nat :=
  match s with
  | String "{" rest =>
      (* Scan to closing brace *)
      let scan :=
        match toBrace rest 1 with
        | Some (name, i) =>
            if (i =? 1)%nat then (EmptyString, 2%nat)  (* Bad syntax; eat "${}" *)
            else (name, S i)
        | None => (EmptyString, 1%nat)                  (* Bad syntax; eat "${" *)
        end in
      match rest with
      | String c1 (String "}" _) =>
          if isShellSpecialVar c1 then (String c1 EmptyString, 3%nat) else scan
      | _ => scan
      end
  | String c rest =>
      if isShellSpecialVar c then (String c EmptyString, 1%nat)
      else spanAlphaNum s
  | EmptyString => (EmptyString, O)
  end.

(** Expand replaces ${var} or $var in the string based on the mapping
    function. [s] is the input from position [j] on; the result is what the
    loop appends from there, followed by the rest of the input. *)
Fixpoint expandFrom (fuel : nat) (mapping : string -> string) (s : string) : string :=
  match fuel with
  | O => s
  | S fuel' =>
      match s with
      | EmptyString => EmptyString
      | String c rest =>
          if Ascii.eqb c "$" && negb (String.eqb rest EmptyString) then
            let '(name, w) := getShellName rest in
            (if String.eqb name EmptyString && (0 <? w)%nat then EmptyString
             else if String.eqb name EmptyString then String c EmptyString
             else mapping name)
            +:+ expandFrom fuel' mapping (dropBytes w rest)
          else String c (expandFrom fuel' mapping rest)
      end
  end.

Definition Expand (s : string) (mapping : string -> string) : string :=
  expandFrom (String.length s) mapping s.

End Os.
Export Os.

(** What the documentation of these functions promises. [sort.Slice] sorts
    with respect to [less] and "is not guaranteed to be stable";
    [FindStringSubmatch] returns [nil] or one entry per subexpression plus
    the whole match; a compilation never panics; a [range] over a map
    visits every entry once, in an order that is not specified. *)
Record RegexpSpec (re : Regexp) : Prop := {
  names_head : exists names, SubexpNames re = "" :: names;
  submatch_len : forall s,
    FindStringSubmatch re s = [] \/
    length (FindStringSubmatch re s) = length (SubexpNames re)
}.

Record GoLibSpec (lib : GoLib) : Prop := {
  compile_no_panic : forall p m, regexp_Compile lib p <> Panic m;
  compile_spec : forall p re, regexp_Compile lib p = Ok re -> RegexpSpec re;
  range_perm : forall m, Permutation (range_map lib m) (map_to_list m);
  sort_perm : forall A less (l : list A), Permutation l (sort_Slice lib A less l);
  sort_sorted : forall A (less : A -> A -> bool) (l : list A),
    (forall x y z, less x y = true -> less y z = true -> less x z = true) ->
    (forall x, less x x = false) ->
    (forall x y z, less x y = false -> less y z = false -> less x z = false) ->
    StronglySorted (fun x y => less y x = false) (sort_Slice lib A less l)
}.

(** [regexp.Match(pattern, b)]: compile, then match; a pattern that does
    not compile gives [(false, err)]. *)
Definition regexp_Match (lib : GoLib) (pattern b : string) : bool * option error :=
  match regexp_Compile lib pattern with
  | Ok re => (Regexp_Match re b, None)
  | Err e => (false, Some e)
  | Panic _ => (false, None)
  end.

(** [regexp.MustCompile(str)]: panics when the pattern does not compile. *)
Definition regexp_MustCompile (lib : GoLib) (str : string) : result Regexp :=
  match regexp_Compile lib str with
  | Ok re => Ok re
  | Err e => Panic ("regexp: Compile(" +:+ str +:+ "): " +:+ Error e)
  | Panic m => Panic m
  end.

(* ===================================================================== *)
(** * api/github.go *)
(* ===================================================================== *)

Module Api.

(** The go-github objects, with the fields the program reads. *)
Record Label := { Label_Name : option string }.

Record PullRequest := {
  Number : option Z;
  State : option string;
  Labels : list (option Label);
  Mergeable : option bool;
  Draft : option bool
}.

Record User := {
  Login : option string;
  User_ID : option Z;
  AvatarURL : option string;
  User_HTMLURL : option string
}.

Record IssueComment := {
  ID : option Z;
  Body : option string;
  User_ : option User;
  CreatedAt : option Time;
  UpdatedAt : option Time;
  AuthorAssociation : option string;
  HTMLURL : option string
}.

Record PullRequestReview := {
  Review_ID : option Z;
  Review_Body : option string;
  Review_State : option string;
  SubmittedAt : option Time
}.

(** [l.GetName()]: the name, or the empty string for a nil label or name. *)
Definition GetName (l : option Label) : string :=
  match l with
  | Some {| Label_Name := Some n |} => n
  | _ => ""
  end.

(** The REST endpoints behind [c.Client] (package go-github), over the
    state [S] of the remote service: reads return a result, writes return
    the error (or nil) and the new state. *)
Class GoGithub (S : Type) := {
  NewEnterpriseClient : string -> option error;
  PullRequests_List : string -> string -> S -> result (list PullRequest);
  PullRequests_Get : string -> string -> Z -> S -> result PullRequest;
  Issues_ListComments : string -> string -> Z -> S -> result (list IssueComment);
  Issues_GetComment : string -> string -> Z -> S -> result IssueComment;
  (** Modelled from the spec: "list reviews for a PR". [check.go] calls the
      client method [ListPullRequestReviews], which [api/github.go] does
      not define; it is taken as an endpoint of the collaborator. *)
  PullRequests_ListReviews : string -> string -> Z -> S -> result (list PullRequestReview);
  Users_Get : string -> S -> result User;
  Issues_Edit : string -> string -> Z -> string -> S -> option error * S;
  Issues_DeleteComment : string -> string -> Z -> S -> option error * S;
  Issues_AddLabelsToIssue : string -> string -> Z -> list string -> S -> option error * S;
  Issues_RemoveLabelForIssue : string -> string -> Z -> string -> S -> option error * S;
  Issues_ReplaceLabelsForIssue : string -> string -> Z -> list string -> S -> option error * S;
  Issues_CreateComment : string -> string -> Z -> string -> S -> option error * S
}.

(** GithubClient containing the necessary information to authenticate and
    perform actions against the REST API. *)
Record GithubClient := {
  Owner : string;
  Repository : string
}.

(** [strings.Split(s, sep)] for a one-byte separator. *)
Fixpoint Split (s : string) (sep : ascii) : list string :=
  match s with
  | EmptyString => [EmptyString]
  | String c s' =>
      if Ascii.eqb c sep then EmptyString :: Split s' sep
      else match Split s' sep with
           | [] => [String c EmptyString]
           | p :: ps => String c p :: ps
           end
  end.

Definition parseRepository (s : string) : result (string * string) :=
  match Split s "/" with
  | [owner; repository] => Ok (owner, repository)
  | _ => Err (Errorf "malformed repository")
  end.

(** NewGitHubClient for creating a new instance of the client. *)
Definition NewGithubClient {R} `{GoGithub R} (lib : GoLib)
    (repo accessToken : string) (skipSSL : bool) (githubEndpoint : string)
    : result GithubClient :=
  let! parts := parseRepository repo in
  let '(owner, repository) := parts in
  let! _ :=
    if negb (String.eqb githubEndpoint "") then
      match url_Parse lib githubEndpoint with
      | Ok endpoint =>
          match NewEnterpriseClient (URL_String endpoint) with
          | Some err => Err err
          | None => Ok tt
          end
      | Err err => Err (Errorf ("failed to parse v3 endpoint: " +:+ Error err))
      | Panic m => Panic m
      end
    else Ok tt in
  Ok {| Owner := owner; Repository := repository |}.

(** [return err] for the error (or nil) of a write, with the state after it. *)
Definition returnErr {R} (x : option error * R) : result unit * R :=
  match x with
  | (Some err, remote) => (Err err, remote)
  | (None, remote) => (Ok tt, remote)
  end.

Section Client.
Context {R : Type} `{GoGithub R}.
Variable c : GithubClient.

(** ListPullRequests returns the list of pull requests for the configured repo *)
Definition ListPullRequests (remote : R) : result (list PullRequest) :=
  PullRequests_List (Owner c) (Repository c) remote.

(** ListPullRequestComments returns the list of comments for the specific
    pull request given its ID relative to the configured repo *)
Definition ListPullRequestComments (prID : Z) (remote : R) : result (list IssueComment) :=
  Issues_ListComments (Owner c) (Repository c) prID remote.

Definition ListPullRequestReviews (prID : Z) (remote : R) : result (list PullRequestReview) :=
  PullRequests_ListReviews (Owner c) (Repository c) prID remote.

(** GetPulLRequestComment returns the specific comment given its unique Github ID *)
Definition GetPullRequestComment (commentID : Z) (remote : R) : result IssueComment :=
  Issues_GetComment (Owner c) (Repository c) commentID remote.

(** The loop of [DeleteLastPullRequestComment]: the last assignment wins.
    The call of [fmt.Print] on the author id writes to the standard output,
    which the model does not follow; it dereferences the same pointers. *)
Fixpoint lastOwnComment (comments : list IssueComment) (user : User) (commentID : Z)
    : result Z :=
  match comments with
  | [] => Ok commentID
  | comment :: rest =>
      let! cu := deref (User_ comment) in
      let! cuid := deref (User_ID cu) in
      let! uid := deref (User_ID user) in
      if cuid =? uid then
        let! cid := deref (ID comment) in
        lastOwnComment rest user cid
      else lastOwnComment rest user commentID
  end.

(** A call that can fail or panic before it touches the remote state:
    the outcome and the state after it. *)
Definition DeleteLastPullRequestComment (prID : Z) (remote : R) : result unit * R :=
  match ListPullRequestComments prID remote with
  | Err err => (Err err, remote)
  | Panic m => (Panic m, remote)
  | Ok comments =>
      (* Retrieve the authenticated user provided by the access token *)
      match Users_Get "" remote with
      | Err err => (Err err, remote)
      | Panic m => (Panic m, remote)
      | Ok user =>
          (* Only delete the last comment from the same author as the provided token *)
          match lastOwnComment comments user 0 with
          | Err err => (Err err, remote)
          | Panic m => (Panic m, remote)
          | Ok commentID =>
              if commentID >? 0 then
                returnErr (Issues_DeleteComment (Owner c) (Repository c) commentID remote)
              else (Ok tt, remote)
          end
      end
  end.

Definition SetPullRequestState (prID : Z) (state : string) : io R unit :=
  let validState :=
    fold_left (fun valid s => if String.eqb state s then true else valid)
              ["open"; "closed"] false in
  if negb validState
  then pureIO (Err (Errorf ("invalid pull request state: " +:+ state)))
  else tryIO (Issues_Edit (Owner c) (Repository c) prID state).

(** AddPullRequestLabels adds the list of labels to the existing set of
    labels given the relative pull request ID to the configure repo *)
Definition AddPullRequestLabels (prID : Z) (labels : list string) : io R unit :=
  tryIO (Issues_AddLabelsToIssue (Owner c) (Repository c) prID labels).

(** RemovePullRequestLabels remove the list of labels from the set of
    existing labels given the relative pull request ID to the configured
    repo *)
Fixpoint RemovePullRequestLabels (prID : Z) (labels : list string) : io R unit :=
  match labels with
  | [] => pureIO (Ok tt)
  | l :: rest =>
      do! _ := tryIO (Issues_RemoveLabelForIssue (Owner c) (Repository c) prID l) in
      RemovePullRequestLabels prID rest
  end.

(** ReplacePullRequestLabels overrides all existing labels with the given
    set of labels for the pull request ID relative to the configured repo *)
Definition ReplacePullRequestLabels (prID : Z) (labels : list string) : io R unit :=
  tryIO (Issues_ReplaceLabelsForIssue (Owner c) (Repository c) prID labels).

(** CreatePullRequestComment adds a new comment to the pull request given
    its ID relative to the configured repo *)
Definition CreatePullRequestComment (prID : Z) (comment : string) : io R unit :=
  tryIO (Issues_CreateComment (Owner c) (Repository c) prID comment).

End Client.

(** The last element of a non-empty slice: [parts[len(parts)-1]]. *)
Fixpoint lastPart (parts : list string) : string :=
  match parts with
  | [] => EmptyString
  | [x] => x
  | _ :: rest => lastPart rest
  end.

(** ParseCommentHTMLURL takes in a standard issue URL and returns the issue
    number, e.g.:
    https://github.com/octocat/Hello-World/issues/1347#issuecomment-1 *)
Definition ParseCommentHTMLURL (lib : GoLib) (prUrl : string) : result Z :=
  let! u := url_Parse lib prUrl in
  let parts := Split (URL_Path u) "/" in
  let! i := Atoi (lastPart parts) in
  Ok i.

End Api.
Export Api.

(* ===================================================================== *)
(** * actions/common.go *)
(* ===================================================================== *)

Module Actions.

(** Source parameters provided by the resource. *)
Record Source := {
  SkipSSLVerification : bool;
  GithubEndpoint : string;
  Repository : string;
  DisableGitLfs : bool;
  AccessToken : string;
  Username : string;
  Password : string;
  OnlyMergeable : bool;
  States : list string;
  Labels : list string;
  Comments : list string;
  CommenterAssociation : list string;
  MapCommentMeta : bool;
  ReviewStates : list string;
  When : string;
  IgnoreStates : list string;
  IgnoreLabels : list string;
  IgnoreComments : list string;
  IgnoreDrafts : bool
}.

(** Version communicated with Concourse. *)
Record Version := {
  CreatedAt : string;
  PrID : string;
  ReviewID : string;
  CommentID : string
}.

(** Metadata has a key name and value. *)
Record MetadataField := {
  Name : string;
  Value : string
}.

(** Metadata contains the serialized interface: a slice of pointers. *)
Definition Metadata := list (option MetadataField).

(** Add a MetadataField to the Metadata struct *)
Definition Metadata_Add (m : Metadata) (name value : string) : Metadata :=
  m ++ [Some {| Name := name; Value := value |}].

(** Get a MetadataField value from the Metadata struct *)
Fixpoint Metadata_Get (m : Metadata) (name : string) : result string :=
  match m with
  | [] => Err (Errorf ("metadata index does not exist: " +:+ name))
  | p :: m' =>
      let! i := deref p in
      if String.eqb name (Name i) then Ok (Value i) else Metadata_Get m' name
  end.

(** [json.Marshal] of a [Version]: the four fields in the order of the
    struct, under their tags. *)
Definition Marshal_Version (v : Version) : string :=
  "{" +:+ encodeString "created_at" +:+ ":" +:+ encodeString (CreatedAt v)
  +:+ "," +:+ encodeString "pr_id" +:+ ":" +:+ encodeString (PrID v)
  +:+ "," +:+ encodeString "review_id" +:+ ":" +:+ encodeString (ReviewID v)
  +:+ "," +:+ encodeString "comment_id" +:+ ":" +:+ encodeString (CommentID v)
  +:+ "}".

(** The decoder on the members of an object, for the struct [Version]: a
    member whose key folds to the tag of a field is stored into it, in the
    order of the members; other members are ignored. *)
Definition setVersionField (v : Version) (key : string) (j : value) : result Version :=
  if equalFold "created_at" key then
    let! x := intoString (CreatedAt v) j in
    Ok {| CreatedAt := x; PrID := PrID v; ReviewID := ReviewID v; CommentID := CommentID v |}
  else if equalFold "pr_id" key then
    let! x := intoString (PrID v) j in
    Ok {| CreatedAt := CreatedAt v; PrID := x; ReviewID := ReviewID v; CommentID := CommentID v |}
  else if equalFold "review_id" key then
    let! x := intoString (ReviewID v) j in
    Ok {| CreatedAt := CreatedAt v; PrID := PrID v; ReviewID := x; CommentID := CommentID v |}
  else if equalFold "comment_id" key then
    let! x := intoString (CommentID v) j in
    Ok {| CreatedAt := CreatedAt v; PrID := PrID v; ReviewID := ReviewID v; CommentID := x |}
  else Ok v.

Fixpoint setVersionFields (v : Version) (members : list (string * value)) : result Version :=
  match members with
  | [] => Ok v
  | (key, j) :: rest =>
      let! v' := setVersionField v key j in
      setVersionFields v' rest
  end.

(** [json.Unmarshal(content, &version)] for [var version Version]. *)
Definition Unmarshal_Version (content : string) : result Version :=
  let zero := {| CreatedAt := ""; PrID := ""; ReviewID := ""; CommentID := "" |} in
  let! j := Json.parse content in
  match j with
  | JObject members => setVersionFields zero members
  | JNull => Ok zero
  | _ => Err typeError
  end.

(** [json.Marshal] of a [Metadata]: [null] for the nil slice, else the
    array of its elements, [null] for a nil element. *)
Definition Marshal_MetadataField (p : option MetadataField) : string :=
  match p with
  | None => "null"
  | Some d =>
      "{" +:+ encodeString "name" +:+ ":" +:+ encodeString (Name d)
      +:+ "," +:+ encodeString "value" +:+ ":" +:+ encodeString (Value d) +:+ "}"
  end.

Fixpoint Marshal_elements (m : Metadata) : string :=
  match m with
  | [] => EmptyString
  | [p] => Marshal_MetadataField p
  | p :: m' => Marshal_MetadataField p +:+ "," +:+ Marshal_elements m'
  end.

Definition Marshal_Metadata (m : Metadata) : string :=
  match m with
  | [] => "null"
  | _ => "[" +:+ Marshal_elements m +:+ "]"
  end.

Definition setMetadataField (d : MetadataField) (key : string) (j : value)
    : result MetadataField :=
  if equalFold "name" key then
    let! x := intoString (Name d) j in Ok {| Name := x; Value := Value d |}
  else if equalFold "value" key then
    let! x := intoString (Value d) j in Ok {| Name := Name d; Value := x |}
  else Ok d.

Fixpoint setMetadataFields (d : MetadataField) (members : list (string * value))
    : result MetadataField :=
  match members with
  | [] => Ok d
  | (key, j) :: rest =>
      let! d' := setMetadataField d key j in
      setMetadataFields d' rest
  end.

Fixpoint Unmarshal_elements (elems : list value) : result Metadata :=
  match elems with
  | [] => Ok []
  | j :: rest =>
      let! p :=
        match j with
        | JNull => Ok None
        | JObject members =>
            let! d := setMetadataFields {| Name := ""; Value := "" |} members in
            Ok (Some d)
        | _ => Err typeError
        end in
      let! m := Unmarshal_elements rest in
      Ok (p :: m)
  end.

(** [json.Unmarshal(content, &metadata)] for [var metadata Metadata]. *)
Definition Unmarshal_Metadata (content : string) : result Metadata :=
  let! j := Json.parse content in
  match j with
  | JArray elems => Unmarshal_elements elems
  | JNull => Ok []
  | _ => Err typeError
  end.

(** The loop [for _, s := range l { if s == x { ret = v; break } }]. *)
Fixpoint rangeAssignBreak (l : list string) (x : string) (v ret : bool) : bool :=
  match l with
  | [] => ret
  | s :: l' => if String.eqb s x then v else rangeAssignBreak l' x v ret
  end.

(** requestsState checks whether the source requests this particular state *)
Definition requestsState (source : Source) (state : string) : bool :=
  let ret := false in
  let ret :=
    if (length (States source) =? 0)%nat
    then String.eqb state "open"
    else rangeAssignBreak (States source) state true ret in
  let ret := rangeAssignBreak (IgnoreStates source) state false ret in
  ret.


(** requestsReviewState checks whether the PR review matches the desired state *)
Definition requestsReviewState (lib : GoLib) (source : Source) (state : string) : bool :=
  let state := strings_ToLower lib state in
  existsb (fun s => String.eqb state (strings_ToLower lib s)) (ReviewStates source).

(** The labelled loops of [requestsLabels]: for each requested label, scan
    the labels of the pull request; the first equal pair assigns [v] and
    leaves both loops. *)
Fixpoint rangeLabels (labels : list (option Label)) (rl : string) : bool :=
  match labels with
  | [] => false
  | rr :: labels' => if String.eqb rl (GetName rr) then true else rangeLabels labels' rl
  end.

Fixpoint rangeRequested (requested : list string) (labels : list (option Label))
    (v ret : bool) : bool :=
  match requested with
  | [] => ret
  | rl :: requested' =>
      if rangeLabels labels rl then v else rangeRequested requested' labels v ret
  end.

(** requestsLabels checks whether the source requests these set of labels *)
Definition requestsLabels (source : Source) (labels : list (option Label)) : bool :=
  let ret := false in
  let ret :=
    if (length (Actions.Labels source) =? 0)%nat
    then true
    else rangeRequested (Actions.Labels source) labels true ret in
  let ret := rangeRequested (IgnoreLabels source) labels false ret in
  ret.

(** requestsCommenterAssociation checks the comment author's association *)
Definition requestsCommenterAssociation (lib : GoLib) (source : Source) (assoc : string)
    : bool :=
  if match CommenterAssociation source with
     | [] => true
     | [a] => String.eqb a "all"
     | _ => false
     end
  then true
  else
    let assoc := strings_ToLower lib assoc in
    existsb (fun a => String.eqb assoc (strings_ToLower lib a)) (CommenterAssociation source).

(** The loop [for _, c := range l { matched, _ := regexp.Match(c, comment);
    if matched { ret = v } }]: the error of [regexp.Match] is assigned to
    the blank identifier. *)
Fixpoint rangeMatch (lib : GoLib) (l : list string) (comment : string) (v ret : bool)
    : bool :=
  match l with
  | [] => ret
  | c :: l' =>
      let '(matched, _) := regexp_Match lib c comment in
      rangeMatch lib l' comment v (if matched then v else ret)
  end.

(** requestsCommentRegex determines if the source requests this comment regex *)
Definition requestsCommentRegex (lib : GoLib) (source : Source) (comment : string) : bool :=
  let ret := false in
  let ret :=
    if (length (Comments source) =? 0)%nat
    then true
    else rangeMatch lib (Comments source) comment true ret in
  let ret := rangeMatch lib (IgnoreComments source) comment false ret in
  ret.

(* --------------------------------------------------------------------- *)
(** ** actions/check.go *)
(* --------------------------------------------------------------------- *)

(** CheckRequest from the check stdin. *)
Record CheckRequest := {
  CheckRequest_Source : Source;
  CheckRequest_Version : Version
}.

(** CheckResponse represents the structure Concourse expects on stdout *)
Definition CheckResponse := list Version.

(** The two variables of [Check] that the loops assign:
    [var versions CheckResponse] and [var version *Version]. *)
Record checkVars := {
  versions : CheckResponse;
  version : option Version
}.

Section CheckLoops.
Variable lib : GoLib.
Variable source : Source.   (* req.Source, after the default of [When] *)
Variable pull : PullRequest.

Definition whenAllOrFirst : bool :=
  String.eqb (When source) "all" || String.eqb (When source) "first".

(** The body of [for _, comment := range comments]; the result carries
    [latestCommentIsMatch]. A [break] returns without the rest. *)
Fixpoint commentsLoop (comments : list IssueComment) (vars : checkVars)
    (latestCommentIsMatch : bool) : result (checkVars * bool) :=
  match comments with
  | [] => Ok (vars, latestCommentIsMatch)
  | comment :: rest =>
      (* Ignore comments which do not match comment author association *)
      let! assoc := deref (AuthorAssociation comment) in
      if negb (requestsCommenterAssociation lib source assoc)
      then commentsLoop rest vars false
      else
      (* Ignore comments which do not match regex *)
      let! body := deref (Body comment) in
      if negb (requestsCommentRegex lib source body)
      then commentsLoop rest vars false
      else
      (* Add the comment ID to the list of versions we want Concourse to see *)
      let! createdAt := deref (Api.CreatedAt comment) in
      let! number := deref (Number pull) in
      let! id := deref (ID comment) in
      let v := {| CreatedAt := FormatInt (Unix createdAt);
                  PrID := Itoa number;
                  ReviewID := "";
                  CommentID := FormatInt id |} in
      let vars := {| versions := if whenAllOrFirst
                                 then versions vars ++ [v]
                                 else versions vars;
                     version := Some v |} in
      if String.eqb (When source) "first"
      then Ok (vars, true)
      else commentsLoop rest vars true
  end.

(** The body of [for _, review := range reviews]. *)
Fixpoint reviewsLoop (reviews : list PullRequestReview) (vars : checkVars)
    (latestReviewIsMatch : bool) : result (checkVars * bool) :=
  match reviews with
  | [] => Ok (vars, latestReviewIsMatch)
  | review :: rest =>
      let! state := deref (Review_State review) in
      if negb (requestsReviewState lib source state)
      then reviewsLoop rest vars false
      else
      let! body := deref (Review_Body review) in
      if negb (requestsCommentRegex lib source body)
      then reviewsLoop rest vars false
      else
      let! submittedAt := deref (SubmittedAt review) in
      let! number := deref (Number pull) in
      let! id := deref (Review_ID review) in
      let v := {| CreatedAt := FormatInt (Unix submittedAt);
                  PrID := Itoa number;
                  ReviewID := FormatInt id;
                  CommentID := "" |} in
      let vars := {| versions := if whenAllOrFirst
                                 then versions vars ++ [v]
                                 else versions vars;
                     version := Some v |} in
      if String.eqb (When source) "first"
      then Ok (vars, true)
      else reviewsLoop rest vars true
  end.

(** [if req.Source.When == "latest" && latestIsMatch
     { versions = append(versions, *version) }] *)
Definition saveLatest (vars : checkVars) (latestIsMatch : bool) : result checkVars :=
  if String.eqb (When source) "latest" && latestIsMatch
  then
    let! v := deref (version vars) in
    Ok {| versions := versions vars ++ [v]; version := version vars |}
  else Ok vars.

(** The comment track of one pull request: the loop over its comments and
    the "latest" step after it. *)
Definition commentTrack (comments : list IssueComment) (vars : checkVars)
    : result checkVars :=
  let! r := commentsLoop comments vars false in
  saveLatest (fst r) (snd r).

(** The review track of one pull request. *)
Definition reviewTrack (reviews : list PullRequestReview) (vars : checkVars)
    : result checkVars :=
  let! r := reviewsLoop reviews vars false in
  saveLatest (fst r) (snd r).

End CheckLoops.

Section Check.
Context {R : Type} `{GoGithub R}.
Variable lib : GoLib.
Variable remote : R.

(** The filters at the head of the loop over the pull requests: [true]
    when the pull request is skipped with [continue]. *)
Definition skipPull (source : Source) (pull : PullRequest) : result bool :=
  (* Ignore if state not requested *)
  let! state := deref (State pull) in
  if negb (requestsState source state) then Ok true else
  (* Ignore if labels not requested *)
  if negb (requestsLabels source (Api.Labels pull)) then Ok true else
  (* Ignore if only mergeables requested *)
  let! notMergeable :=
    if OnlyMergeable source
    then (let! m := deref (Mergeable pull) in Ok (negb m))
    else Ok false in
  if notMergeable then Ok true else
  (* Ignore drafts *)
  let! draft := deref (Draft pull) in
  Ok draft.

(** The body of [for _, pull := range pulls]. *)
Fixpoint pullsLoop (client : GithubClient) (source : Source) (pulls : list PullRequest)
    (vars : checkVars) : result checkVars :=
  match pulls with
  | [] => Ok vars
  | pull :: rest =>
      let vars := {| versions := versions vars; version := None |} in
      let! skip := skipPull source pull in
      if skip then pullsLoop client source rest vars else
      (* Iterate through all the comments for this PR *)
      let! number := deref (Number pull) in
      let! comments := ListPullRequestComments client number remote in
      let! vars := commentTrack lib source pull comments vars in
      (* Iterate through all the reviews for this PR *)
      let! reviews := ListPullRequestReviews client number remote in
      let! vars := reviewTrack lib source pull reviews vars in
      pullsLoop client source rest vars
  end.

(** [req.Source.When = "latest"] when it is empty. *)
Definition defaultWhen (source : Source) : Source :=
  if (String.length (When source) =? 0)%nat
  then {| SkipSSLVerification := SkipSSLVerification source;
          GithubEndpoint := GithubEndpoint source;
          Repository := Actions.Repository source;
          DisableGitLfs := DisableGitLfs source;
          AccessToken := AccessToken source;
          Username := Username source;
          Password := Password source;
          OnlyMergeable := OnlyMergeable source;
          States := States source;
          Labels := Actions.Labels source;
          Comments := Comments source;
          CommenterAssociation := CommenterAssociation source;
          MapCommentMeta := MapCommentMeta source;
          ReviewStates := ReviewStates source;
          When := "latest";
          IgnoreStates := IgnoreStates source;
          IgnoreLabels := IgnoreLabels source;
          IgnoreComments := IgnoreComments source;
          IgnoreDrafts := IgnoreDrafts source |}
  else source.

(** The comparison handed to [sort.Slice]:
    [versions[i].CreatedAt < versions[j].CreatedAt], on strings. *)
Definition lessCreatedAt (a b : Version) : bool :=
  String.ltb (CreatedAt a) (CreatedAt b).

(** [Check] up to the final sort: the versions in the order in which they
    were appended. *)
Definition collect (req : CheckRequest) : result CheckResponse :=
  let! client := NewGithubClient lib
                   (Actions.Repository (CheckRequest_Source req))
                   (AccessToken (CheckRequest_Source req))
                   (SkipSSLVerification (CheckRequest_Source req))
                   (GithubEndpoint (CheckRequest_Source req)) in
  let source := defaultWhen (CheckRequest_Source req) in
  (* Get all pull requests *)
  let! pulls := ListPullRequests client remote in
  (* Iterate over all pull requests *)
  let! vars := pullsLoop client source pulls {| versions := []; version := None |} in
  Ok (versions vars).

Definition Check (req : CheckRequest) : result CheckResponse :=
  let! versions := collect req in
  Ok (sort_Slice lib Version lessCreatedAt versions).

End Check.

(* --------------------------------------------------------------------- *)
(** ** actions/in.go *)
(* --------------------------------------------------------------------- *)

(** InParams are the parameters for configuring the input *)
Record InParams := {
  CommentFile : string
}.

(** InRequest from the check stdin. *)
Record InRequest := {
  InRequest_Source : Source;
  InRequest_Version : Version;
  InRequest_Params : InParams
}.

(** InResponse represents the structure Concourse expects on stdout *)
Record InResponse := {
  InResponse_Version : Version;
  InResponse_Metadata : Metadata
}.

(** The loop of [getParams] over [compRegEx.SubexpNames()], from index [i]:
    [if i > 0 && i <= len(match) { paramsMap[name] = match[i] }]; an index
    outside [match] is a run-time panic. *)
Fixpoint rangeSubexpNames (names : list string) (i : nat) (match_ : list string)
    (paramsMap : gmap string string) : result (gmap string string) :=
  match names with
  | [] => Ok paramsMap
  | name :: rest =>
      if (0 <? i)%nat && (i <=? length match_)%nat then
        match match_ !! i with
        | Some m => rangeSubexpNames rest (S i) match_ (<[name := m]> paramsMap)
        | None => Panic "runtime error: index out of range"
        end
      else rangeSubexpNames rest (S i) match_ paramsMap
  end.

Definition getParams (lib : GoLib) (regEx comment : string) : result (gmap string string) :=
  let! compRegEx := regexp_MustCompile lib regEx in
  let match_ := FindStringSubmatch compRegEx comment in
  rangeSubexpNames (SubexpNames compRegEx) 0 match_ ∅.

(** [for k, v := range extraMeta { metadata.Add(k, v) }] *)
Definition addAll (lib : GoLib) (extraMeta : gmap string string) (metadata : Metadata)
    : Metadata :=
  fold_left (fun m kv => Metadata_Add m (fst kv) (snd kv)) (range_map lib extraMeta) metadata.

(** [for _, commentStr := range req.Source.Comments { ... }] under
    [if req.Source.MapCommentMeta]. *)
Fixpoint enrich (lib : GoLib) (patterns : list string) (body : string)
    (metadata : Metadata) : result Metadata :=
  match patterns with
  | [] => Ok metadata
  | commentStr :: rest =>
      let! extraMeta := getParams lib commentStr body in
      enrich lib rest body (addAll lib extraMeta metadata)
  end.

(** [serializeMetadata(InMetadata{...})]: one field per field of the struct,
    named by its tag, with the value printed by [%v]. *)
Definition inMetadata (prNumber : Z) (comment : IssueComment) : result Metadata :=
  let! id := deref (ID comment) in
  let! body := deref (Body comment) in
  let! createdAt := deref (Api.CreatedAt comment) in
  let! updatedAt := deref (UpdatedAt comment) in
  let! authorAssociation := deref (AuthorAssociation comment) in
  let! htmlURL := deref (HTMLURL comment) in
  let! user := deref (User_ comment) in
  let! userLogin := deref (Login user) in
  let! userID := deref (User_ID user) in
  let! userAvatarURL := deref (AvatarURL user) in
  let! userHTMLURL := deref (User_HTMLURL user) in
  Ok (map Some
        [ {| Name := "pr_id"; Value := FormatInt prNumber |};
          {| Name := "comment_id"; Value := FormatInt id |};
          {| Name := "body"; Value := body |};
          {| Name := "created_at"; Value := Time_String createdAt |};
          {| Name := "updated_at"; Value := Time_String updatedAt |};
          {| Name := "author_association"; Value := authorAssociation |};
          {| Name := "html_url"; Value := htmlURL |};
          {| Name := "user_login"; Value := userLogin |};
          {| Name := "user_id"; Value := FormatInt userID |};
          {| Name := "user_avatar_url"; Value := userAvatarURL |};
          {| Name := "user_html_url"; Value := userHTMLURL |} ]).

Section In.
Context {R F : Type} `{GoGithub R} `{FileSystem F}.
(** [in.go] reads the field [Ref] of the version, which the struct
    [Version] of [common.go] does not declare: the accessor is a parameter
    of the model. *)
Variable Ref : Version -> string.
Variable lib : GoLib.
Variable remote : R.

(** Save the individual metadata items to seperate files *)
Fixpoint writeItems (path : string) (metadata : Metadata) : io F unit :=
  match metadata with
  | [] => pureIO (Ok tt)
  | p :: rest =>
      do! d := pureIO (deref p) in
      let filename := Name d in
      let content := Value d in
      do! _ := wrapIO ("failed to write metadata file " +:+ filename +:+ ": ")
                 (WriteFile (filepath_Join lib [path; filename]) content) in
      writeItems path rest
  end.

(** The part of [In] that follows the fetch of the comment. *)
Definition materialize (comment : IssueComment) (outputDir : string) (req : InRequest)
    : io F InResponse :=
  (* Write comment, version and metadata for reuse in PUT *)
  let path := filepath_Join lib [outputDir] in
  do! _ := wrapIO "failed to create output directory: " (MkdirAll path) in
  (* Set the destination file to save the comment to *)
  let commentFile :=
    if negb (String.eqb (CommentFile (InRequest_Params req)) "")
    then CommentFile (InRequest_Params req)
    else "comment.txt" in
  (* Write the comment body to the specified path *)
  let f := filepath_Join lib [path; commentFile] in
  do! _ := wrapIO "could not create comment file: " (Create f) in
  do! _ := tryIO (Truncate f 0) in
  do! body := pureIO (deref (Body comment)) in
  do! _ := tryIO (WriteString f body) in
  (* Retrieve the PR number from the given URL *)
  do! htmlURL := pureIO (deref (HTMLURL comment)) in
  do! prNumber := pureIO (ParseCommentHTMLURL lib htmlURL) in
  do! metadata := pureIO (inMetadata prNumber comment) in
  do! metadata :=
    pureIO (if MapCommentMeta (InRequest_Source req)
            then enrich lib (Comments (InRequest_Source req)) body metadata
            else Ok metadata) in
  let b := Marshal_Version (InRequest_Version req) in
  do! _ := wrapIO "failed to write version: "
             (WriteFile (filepath_Join lib [path; "version.json"]) b) in
  let b := Marshal_Metadata metadata in
  do! _ := wrapIO "failed to write metadata: "
             (WriteFile (filepath_Join lib [path; "metadata.json"]) b) in
  do! _ := writeItems path metadata in
  pureIO (Ok {| InResponse_Version := InRequest_Version req;
                InResponse_Metadata := metadata |}).

Definition In (outputDir : string) (req : InRequest) : io F InResponse :=
  do! client := pureIO (NewGithubClient lib
                         (Repository (InRequest_Source req))
                         (AccessToken (InRequest_Source req))
                         (SkipSSLVerification (InRequest_Source req))
                         (GithubEndpoint (InRequest_Source req))) in
  do! commentID := pureIO (ParseInt (Ref (InRequest_Version req))) in
  do! comment := pureIO (GetPullRequestComment client commentID remote) in
  materialize comment outputDir req.

End In.

(* --------------------------------------------------------------------- *)
(** ** actions/out.go *)
(* --------------------------------------------------------------------- *)

Record OutParams := {
  Path : string;
  OutParams_State : string;
  Comment : string;
  OutParams_CommentFile : string;
  OutParams_Labels : list string;
  AddLabels : list string;
  RemoveLabels : list string;
  DeleteLastComment : bool
}.

(** OutRequest from the check stdin. *)
Record OutRequest := {
  OutRequest_Source : Source;
  OutRequest_Params : OutParams
}.

(** OutResponse represents the structure Concourse expects on stdout *)
Record OutResponse := {
  OutResponse_Version : Version;
  OutResponse_Metadata : Metadata
}.

Definition Validate (lib : GoLib) (p : OutParams) : result unit :=
  if String.eqb (OutParams_State p) "" then Ok tt
  else
    (* Make sure we are setting an allowed state *)
    let state := strings_ToLower lib (OutParams_State p) in
    let allowedState :=
      fold_left (fun allowed a => if String.eqb state a then true else allowed)
                ["open"; "closed"] false in
    if negb allowedState
    then Err (Errorf ("unknown state: " +:+ OutParams_State p))
    else Ok tt.

(** The names that [safeExpandEnv] hands to [os.Getenv]. *)
Definition allowed (v : string) : bool :=
  String.eqb v "BUILD_ID" || String.eqb v "BUILD_NAME" || String.eqb v "BUILD_JOB_NAME"
  || String.eqb v "BUILD_PIPELINE_NAME" || String.eqb v "BUILD_TEAM_NAME"
  || String.eqb v "ATC_EXTERNAL_URL".

Definition safeMapping (env : gmap string string) (v : string) : string :=
  if allowed v then Getenv env v else "$" +:+ v.

Definition safeExpandEnv (env : gmap string string) (s : string) : string :=
  Expand s (safeMapping env).

Section Out.
Context {R F : Type} `{GoGithub R} `{FileSystem F}.
Variable lib : GoLib.
Variable env : gmap string string.
Variable fs : F.

(** [if err != nil { return nil, fmt.Errorf(prefix + "%s", err) }] for a
    call that returns a value. *)
Definition wrapErr {A} (prefix : string) (r : result A) : result A :=
  match r with
  | Err err => Err (Errorf (prefix +:+ Error err))
  | other => other
  end.

Definition Out (inputDir : string) (req : OutRequest) : io R OutResponse :=
  let params := OutRequest_Params req in
  do! _ := pureIO (wrapErr "invalid parameters: " (Validate lib params)) in
  let path := filepath_Join lib [inputDir; Path params] in
  (* Version available after a GET step. *)
  do! content := pureIO (wrapErr "failed to read version from path: "
                   (ReadFile (filepath_Join lib [path; "version.json"]) fs)) in
  do! version := pureIO (wrapErr "failed to unmarshal version from file: "
                   (Unmarshal_Version content)) in
  (* Metadata available after a GET step. *)
  do! content := pureIO (wrapErr "failed to read metadata from path: "
                   (ReadFile (filepath_Join lib [path; "metadata.json"]) fs)) in
  do! metadata := pureIO (wrapErr "failed to unmarshal metadata from file: "
                   (Unmarshal_Metadata content)) in
  do! prNumber := pureIO (Metadata_Get metadata "pr_id") in
  do! prID := pureIO (Atoi prNumber) in
  do! client := pureIO (NewGithubClient lib
                         (Repository (OutRequest_Source req))
                         (AccessToken (OutRequest_Source req))
                         (SkipSSLVerification (OutRequest_Source req))
                         (GithubEndpoint (OutRequest_Source req))) in
  (* Update the state? *)
  do! _ :=
    if negb (String.eqb (OutParams_State params) "")
    then SetPullRequestState client prID (OutParams_State params)
    else pureIO (Ok tt) in
  (* Delete the last comment? *)
  do! _ :=
    if DeleteLastComment params
    then DeleteLastPullRequestComment client prID
    else pureIO (Ok tt) in
  (* Add, remove or replace tags? *)
  do! _ :=
    if (0 <? length (OutParams_Labels params))%nat
    then ReplacePullRequestLabels client prID (OutParams_Labels params)
    else
      do! _ :=
        if (0 <? length (AddLabels params))%nat
        then AddPullRequestLabels client prID (AddLabels params)
        else pureIO (Ok tt) in
      if (0 <? length (RemoveLabels params))%nat
      then RemovePullRequestLabels client prID (RemoveLabels params)
      else pureIO (Ok tt) in
  (* Add a new comment? *)
  do! comment :=
    if (0 <? String.length (Comment params))%nat
    then pureIO (Ok (Comment params))
    else if (0 <? String.length (OutParams_CommentFile params))%nat
    then pureIO (ReadFile (filepath_Join lib [path; OutParams_CommentFile params]) fs)
    else pureIO (Ok EmptyString) in
  do! _ :=
    if (0 <? String.length comment)%nat
    then CreatePullRequestComment client prID (safeExpandEnv env comment)
    else pureIO (Ok tt) in
  pureIO (Ok {| OutResponse_Version := version; OutResponse_Metadata := metadata |}).

End Out.

End Actions.
Export Actions.

(* ===================================================================== *)
(** * Notions used to state the properties *)
(* ===================================================================== *)

(** A comment whose fields read by the comment track are all present. *)
Definition populated (c : IssueComment) : Prop :=
  is_Some (AuthorAssociation c) /\ is_Some (Body c) /\
  is_Some (Api.CreatedAt c) /\ is_Some (ID c).

(** The comment passes the commenter-association predicate and the
    comment-text predicate. *)
Definition passes (lib : GoLib) (source : Source) (c : IssueComment) : bool :=
  match AuthorAssociation c, Body c with
  | Some assoc, Some body =>
      requestsCommenterAssociation lib source assoc && requestsCommentRegex lib source body
  | _, _ => false
  end.

(** The version that references comment [c] of pull request [number]. *)
Definition commentVersion (number : Z) (c : IssueComment) : option Version :=
  match Api.CreatedAt c, ID c with
  | Some t, Some id =>
      Some {| Actions.CreatedAt := FormatInt (Unix t);
              PrID := Itoa number;
              ReviewID := "";
              CommentID := FormatInt id |}
  | _, _ => None
  end.

(** What the comment track adds in mode "latest". *)
Definition latestEmitted (lib : GoLib) (source : Source) (number : Z)
    (comments : list IssueComment) : list Version :=
  match last comments with
  | Some c => if passes lib source c then option_list (commentVersion number c) else []
  | None => []
  end.

(** A version names its pull request and exactly one of a comment and a
    review. *)
Definition validVersion (v : Version) : Prop :=
  PrID v <> "" /\
  ((CommentID v <> "" /\ ReviewID v = "") \/ (CommentID v = "" /\ ReviewID v <> "")).

(** Both variables of [Check] hold valid versions only. *)
Definition validVars (vars : checkVars) : Prop :=
  Forall validVersion (versions vars) /\
  (forall v, version vars = Some v -> validVersion v).

(** The timestamp of a version as a number, and the order the
    specification names: ascending by the numeric creation timestamp. *)
Definition createdAtNumber (v : Version) : Z :=
  match NilEmpty.int_of_string (Actions.CreatedAt v) with
  | Some d => Z.of_int d
  | None => 0
  end.

Definition lessNumeric (a b : Version) : bool :=
  createdAtNumber a <? createdAtNumber b.

(** The stable sort ascending by numeric creation timestamp, as the
    specification words the final step of check. *)
Fixpoint insertStable (less : Version -> Version -> bool) (x : Version)
    (l : list Version) : list Version :=
  match l with
  | [] => [x]
  | y :: l' => if less y x then y :: insertStable less x l' else x :: y :: l'
  end.

Definition specStableNumericSort (collected : list Version) : list Version :=
  fold_right (insertStable lessNumeric) [] collected.

(** The order the final list of [Check] is in. [a] may stand before [b]
    when its timestamp is not greater as a string, compared byte by byte. *)
Definition stringOrdered (a b : Version) : Prop :=
  String.leb (Actions.CreatedAt a) (Actions.CreatedAt b) = true.

(** [a] and [b] are in the order of their numeric timestamps, should these
    be non-negative and written with the same number of digits. *)
Definition numericIfSameWidth (a b : Version) : Prop :=
  forall n m : Z,
    0 <= n -> 0 <= m ->
    Actions.CreatedAt a = FormatInt n -> Actions.CreatedAt b = FormatInt m ->
    String.length (Actions.CreatedAt a) = String.length (Actions.CreatedAt b) ->
    n <= m.

(** Pattern [p] compiles and matches [body]. *)
Definition matches (lib : GoLib) (p body : string) : Prop :=
  exists re, regexp_Compile lib p = Ok re /\ Regexp_Match re body = true.

(** Pattern [p] is malformed: its compilation returns an error. *)
Definition malformed (lib : GoLib) (p : string) : Prop :=
  exists e, regexp_Compile lib p = Err e.

(** The id of the author of a comment, and the comments of a list that the
    user [uid] wrote. *)
Definition authorID (c : IssueComment) : option Z :=
  match User_ c with
  | Some u => User_ID u
  | None => None
  end.

Definition writtenBy (uid : Z) (c : IssueComment) : bool :=
  match authorID c with
  | Some a => a =? uid
  | None => false
  end.

Definition ownComments (uid : Z) (comments : list IssueComment) : list IssueComment :=
  List.filter (writtenBy uid) comments.

(** A comment whose author id and own id are present. *)
Definition identified (c : IssueComment) : Prop :=
  is_Some (authorID c) /\ is_Some (ID c).

(** Two environments give the allow-listed variables the same values. *)
Definition agreeOnAllowList (env1 env2 : gmap string string) : Prop :=
  forall v, allowed v = true -> Getenv env1 v = Getenv env2 v.

(** A name that [$name] refers to: a letter or an underscore, then letters,
    digits and underscores. *)
Definition plainName (name : string) : Prop :=
  match name with
  | EmptyString => False
  | String c rest =>
      isAlphaNum c = true /\ isShellSpecialVar c = false
      /\ snd (spanAlphaNum rest) = String.length rest
  end.

(** The text after a reference does not continue its name. *)
Definition endsName (rest : string) : Prop :=
  match rest with
  | EmptyString => True
  | String c _ => isAlphaNum c = false
  end.

(** The map that [getParams] builds from the names of the groups 1, 2, ...
    and their submatches: later groups overwrite earlier ones of the same
    name. *)
Definition paramsOf (names subs : list string) : gmap string string :=
  fold_left (fun m nv => <[fst nv := snd nv]> m) (zip names subs) ∅.

(** The step of the decoder that puts [out] in front of what the rest of
    the literal unquotes to. *)
Definition continueWith (out : string) (r : option (string * string))
    : option (string * string) :=
  match r with
  | Some (t, after) => Some (out +:+ t, after)
  | None => None
  end.

(** A version with every field coerced to valid UTF-8, and the versions
    whose fields are valid UTF-8 already. *)
Definition coerceVersion (v : Version) : Version :=
  {| Actions.CreatedAt := coerce (Actions.CreatedAt v); PrID := coerce (PrID v);
     ReviewID := coerce (ReviewID v); CommentID := coerce (CommentID v) |}.

Definition validUTF8 (v : Version) : Prop :=
  ValidString (Actions.CreatedAt v) = true /\ ValidString (PrID v) = true
  /\ ValidString (ReviewID v) = true /\ ValidString (CommentID v) = true.

(* --------------------------------------------------------------------- *)
(** ** Notions for the further properties *)
(* --------------------------------------------------------------------- *)

(** The pull request carries a label named [name]; a label without a name
    counts as the empty name. *)
Definition hasLabel (labels : list (option Label)) (name : string) : Prop :=
  exists l, List.In l labels /\ GetName l = name.

(** The byte [c] occurs in [s]. *)
Fixpoint hasByte (c : ascii) (s : string) : bool :=
  match s with
  | EmptyString => false
  | String d s' => Ascii.eqb d c || hasByte c s'
  end.

(** A review whose fields read by the review track are all present. *)
Definition populatedReview (r : PullRequestReview) : Prop :=
  is_Some (Review_State r) /\ is_Some (Review_Body r) /\
  is_Some (SubmittedAt r) /\ is_Some (Review_ID r).

(** The review passes the review-state predicate and the comment-text
    predicate. *)
Definition passesReview (lib : GoLib) (source : Source) (r : PullRequestReview) : bool :=
  match Review_State r, Review_Body r with
  | Some state, Some body =>
      requestsReviewState lib source state && requestsCommentRegex lib source body
  | _, _ => false
  end.

(** The version that references review [r] of pull request [number]. *)
Definition reviewVersion (number : Z) (r : PullRequestReview) : option Version :=
  match SubmittedAt r, Review_ID r with
  | Some t, Some id =>
      Some {| Actions.CreatedAt := FormatInt (Unix t);
              PrID := Itoa number;
              ReviewID := FormatInt id;
              CommentID := "" |}
  | _, _ => None
  end.

(** The versions of the comments, and of the reviews, that pass, in the
    order of the list. *)
Definition passingComments (lib : GoLib) (source : Source) (number : Z)
    (comments : list IssueComment) : list Version :=
  flat_map (fun c => if passes lib source c then option_list (commentVersion number c)
                     else []) comments.

Definition passingReviews (lib : GoLib) (source : Source) (number : Z)
    (reviews : list PullRequestReview) : list Version :=
  flat_map (fun r => if passesReview lib source r then option_list (reviewVersion number r)
                     else []) reviews.

(** What a loop over comments or reviews appends on its way under the
    selection mode [when_]: every passing version in mode "all", the first
    one in mode "first", none in any other mode. *)
Definition selectedInLoop (when_ : string) (passing : list Version) : list Version :=
  if String.eqb when_ "all" then passing
  else if String.eqb when_ "first" then take 1 passing
  else [].

(** What the review track adds in mode "latest". *)
Definition latestReviewEmitted (lib : GoLib) (source : Source) (number : Z)
    (reviews : list PullRequestReview) : list Version :=
  match last reviews with
  | Some r => if passesReview lib source r then option_list (reviewVersion number r) else []
  | None => []
  end.

(** The pull request passes the filters at the head of the loop of
    [Check]: its state and labels are requested, it is mergeable if only
    mergeable pull requests are requested, and it is not a draft. *)
Definition eligible (source : Source) (pull : PullRequest) : Prop :=
  exists state,
    State pull = Some state /\ requestsState source state = true
    /\ requestsLabels source (Api.Labels pull) = true
    /\ (OnlyMergeable source = true -> Mergeable pull = Some true)
    /\ Draft pull = Some false.

(** Version [v] references a comment, or a review, that the remote lists
    for pull request [number] and that passes the predicates of [source]. *)
Definition references {R : Type} `{GoGithub R} (lib : GoLib) (remote : R)
    (client : GithubClient) (source : Source) (number : Z) (v : Version) : Prop :=
  (exists comments c,
      ListPullRequestComments client number remote = Ok comments
      /\ List.In c comments /\ passes lib source c = true
      /\ commentVersion number c = Some v)
  \/ (exists reviews r,
      ListPullRequestReviews client number remote = Ok reviews
      /\ List.In r reviews /\ passesReview lib source r = true
      /\ reviewVersion number r = Some v).

(** Version [v] references a passing comment or review of an eligible pull
    request of [pulls]. *)
Definition sourcedFrom {R : Type} `{GoGithub R} (lib : GoLib) (remote : R)
    (client : GithubClient) (source : Source) (pulls : list PullRequest)
    (v : Version) : Prop :=
  exists pull number,
    List.In pull pulls /\ eligible source pull /\ Number pull = Some number
    /\ references lib remote client source number v.

(** Both variables of [Check] hold versions with the property [P] only. *)
Definition varsHold (P : Version -> Prop) (vars : checkVars) : Prop :=
  Forall P (versions vars) /\ (forall v, version vars = Some v -> P v).

(** The parameters of a put with other labels to add and to remove, and
    with another comment file. *)
Definition withAddRemove (p : OutParams) (add remove : list string) : OutParams :=
  {| Path := Path p; OutParams_State := OutParams_State p; Comment := Comment p;
     OutParams_CommentFile := OutParams_CommentFile p;
     OutParams_Labels := OutParams_Labels p;
     AddLabels := add; RemoveLabels := remove;
     DeleteLastComment := DeleteLastComment p |}.

Definition withCommentFile (p : OutParams) (file : string) : OutParams :=
  {| Path := Path p; OutParams_State := OutParams_State p; Comment := Comment p;
     OutParams_CommentFile := file;
     OutParams_Labels := OutParams_Labels p;
     AddLabels := AddLabels p; RemoveLabels := RemoveLabels p;
     DeleteLastComment := DeleteLastComment p |}.

Definition withParams (req : OutRequest) (p : OutParams) : OutRequest :=
  {| OutRequest_Source := OutRequest_Source req; OutRequest_Params := p |}.

(** The names of the fields of a metadata list, [None] for a nil element. *)
Definition fieldNames (m : Metadata) : list (option string) :=
  map (option_map Name) m.

(** A metadata list with the name and the value of every field coerced to
    valid UTF-8. *)
Definition coerceField (d : MetadataField) : MetadataField :=
  {| Name := coerce (Name d); Value := coerce (Value d) |}.

Definition coerceMetadata (m : Metadata) : Metadata :=
  map (option_map coerceField) m.

(** The JSON value that the decoder reads for an element of a metadata
    list as [Marshal_Metadata] writes it. *)
Definition fieldValue (p : option MetadataField) : value :=
  match p with
  | None => JNull
  | Some d => JObject [("name", JString (coerce (Name d)));
                       ("value", JString (coerce (Value d)))]
  end.

(** What the program relies on when the files that the in step wrote are
    read again: a file that [WriteFile] has written reads back with the data
    written, a file truncated to length 0 reads back empty, [WriteString]
    appends to what the file holds, and a write to one path leaves the files
    at other paths as they are. *)
Record FileSystemSpec (F : Type) `{FileSystem F} : Prop := {
  read_written : forall (p data : string) (fs fs' : F),
    WriteFile p data fs = (None, fs') -> ReadFile p fs' = Ok data;
  read_other : forall (p q data : string) (fs fs' : F),
    WriteFile q data fs = (None, fs') -> p <> q -> ReadFile p fs' = ReadFile p fs;
  read_truncated : forall (p : string) (fs fs' : F),
    Truncate p 0 fs = (None, fs') -> ReadFile p fs' = Ok EmptyString;
  read_appended : forall (p old data : string) (fs fs' : F),
    WriteString p data fs = (None, fs') -> ReadFile p fs = Ok old ->
    ReadFile p fs' = Ok (old +:+ data)
}.

(** The path of the file [name] in the directory of the in step, and the
    name of the file that receives the text of the comment. *)
Definition inFile (lib : GoLib) (outputDir name : string) : string :=
  filepath_Join lib [filepath_Join lib [outputDir]; name].

Definition commentFileOf (req : InRequest) : string :=
  if String.eqb (CommentFile (InRequest_Params req)) "" then "comment.txt"
  else CommentFile (InRequest_Params req).

(* ===================================================================== *)
(** * A concrete library and a concrete remote, for running the model *)
(* ===================================================================== *)

Module Example.

(** ASCII lower-casing, as [strings.ToLower] does on ASCII text. *)
Definition lowerByte (c : ascii) : ascii :=
  let n := N_of_ascii c in
  if ((65 <=? n) && (n <=? 90))%N then ascii_of_N (n + 32) else c.

Fixpoint toLower (s : string) : string :=
  match s with
  | EmptyString => EmptyString
  | String c s' => String (lowerByte c) (toLower s')
  end.

(** Insertion sort. The elements are inserted from the last to the first,
    and [insert] puts [x] before the first element that is not smaller, so
    equal elements keep their order: the sort is stable. *)
Fixpoint insert {A} (less : A -> A -> bool) (x : A) (l : list A) : list A :=
  match l with
  | [] => [x]
  | y :: l' => if less y x then y :: insert less x l' else x :: y :: l'
  end.

Fixpoint insertionSort {A} (less : A -> A -> bool) (l : list A) : list A :=
  match l with
  | [] => []
  | x :: l' => insert less x (insertionSort less l')
  end.

(** The byte class [\w] of the regexp syntax. *)
Definition isWord (c : ascii) : bool :=
  let n := N_of_ascii c in
  ((48 <=? n) && (n <=? 57) || (65 <=? n) && (n <=? 90)
   || (97 <=? n) && (n <=? 122) || (n =? 95))%N.

Fixpoint allWord (s : string) : bool :=
  match s with
  | EmptyString => true
  | String c s' => isWord c && allWord s'
  end.

(** The patterns of the examples, compiled by hand: what Go's [regexp]
    answers for them. Any other pattern is outside the table. *)
Definition pingRe : Regexp :=
  {| SubexpNames := [""];
     FindStringSubmatch := fun s => if String.eqb s "ping" then ["ping"] else [] |}.

Definition pingGroupRe : Regexp :=
  {| SubexpNames := [""; ""];
     FindStringSubmatch := fun s => if String.eqb s "ping" then ["ping"; "ping"] else [] |}.

Definition pingTargetRe : Regexp :=
  {| SubexpNames := [""; "target"];
     FindStringSubmatch := fun s =>
       if String.prefix "ping " s then
         let w := String.substring 5 (String.length s - 5) s in
         if negb (String.eqb w "") && allWord w then [s; w] else []
       else [] |}.

Definition compile (p : string) : result Regexp :=
  if String.eqb p "^ping$" then Ok pingRe
  else if String.eqb p "^(ping)$" then Ok pingGroupRe
  else if String.eqb p "^ping (?P<target>\w+)$" then Ok pingTargetRe
  else if String.eqb p "(" then
    Err (External "error parsing regexp: missing closing ): `(`")
  else Err (External ("pattern outside the example table: " +:+ p)).

(** A URL parser for URLs of the shape [scheme://host/path#fragment]. *)
Fixpoint upTo (stop : ascii -> bool) (s : string) : string :=
  match s with
  | EmptyString => EmptyString
  | String c s' => if stop c then EmptyString else String c (upTo stop s')
  end.

Fixpoint from (stop : ascii -> bool) (s : string) : string :=
  match s with
  | EmptyString => EmptyString
  | String c s' => if stop c then s else from stop s'
  end.

Definition parseURL (s : string) : result URL :=
  let afterScheme :=
    match from (Ascii.eqb ":") s with
    | String _ (String _ (String _ rest)) => rest
    | _ => s
    end in
  let path := upTo (fun c => Ascii.eqb c "#" || Ascii.eqb c "?")
                   (from (Ascii.eqb "/") afterScheme) in
  Ok {| URL_String := s; URL_Path := path |}.

(** [filepath.Join] on elements that need no cleaning: the non-empty
    elements, separated by a slash. *)
Fixpoint join (elem : list string) : string :=
  match elem with
  | [] => EmptyString
  | e :: rest =>
      if String.eqb e EmptyString then join rest
      else match join rest with
           | EmptyString => e
           | r => e +:+ "/" +:+ r
           end
  end.

Definition lib : GoLib :=
  {| regexp_Compile := compile;
     strings_ToLower := toLower;
     sort_Slice := @insertionSort;
     url_Parse := parseURL;
     filepath_Join := join;
     range_map := map_to_list |}.

(** A remote repository: its pull requests, the comments and reviews of
    each pull request by number, and the user of the access token.
    Deleting a comment removes it from every list. *)
Record Remote := {
  pulls : list PullRequest;
  comments : list (Z * list IssueComment);
  reviews : list (Z * list PullRequestReview);
  tokenUser : User;
  posted : list (Z * string)
}.

Fixpoint assoc {A} (k : Z) (l : list (Z * list A)) : list A :=
  match l with
  | [] => []
  | (k', v) :: l' => if k =? k' then v else assoc k l'
  end.

Definition hasID (id : Z) (c : IssueComment) : bool :=
  match ID c with
  | Some i => i =? id
  | None => false
  end.

Definition findComment (id : Z) (r : Remote) : result IssueComment :=
  match List.find (hasID id) (concat (map snd (comments r))) with
  | Some c => Ok c
  | None => Err (External "404 Not Found")
  end.

Definition deleteComment (id : Z) (r : Remote) : option error * Remote :=
  match findComment id r with
  | Ok _ =>
      (None,
       {| pulls := pulls r;
          comments := map (fun kv => (fst kv, List.filter (fun c => negb (hasID id c)) (snd kv)))
                          (comments r);
          reviews := reviews r;
          tokenUser := tokenUser r;
          posted := posted r |})
  | _ => (Some (External "404 Not Found"), r)
  end.

Definition createComment (n : Z) (body : string) (r : Remote) : option error * Remote :=
  (None,
   {| pulls := pulls r; comments := comments r; reviews := reviews r;
      tokenUser := tokenUser r; posted := posted r ++ [(n, body)] |}).

#[global] Instance github : GoGithub Remote :=
  {| NewEnterpriseClient := fun _ => None;
     PullRequests_List := fun _ _ r => Ok (pulls r);
     PullRequests_Get := fun _ _ n r =>
       match List.find (fun p => match Number p with Some m => m =? n | None => false end)
                       (pulls r) with
       | Some p => Ok p
       | None => Err (External "404 Not Found")
       end;
     Issues_ListComments := fun _ _ n r => Ok (assoc n (comments r));
     Issues_GetComment := fun _ _ id r => findComment id r;
     PullRequests_ListReviews := fun _ _ n r => Ok (assoc n (reviews r));
     Users_Get := fun _ r => Ok (tokenUser r);
     Issues_Edit := fun _ _ _ _ r => (None, r);
     Issues_DeleteComment := fun _ _ id r => deleteComment id r;
     Issues_AddLabelsToIssue := fun _ _ _ _ r => (None, r);
     Issues_RemoveLabelForIssue := fun _ _ _ _ r => (None, r);
     Issues_ReplaceLabelsForIssue := fun _ _ _ _ r => (None, r);
     Issues_CreateComment := fun _ _ n body r => createComment n body r |}.

(** Example data: the source of the README ("ping"), an open pull request
    number 7, and comments on it. *)
Definition source : Source :=
  {| SkipSSLVerification := false; GithubEndpoint := "";
     Actions.Repository := "nderjung/limp"; DisableGitLfs := false;
     AccessToken := "token"; Username := ""; Password := "";
     OnlyMergeable := false; States := []; Actions.Labels := [];
     Comments := ["^ping$"]; CommenterAssociation := [];
     MapCommentMeta := false; ReviewStates := []; When := "latest";
     IgnoreStates := []; IgnoreLabels := []; IgnoreComments := [];
     IgnoreDrafts := false |}.

Definition robot : User :=
  {| Login := Some "robot"; User_ID := Some 99;
     AvatarURL := Some "https://example.com/robot.png";
     User_HTMLURL := Some "https://example.com/robot" |}.

Definition alice : User :=
  {| Login := Some "alice"; User_ID := Some 5;
     AvatarURL := Some "https://example.com/alice.png";
     User_HTMLURL := Some "https://example.com/alice" |}.

Definition at_ (seconds : Z) : Time :=
  {| Unix := seconds; Time_String := "t=" +:+ FormatInt seconds |}.

Definition comment (id : Z) (author : User) (body : string) (seconds : Z) : IssueComment :=
  {| ID := Some id; Body := Some body; User_ := Some author;
     Api.CreatedAt := Some (at_ seconds); UpdatedAt := Some (at_ seconds);
     AuthorAssociation := Some "MEMBER";
     HTMLURL := Some ("https://example.com/nderjung/limp/issues/7#issuecomment-"
                      +:+ FormatInt id) |}.

Definition pull7 : PullRequest :=
  {| Number := Some 7; State := Some "open"; Api.Labels := [];
     Mergeable := None; Draft := Some false |}.

Definition ping1 : IssueComment := comment 101 alice "ping" 1600000000.
Definition chat2 : IssueComment := comment 102 alice "thanks" 1600000100.
Definition ping3 : IssueComment := comment 103 alice "ping" 1600000200.

Definition noVars : checkVars := {| versions := []; version := None |}.

(** A second pull-request history: two matching comments, the first one
    created before 2001-09-09 (a nine-digit Unix time). *)
Definition old1 : IssueComment := comment 201 alice "ping" 999999999.
Definition new2 : IssueComment := comment 202 alice "ping" 1000000000.

Definition sourceAll : Source :=
  {| SkipSSLVerification := false; GithubEndpoint := "";
     Actions.Repository := "nderjung/limp"; DisableGitLfs := false;
     AccessToken := "token"; Username := ""; Password := "";
     OnlyMergeable := false; States := []; Actions.Labels := [];
     Comments := ["^ping$"]; CommenterAssociation := [];
     MapCommentMeta := false; ReviewStates := []; When := "all";
     IgnoreStates := []; IgnoreLabels := []; IgnoreComments := [];
     IgnoreDrafts := false |}.

Definition noVersion : Version :=
  {| Actions.CreatedAt := ""; PrID := ""; ReviewID := ""; CommentID := "" |}.

Definition request (src : Source) : CheckRequest :=
  {| CheckRequest_Source := src; CheckRequest_Version := noVersion |}.

Definition remote (cs : list IssueComment) : Remote :=
  {| pulls := [pull7]; comments := [(7, cs)]; reviews := [];
     tokenUser := robot; posted := [] |}.

(** A sort that meets the documentation of [sort.Slice] and is not stable:
    [insertBack] puts [x] behind the elements that are not greater, so an
    element moves behind the equal elements that followed it. *)
Fixpoint insertBack {A} (less : A -> A -> bool) (x : A) (l : list A) : list A :=
  match l with
  | [] => [x]
  | y :: l' => if less x y then x :: y :: l' else y :: insertBack less x l'
  end.

Fixpoint backSort {A} (less : A -> A -> bool) (l : list A) : list A :=
  match l with
  | [] => []
  | x :: l' => insertBack less x (backSort less l')
  end.

Definition libBack : GoLib :=
  {| regexp_Compile := compile;
     strings_ToLower := toLower;
     sort_Slice := @backSort;
     url_Parse := parseURL;
     filepath_Join := join;
     range_map := map_to_list |}.

(** Two matching comments created in the same second. *)
Definition same1 : IssueComment := comment 301 alice "ping" 1600000000.
Definition same2 : IssueComment := comment 302 alice "ping" 1600000000.

(** Sources whose [comments] hold the malformed pattern "(". *)
Definition withComments (src : Source) (patterns : list string) : Source :=
  {| SkipSSLVerification := SkipSSLVerification src;
     GithubEndpoint := GithubEndpoint src;
     Actions.Repository := Actions.Repository src;
     DisableGitLfs := DisableGitLfs src;
     AccessToken := AccessToken src; Username := Username src;
     Password := Password src; OnlyMergeable := OnlyMergeable src;
     States := States src; Actions.Labels := Actions.Labels src;
     Comments := patterns;
     CommenterAssociation := CommenterAssociation src;
     MapCommentMeta := MapCommentMeta src; ReviewStates := ReviewStates src;
     When := When src; IgnoreStates := IgnoreStates src;
     IgnoreLabels := IgnoreLabels src; IgnoreComments := IgnoreComments src;
     IgnoreDrafts := IgnoreDrafts src |}.

(** Comments of the token's user, one of them with the id 0. *)
Definition pong1 : IssueComment := comment 401 robot "pong" 1600000300.
Definition pong2 : IssueComment := comment 402 robot "pong" 1600000400.
Definition pong0 : IssueComment := comment 0 robot "pong" 1600000500.

Definition client : GithubClient := {| Owner := "nderjung"; Api.Repository := "limp" |}.

(** A file system: the directories made and the content of each file. A
    path that names a directory cannot be written as a file. *)
Record Files := {
  dirs : list string;
  files : gmap string string
}.

Definition isDir (p : string) (fs : Files) : bool :=
  existsb (String.eqb p) (dirs fs).

Definition put (p data : string) (fs : Files) : option error * Files :=
  if isDir p fs
  then (Some (External ("open " +:+ p +:+ ": is a directory")), fs)
  else (None, {| dirs := dirs fs; files := <[p := data]> (files fs) |}).

#[global] Instance filesystem : FileSystem Files :=
  {| MkdirAll := fun p fs =>
       match files fs !! p with
       | Some _ => (Some (External ("mkdir " +:+ p +:+ ": not a directory")), fs)
       | None => (None, {| dirs := p :: dirs fs; files := files fs |})
       end;
     Create := fun p fs => put p EmptyString fs;
     Truncate := fun p _ fs => put p EmptyString fs;
     WriteString := fun p data fs => put p (default EmptyString (files fs !! p) +:+ data) fs;
     WriteFile := fun p data fs => put p data fs;
     ReadFile := fun p fs =>
       match files fs !! p with
       | Some data => Ok data
       | None => Err (External ("open " +:+ p +:+ ": no such file or directory"))
       end |}.

Definition emptyFiles : Files := {| dirs := []; files := ∅ |}.

(** Requests of the in step and of the out step. *)
Definition inRequest (src : Source) (v : Version) : InRequest :=
  {| InRequest_Source := src; InRequest_Version := v;
     InRequest_Params := {| CommentFile := EmptyString |} |}.

Definition version101 : Version :=
  {| Actions.CreatedAt := "1600000000"; PrID := "7"; ReviewID := "";
     CommentID := "101" |}.

Definition review55 : Version :=
  {| Actions.CreatedAt := "1600000000"; PrID := "7"; ReviewID := "55";
     CommentID := "" |}.

Definition outRequest (comment : string) : OutRequest :=
  {| OutRequest_Source := source;
     OutRequest_Params :=
       {| Path := "pr"; OutParams_State := EmptyString; Comment := comment;
          OutParams_CommentFile := EmptyString; OutParams_Labels := [];
          AddLabels := []; RemoveLabels := []; DeleteLastComment := false |} |}.

(** Two environments that differ outside the allow-list only. *)
Definition env1 : gmap string string :=
  <["BUILD_ID" := "42"]> (<["SECRET" := "hunter2"]> ∅).

Definition env2 : gmap string string :=
  <["BUILD_ID" := "42"]> (<["SECRET" := "swordfish"]> (<["HOME" := "/root"]> ∅)).

(** The source of the README with [map_comment_meta] set. *)
Definition sourceMeta : Source :=
  {| SkipSSLVerification := false; GithubEndpoint := "";
     Actions.Repository := "nderjung/limp"; DisableGitLfs := false;
     AccessToken := "token"; Username := ""; Password := "";
     OnlyMergeable := false; States := []; Actions.Labels := [];
     Comments := ["^ping$"]; CommenterAssociation := [];
     MapCommentMeta := true; ReviewStates := []; When := "latest";
     IgnoreStates := []; IgnoreLabels := []; IgnoreComments := [];
     IgnoreDrafts := false |}.

(** A version whose comment identifier is the single byte 0xFF, which is
    not valid UTF-8. *)
Definition versionFF : Version :=
  {| Actions.CreatedAt := "1600000000"; PrID := "7"; ReviewID := "";
     CommentID := String (byteOf 255) EmptyString |}.

End Example.

(** More example data: reviews, sources by selection mode, requests of the
    out step, the files left by an in step, and a remote that holds the
    labels of one pull request. *)
Module Sample.

Definition review (id : Z) (state body : string) (seconds : Z) : PullRequestReview :=
  {| Review_ID := Some id; Review_Body := Some body; Review_State := Some state;
     SubmittedAt := Some (Example.at_ seconds) |}.

Definition approve1 : PullRequestReview := review 55 "APPROVED" "ping" 1600000050.
Definition remark2 : PullRequestReview := review 56 "COMMENTED" "ping" 1600000150.
Definition approve3 : PullRequestReview := review 57 "APPROVED" "ping" 1600000250.

(** The source of the README with a selection mode and review states. *)
Definition sourceWith (when_ : string) (reviewStates : list string) : Source :=
  {| SkipSSLVerification := false; GithubEndpoint := "";
     Actions.Repository := "nderjung/limp"; DisableGitLfs := false;
     AccessToken := "token"; Username := ""; Password := "";
     OnlyMergeable := false; States := []; Actions.Labels := [];
     Comments := ["^ping$"]; CommenterAssociation := [];
     MapCommentMeta := false; ReviewStates := reviewStates; When := when_;
     IgnoreStates := []; IgnoreLabels := []; IgnoreComments := [];
     IgnoreDrafts := false |}.

Definition sourceMergeable : Source :=
  {| SkipSSLVerification := false; GithubEndpoint := "";
     Actions.Repository := "nderjung/limp"; DisableGitLfs := false;
     AccessToken := "token"; Username := ""; Password := "";
     OnlyMergeable := true; States := []; Actions.Labels := [];
     Comments := ["^ping$"]; CommenterAssociation := [];
     MapCommentMeta := false; ReviewStates := []; When := "latest";
     IgnoreStates := []; IgnoreLabels := []; IgnoreComments := [];
     IgnoreDrafts := false |}.

Definition remoteWith (cs : list IssueComment) (rs : list PullRequestReview)
    : Example.Remote :=
  {| Example.pulls := [Example.pull7]; Example.comments := [(7, cs)];
     Example.reviews := [(7, rs)]; Example.tokenUser := Example.robot;
     Example.posted := [] |}.

(** Requests of the out step on the directory "pr". *)
Definition outParams (state comment file : string) (labels add remove : list string)
    : OutParams :=
  {| Path := "pr"; OutParams_State := state; Comment := comment;
     OutParams_CommentFile := file; OutParams_Labels := labels;
     AddLabels := add; RemoveLabels := remove; DeleteLastComment := false |}.

Definition outRequest (p : OutParams) : OutRequest :=
  {| OutRequest_Source := Example.source; OutRequest_Params := p |}.

(** The files that the in step leaves for the comment 101. *)
Definition stored : Example.Files :=
  snd (Actions.In CommentID Example.lib (Example.remote [Example.ping1]) "pr"
         (Example.inRequest Example.source Example.version101) Example.emptyFiles).

(** The answer of that in step. *)
Definition response : InResponse :=
  {| InResponse_Version := Example.version101;
     InResponse_Metadata :=
       [Some {| Name := "pr_id"; Value := "7" |};
        Some {| Name := "comment_id"; Value := "101" |};
        Some {| Name := "body"; Value := "ping" |};
        Some {| Name := "created_at"; Value := "t=1600000000" |};
        Some {| Name := "updated_at"; Value := "t=1600000000" |};
        Some {| Name := "author_association"; Value := "MEMBER" |};
        Some {| Name := "html_url";
                Value := "https://example.com/nderjung/limp/issues/7#issuecomment-101" |};
        Some {| Name := "user_login"; Value := "alice" |};
        Some {| Name := "user_id"; Value := "5" |};
        Some {| Name := "user_avatar_url"; Value := "https://example.com/alice.png" |};
        Some {| Name := "user_html_url"; Value := "https://example.com/alice" |}] |}.

(** The answer of the out step that follows it. *)
Definition answer : OutResponse :=
  {| OutResponse_Version := InResponse_Version response;
     OutResponse_Metadata := InResponse_Metadata response |}.

(** A remote that holds the labels of one pull request. The removal of a
    label that the pull request does not carry is an error, as it is on
    GitHub. *)
Record Labelled := { carried : list string }.

Definition removeLabel (l : string) (r : Labelled) : option error * Labelled :=
  if existsb (String.eqb l) (carried r)
  then (None, {| carried := List.filter (fun x => negb (String.eqb l x)) (carried r) |})
  else (Some (External "404 Label does not exist"), r).

#[global] Instance labelled : GoGithub Labelled :=
  {| NewEnterpriseClient := fun _ => None;
     PullRequests_List := fun _ _ _ => Ok [];
     PullRequests_Get := fun _ _ _ _ => Err (External "404 Not Found");
     Issues_ListComments := fun _ _ _ _ => Ok [];
     Issues_GetComment := fun _ _ _ _ => Err (External "404 Not Found");
     PullRequests_ListReviews := fun _ _ _ _ => Ok [];
     Users_Get := fun _ _ => Ok Example.robot;
     Issues_Edit := fun _ _ _ _ r => (None, r);
     Issues_DeleteComment := fun _ _ _ r => (None, r);
     Issues_AddLabelsToIssue := fun _ _ _ ls r => (None, {| carried := carried r ++ ls |});
     Issues_RemoveLabelForIssue := fun _ _ _ l r => removeLabel l r;
     Issues_ReplaceLabelsForIssue := fun _ _ _ ls _ => (None, {| carried := ls |});
     Issues_CreateComment := fun _ _ _ _ r => (None, r) |}.

End Sample.

(* ===================================================================== *)
(** * Properties *)
(* ===================================================================== *)

Lemma rangeAssignBreak_spec l x v ret :
  rangeAssignBreak l x v ret = if in_dec string_dec x l then v else ret.
Proof.
  induction l as [|s l IH]; simpl; [reflexivity|].
  destruct (String.eqb_spec s x) as [->|Hne].
  - destruct (string_dec x x); [reflexivity | congruence].
  - rewrite IH. destruct (string_dec s x); [congruence|].
    destruct (in_dec string_dec x l); reflexivity.
Qed.

(** C8. The state predicate accepts a state exactly when it is allowed
    (equal to "open" if [states] is empty, a member of [states] otherwise)
    and is not listed in [ignore_states]; the deny-list always wins. *)
Theorem requestsState_allow_minus_deny (source : Source) (state : string) :
  requestsState source state = true <->
  ((States source = [] /\ state = "open") \/
   (States source <> [] /\ List.In state (States source)))
  /\ ~ List.In state (IgnoreStates source).
Proof.
  unfold requestsState. rewrite !rangeAssignBreak_spec.
  destruct (in_dec string_dec state (IgnoreStates source)) as [Hi|Hi].
  { split; [discriminate | tauto]. }
  destruct (States source) as [|s0 l] eqn:Hs.
  - simpl. destruct (String.eqb_spec state "open") as [->|Hne].
    + tauto.
    + split; [discriminate|]. intros [[[_ ?]|[? _]] _]; congruence.
  - cbn [length Nat.eqb].
    destruct (in_dec string_dec state (s0 :: l)) as [Hin|Hin].
    + split; [|reflexivity]. intros _. split; [|exact Hi]. right. split; [discriminate | exact Hin].
    + split; [discriminate|]. intros [[[? _]|[_ ?]] _]; [discriminate | tauto].
Qed.

Section LatestMode.
Variable lib : GoLib.
Variable source : Source.
Variable pull : PullRequest.
Variable number : Z.
Hypothesis Hwhen : When source = "latest".
Hypothesis Hnumber : Number pull = Some number.

Lemma latest_not_all_or_first : whenAllOrFirst source = false.
Proof. unfold whenAllOrFirst. rewrite Hwhen. reflexivity. Qed.

(** In mode "latest" the loop appends nothing; its flag tells whether the
    last comment passed, and then [version] references that comment. *)
Lemma commentsLoop_latest (comments : list IssueComment) :
  Forall populated comments ->
  forall vars b, exists vars',
    commentsLoop lib source pull comments vars b
      = Ok (vars', match last comments with
                   | Some c => passes lib source c
                   | None => b
                   end)
    /\ versions vars' = versions vars
    /\ (forall c, last comments = Some c -> passes lib source c = true ->
         version vars' = commentVersion number c).
Proof.
  induction 1 as [|c rest Hc Hrest IH]; intros vars b.
  - exists vars. repeat split. intros c Hl. discriminate.
  - destruct Hc as ([assoc Ha] & [body Hb] & [t Ht] & [id Hid]).
    cbn [commentsLoop]. rewrite Ha, Hb. cbn [deref Go.bind].
    assert (Hp : passes lib source c =
                 requestsCommenterAssociation lib source assoc
                 && requestsCommentRegex lib source body).
    { unfold passes. rewrite Ha, Hb. reflexivity. }
    assert (Hv : commentVersion number c =
                 Some {| Actions.CreatedAt := FormatInt (Unix t);
                         PrID := Itoa number; ReviewID := "";
                         CommentID := FormatInt id |}).
    { unfold commentVersion. rewrite Ht, Hid. reflexivity. }
    rewrite last_cons.
    destruct (requestsCommenterAssociation lib source assoc) eqn:Ea; cbn [negb].
    2:{ destruct (IH vars false) as (vars' & E & Hvs & Hver).
        exists vars'. rewrite E. split; [|split; [exact Hvs|]].
        - destruct (last rest); [reflexivity|]. rewrite Hp. reflexivity.
        - intros c'. destruct (last rest) eqn:El.
          + apply Hver.
          + intros [= <-]. rewrite Hp. discriminate. }
    destruct (requestsCommentRegex lib source body) eqn:Eb; cbn [negb].
    2:{ destruct (IH vars false) as (vars' & E & Hvs & Hver).
        exists vars'. rewrite E. split; [|split; [exact Hvs|]].
        - destruct (last rest); [reflexivity|]. rewrite Hp. reflexivity.
        - intros c'. destruct (last rest) eqn:El.
          + apply Hver.
          + intros [= <-]. rewrite Hp. discriminate. }
    rewrite Ht, Hnumber, Hid. cbn [deref Go.bind].
    rewrite latest_not_all_or_first, Hwhen. cbn [String.eqb Ascii.eqb Bool.eqb].
    match goal with |- context [commentsLoop _ _ _ rest ?v true] =>
      destruct (IH v true) as (vars' & E & Hvs & Hver) end.
    exists vars'. rewrite E. split; [|split; [exact Hvs|]].
    + destruct (last rest); [reflexivity|]. rewrite Hp. reflexivity.
    + intros c'. destruct (last rest) eqn:El.
      * apply Hver.
      * intros [= <-] _. rewrite Hv.
        destruct rest as [|c2 rest2].
        -- cbn in E. injection E as <-. reflexivity.
        -- rewrite last_cons in El. destruct (last rest2); discriminate.
Qed.

(** C1. In selection mode "latest" the comment track of a pull request
    adds a version if and only if the last comment of the list passes both
    the commenter-association predicate and the comment-text predicate, and
    the version added references that comment. In particular, for
    [c1 (match); c2 (no match)] nothing is added, and for
    [c1 (no match); c2 (match)] exactly the version of [c2] is added. *)
Theorem commentTrack_latest (comments : list IssueComment) (vars : checkVars) :
  Forall populated comments ->
  (exists vars',
      commentTrack lib source pull comments vars = Ok vars'
      /\ versions vars' = versions vars ++ latestEmitted lib source number comments)
  /\ (latestEmitted lib source number comments <> [] <->
      exists c, last comments = Some c /\ passes lib source c = true)
  /\ (forall c, last comments = Some c -> passes lib source c = true ->
      exists v, commentVersion number c = Some v
                /\ latestEmitted lib source number comments = [v])
  /\ (forall c1 c2, comments = [c1; c2] ->
      passes lib source c1 = true -> passes lib source c2 = false ->
      latestEmitted lib source number comments = [])
  /\ (forall c1 c2, comments = [c1; c2] ->
      passes lib source c1 = false -> passes lib source c2 = true ->
      exists v, commentVersion number c2 = Some v
                /\ latestEmitted lib source number comments = [v]).
Proof.
  intros Hpop.
  assert (Hlast : forall c, last comments = Some c -> passes lib source c = true ->
            exists v, commentVersion number c = Some v
                      /\ latestEmitted lib source number comments = [v]).
  { intros c Hl Hp. unfold latestEmitted. rewrite Hl, Hp.
    apply last_Some_elem_of in Hl.
    rewrite Forall_forall in Hpop. destruct (Hpop c Hl) as (_ & _ & [t Ht] & [id Hid]).
    unfold commentVersion. rewrite Ht, Hid. eexists. split; reflexivity. }
  split; [|split; [|split; [exact Hlast|split]]].
  - destruct (commentsLoop_latest comments Hpop vars false) as (vars' & E & Hvs & Hver).
    unfold commentTrack. rewrite E. cbn [Go.bind fst snd]. unfold saveLatest.
    rewrite Hwhen. cbn [String.eqb Ascii.eqb Bool.eqb andb].
    unfold latestEmitted. destruct (last comments) as [c|] eqn:El.
    + destruct (passes lib source c) eqn:Ep.
      * rewrite (Hver c eq_refl Ep).
        destruct (Hlast c eq_refl Ep) as (v & Hv & _). rewrite Hv.
        cbn [deref Go.bind option_list]. eexists. split; [reflexivity|].
        cbn [versions]. rewrite Hvs. reflexivity.
      * exists vars'. split; [reflexivity|]. rewrite app_nil_r. exact Hvs.
    + exists vars'. split; [reflexivity|]. rewrite app_nil_r. exact Hvs.
  - split.
    + unfold latestEmitted. destruct (last comments) as [c|]; [|congruence].
      destruct (passes lib source c) eqn:Ep; [|congruence]. intros _. exists c. tauto.
    + intros (c & Hl & Hp). destruct (Hlast c Hl Hp) as (v & _ & ->). discriminate.
  - intros c1 c2 -> _ Hp2. unfold latestEmitted. cbn [last]. rewrite Hp2. reflexivity.
  - intros c1 c2 -> _ Hp2. apply Hlast; [reflexivity | exact Hp2].
Qed.

End LatestMode.

Lemma commentTrack_latest_witness :
  (exists vars',
      commentTrack Example.lib Example.source Example.pull7
        [Example.chat2; Example.ping3] Example.noVars = Ok vars'
      /\ versions vars' =
         [] ++ latestEmitted Example.lib Example.source 7 [Example.chat2; Example.ping3])
  /\ latestEmitted Example.lib Example.source 7 [Example.chat2; Example.ping3]
     = [{| Actions.CreatedAt := "1600000200"; PrID := "7"; ReviewID := "";
           CommentID := "103" |}]
  /\ latestEmitted Example.lib Example.source 7 [Example.ping1; Example.chat2] = [].
Proof.
  split; [|split; reflexivity].
  apply (commentTrack_latest Example.lib Example.source Example.pull7 7
           eq_refl eq_refl [Example.chat2; Example.ping3] Example.noVars).
  repeat constructor; unfold is_Some; eexists; reflexivity.
Defined.

(* --------------------------------------------------------------------- *)
(** ** Versions emitted by check *)
(* --------------------------------------------------------------------- *)

Lemma FormatInt_nonempty (n : Z) : FormatInt n <> "".
Proof.
  unfold FormatInt. destruct n as [|p|p]; cbn; try discriminate.
  - pose proof (Unsigned.to_uint_nonnil p) as Hp.
    destruct (Pos.to_uint p); [congruence | discriminate ..].
Qed.

Ltac go_step :=
  match goal with
  | H : Go.bind ?r _ = Ok _ |- _ =>
      let E := fresh "E" in destruct r eqn:E; cbn [Go.bind] in H; [|discriminate ..]
  | H : Ok _ = Ok _ |- _ => injection H as H; try subst
  | H : (if ?b then _ else _) = Ok _ |- _ =>
      let E := fresh "E" in destruct b eqn:E
  end.

Section ValidVersions.
Variable lib : GoLib.
Variable source : Source.

Lemma validVars_push vars v :
  validVars vars -> validVersion v ->
  validVars {| versions := if whenAllOrFirst source then versions vars ++ [v]
                           else versions vars;
               version := Some v |}.
Proof.
  intros [Hvs Hv] Hval. split; cbn.
  - destruct (whenAllOrFirst source); [|exact Hvs].
    apply Forall_app. split; [exact Hvs|]. constructor; [exact Hval | constructor].
  - intros v' [= <-]. exact Hval.
Qed.

Lemma commentsLoop_valid pull comments :
  forall vars b vars' b',
    commentsLoop lib source pull comments vars b = Ok (vars', b') ->
    validVars vars -> validVars vars'.
Proof.
  induction comments as [|c rest IH]; intros vars b vars' b' E Hv.
  - cbn in E. injection E as <- <-. exact Hv.
  - cbn [commentsLoop] in E. repeat go_step; eauto.
    + apply validVars_push; [exact Hv|].
      split; cbn; [apply FormatInt_nonempty|]. left. split; [apply FormatInt_nonempty | reflexivity].
    + eapply IH; [exact E|]. apply validVars_push; [exact Hv|].
      split; cbn; [apply FormatInt_nonempty|]. left. split; [apply FormatInt_nonempty | reflexivity].
Qed.

Lemma reviewsLoop_valid pull reviews :
  forall vars b vars' b',
    reviewsLoop lib source pull reviews vars b = Ok (vars', b') ->
    validVars vars -> validVars vars'.
Proof.
  induction reviews as [|c rest IH]; intros vars b vars' b' E Hv.
  - cbn in E. injection E as <- <-. exact Hv.
  - cbn [reviewsLoop] in E. repeat go_step; eauto.
    + apply validVars_push; [exact Hv|].
      split; cbn; [apply FormatInt_nonempty|]. right. split; [reflexivity | apply FormatInt_nonempty].
    + eapply IH; [exact E|]. apply validVars_push; [exact Hv|].
      split; cbn; [apply FormatInt_nonempty|]. right. split; [reflexivity | apply FormatInt_nonempty].
Qed.

Lemma saveLatest_valid vars b vars' :
  saveLatest source vars b = Ok vars' -> validVars vars -> validVars vars'.
Proof.
  unfold saveLatest. intros E [Hvs Hv]. repeat go_step; [|split; assumption].
  split; cbn; [|exact Hv]. apply Forall_app. split; [exact Hvs|].
  constructor; [|constructor]. apply Hv.
  match goal with
  | Hd : deref (version vars) = Ok _ |- _ =>
      destruct (version vars); [cbn in Hd; congruence | discriminate]
  end.
Qed.

Lemma commentTrack_valid pull comments vars vars' :
  commentTrack lib source pull comments vars = Ok vars' ->
  validVars vars -> validVars vars'.
Proof.
  unfold commentTrack. intros E Hv. go_step. destruct a as [vars1 b1].
  eapply saveLatest_valid; [exact E|]. eapply commentsLoop_valid; eassumption.
Qed.

Lemma reviewTrack_valid pull reviews vars vars' :
  reviewTrack lib source pull reviews vars = Ok vars' ->
  validVars vars -> validVars vars'.
Proof.
  unfold reviewTrack. intros E Hv. go_step. destruct a as [vars1 b1].
  eapply saveLatest_valid; [exact E|]. eapply reviewsLoop_valid; eassumption.
Qed.

Context {R : Type} `{GoGithub R}.
Variable remote : R.

Lemma pullsLoop_valid client pulls :
  forall vars vars',
    pullsLoop lib remote client source pulls vars = Ok vars' ->
    validVars vars -> validVars vars'.
Proof.
  induction pulls as [|pull rest IH]; intros vars vars' E Hv.
  - cbn in E. injection E as <-. exact Hv.
  - cbn [pullsLoop] in E.
    assert (Hv0 : validVars {| versions := versions vars; version := None |}).
    { split; [apply Hv | discriminate]. }
    repeat go_step.
    + eapply IH; eassumption.
    + eapply IH; [exact E|]. eapply reviewTrack_valid; [eassumption|].
      eapply commentTrack_valid; eassumption.
Qed.

End ValidVersions.

(** C2. Every version that check appends to its result list, for any
    request, remote and selection mode, has its PR identifier set and
    exactly one of the comment identifier and the review identifier set;
    the same holds for the list that [Check] returns after sorting. *)
Theorem check_versions_valid {R : Type} `{GoGithub R}
    (lib : GoLib) (remote : R) (req : CheckRequest) :
  (forall vs, collect lib remote req = Ok vs -> Forall validVersion vs)
  /\ (GoLibSpec lib ->
      forall vs, Check lib remote req = Ok vs -> Forall validVersion vs).
Proof.
  assert (Hc : forall vs, collect lib remote req = Ok vs -> Forall validVersion vs).
  { intros vs E. unfold collect in E. repeat go_step.
    match goal with
    | Hl : pullsLoop _ _ _ _ _ _ = Ok _ |- _ =>
        eapply pullsLoop_valid in Hl; [apply Hl|]
    end.
    split; [constructor | discriminate]. }
  split; [exact Hc|].
  intros Hlib vs E. unfold Check in E. repeat go_step.
  specialize (Hc _ eq_refl). rewrite Forall_forall in *.
  intros v Hin. apply Hc. apply list_elem_of_In. apply list_elem_of_In in Hin.
  eapply Permutation_in; [|exact Hin]. symmetry. apply (sort_perm _ Hlib).
Qed.

(* --------------------------------------------------------------------- *)
(** ** The order of the versions *)
(* --------------------------------------------------------------------- *)

Section StringOrder.

Lemma ascii_compare_refl (c : ascii) : Ascii.compare c c = Eq.
Proof. unfold Ascii.compare. apply N.compare_refl. Qed.

Lemma string_compare_refl (s : string) : String.compare s s = Eq.
Proof.
  induction s as [|c s IH]; [reflexivity|]. cbn. rewrite ascii_compare_refl. exact IH.
Qed.

Lemma string_compare_lt_trans (s1 s2 s3 : string) :
  String.compare s1 s2 = Lt -> String.compare s2 s3 = Lt -> String.compare s1 s3 = Lt.
Proof.
  revert s2 s3. induction s1 as [|c1 s1 IH]; intros [|c2 s2] [|c3 s3]; cbn;
    try congruence.
  unfold Ascii.compare.
  destruct (N.compare_spec (N_of_ascii c1) (N_of_ascii c2)) as [E12|L12|G12];
    destruct (N.compare_spec (N_of_ascii c2) (N_of_ascii c3)) as [E23|L23|G23];
    try congruence; intros H12 H23.
  - rewrite E12, E23, N.compare_refl. eapply IH; eassumption.
  - rewrite E12. apply N.compare_lt_iff in L23. rewrite L23. reflexivity.
  - rewrite <- E23. apply N.compare_lt_iff in L12. rewrite L12. reflexivity.
  - assert (L13 : (N_of_ascii c1 < N_of_ascii c3)%N) by lia.
    apply N.compare_lt_iff in L13. rewrite L13. reflexivity.
Qed.

Lemma ltb_irrefl (s : string) : String.ltb s s = false.
Proof. unfold String.ltb. rewrite string_compare_refl. reflexivity. Qed.

Lemma ltb_trans (x y z : string) :
  String.ltb x y = true -> String.ltb y z = true -> String.ltb x z = true.
Proof.
  unfold String.ltb. intros Hxy Hyz.
  destruct (String.compare x y) eqn:Exy; try discriminate.
  destruct (String.compare y z) eqn:Eyz; try discriminate.
  rewrite (string_compare_lt_trans x y z Exy Eyz). reflexivity.
Qed.

Lemma ltb_negatively_transitive (x y z : string) :
  String.ltb x y = false -> String.ltb y z = false -> String.ltb x z = false.
Proof.
  intros Hxy Hyz. destruct (String.ltb x z) eqn:Hxz; [|reflexivity].
  unfold String.ltb in *.
  destruct (String.compare x y) eqn:Exy; try discriminate.
  - apply String.compare_eq_iff in Exy. subst y. rewrite Hxz in Hyz. discriminate.
  - rewrite String.compare_antisym in Exy.
    destruct (String.compare y x) eqn:Eyx; try discriminate.
    destruct (String.compare x z) eqn:Exz; try discriminate.
    rewrite (string_compare_lt_trans y x z Eyx Exz) in Hyz. discriminate.
Qed.

Lemma ltb_false_leb (x y : string) : String.ltb y x = false <-> String.leb x y = true.
Proof.
  unfold String.ltb, String.leb. rewrite (String.compare_antisym x y).
  destruct (String.compare y x); cbn; split; congruence.
Qed.

End StringOrder.

Section BackSort.
Context {A : Type} (less : A -> A -> bool).

Lemma insertBack_perm x l : Permutation (x :: l) (Example.insertBack less x l).
Proof.
  induction l as [|y l IH]; cbn; [reflexivity|].
  destruct (less x y); [reflexivity|].
  rewrite perm_swap. apply perm_skip. exact IH.
Qed.

Lemma backSort_perm l : Permutation l (Example.backSort less l).
Proof.
  induction l as [|x l IH]; cbn; [constructor|].
  rewrite <- insertBack_perm. apply perm_skip. exact IH.
Qed.

Hypothesis less_trans : forall x y z, less x y = true -> less y z = true -> less x z = true.
Hypothesis less_irrefl : forall x, less x x = false.
Hypothesis less_negtrans :
  forall x y z, less x y = false -> less y z = false -> less x z = false.

Lemma less_asym x y : less x y = true -> less y x = false.
Proof.
  intros Hxy. destruct (less y x) eqn:Hyx; [|reflexivity].
  rewrite <- (less_irrefl x). symmetry. eapply less_trans; eassumption.
Qed.

Lemma insertBack_sorted x l :
  StronglySorted (fun a b => less b a = false) l ->
  StronglySorted (fun a b => less b a = false) (Example.insertBack less x l).
Proof.
  induction 1 as [|y l Hs IH Hy]; cbn; [repeat constructor|].
  destruct (less x y) eqn:Hxy.
  - constructor; [constructor; assumption|].
    constructor; [apply less_asym; exact Hxy|].
    rewrite List.Forall_forall in *. intros z Hz.
    eapply less_negtrans; [apply Hy; exact Hz | apply less_asym; exact Hxy].
  - constructor; [exact IH|].
    rewrite List.Forall_forall in *. intros z Hz.
    apply (Permutation_in _ (Permutation_sym (insertBack_perm x l))) in Hz.
    destruct Hz as [<-|Hz]; [exact Hxy | apply Hy; exact Hz].
Qed.

Lemma backSort_sorted l :
  StronglySorted (fun a b => less b a = false) (Example.backSort less l).
Proof.
  induction l as [|x l IH]; cbn; [constructor | apply insertBack_sorted; exact IH].
Qed.

End BackSort.

Section InsertionSort.
Context {A : Type} (less : A -> A -> bool).

Lemma insert_perm x l : Permutation (x :: l) (Example.insert less x l).
Proof.
  induction l as [|y l IH]; cbn; [reflexivity|].
  destruct (less y x); [|reflexivity].
  rewrite perm_swap. apply perm_skip. exact IH.
Qed.

Lemma insertionSort_perm l : Permutation l (Example.insertionSort less l).
Proof.
  induction l as [|x l IH]; cbn; [constructor|].
  rewrite <- insert_perm. apply perm_skip. exact IH.
Qed.

Hypothesis less_negtrans :
  forall x y z, less x y = false -> less y z = false -> less x z = false.
Hypothesis less_asym : forall x y, less x y = true -> less y x = false.

Lemma insert_sorted x l :
  StronglySorted (fun a b => less b a = false) l ->
  StronglySorted (fun a b => less b a = false) (Example.insert less x l).
Proof.
  induction 1 as [|y l Hs IH Hy]; cbn; [repeat constructor|].
  destruct (less y x) eqn:Hyx.
  - constructor; [exact IH|].
    rewrite List.Forall_forall in *. intros z Hz.
    apply (Permutation_in _ (Permutation_sym (insert_perm x l))) in Hz.
    destruct Hz as [<-|Hz]; [apply less_asym; exact Hyx | apply Hy; exact Hz].
  - constructor; [constructor; assumption|].
    constructor; [exact Hyx|].
    rewrite List.Forall_forall in *. intros z Hz.
    eapply less_negtrans; [apply Hy; exact Hz | exact Hyx].
Qed.

Lemma insertionSort_sorted l :
  StronglySorted (fun a b => less b a = false) (Example.insertionSort less l).
Proof.
  induction l as [|x l IH]; cbn; [constructor | apply insert_sorted; exact IH].
Qed.

End InsertionSort.

Lemma example_lib_spec : GoLibSpec Example.lib.
Proof.
  split.
  - intros p m. cbn. unfold Example.compile.
    repeat (destruct (String.eqb p _); [discriminate|]). discriminate.
  - intros p re. cbn. unfold Example.compile.
    repeat (destruct (String.eqb p _);
            [ first
                [ discriminate
                | intros [= <-]; split;
                  [ eexists; reflexivity
                  | intros s; cbn;
                    repeat match goal with
                           | |- context [if ?b then _ else _] => destruct b
                           end; auto ] ]
            | ]); discriminate.
  - intros m. reflexivity.
  - intros A less l. apply insertionSort_perm.
  - intros A less l Ht Hi Hn. apply insertionSort_sorted; [exact Hn|].
    intros x y. apply less_asym; assumption.
Qed.

Lemma StronglySorted_weaken {A} (P Q : A -> A -> Prop) (l : list A) :
  (forall a b, P a b -> Q a b) -> StronglySorted P l -> StronglySorted Q l.
Proof.
  intros HPQ. induction 1 as [|x l Hs IH Hx]; constructor; [exact IH|].
  rewrite List.Forall_forall in *. intros y Hy. apply HPQ, Hx, Hy.
Qed.

(** ** Decimal strings and their order *)

Section DecimalOrder.

(** The digits that [FormatInt] writes read back as the number. *)
Lemma digits_of_uint_acc (d : Decimal.uint) :
  forall acc : positive,
    digits (NilEmpty.string_of_uint d) (Z.pos acc) = Some (Z.pos (Pos.of_uint_acc d acc)).
Proof.
  induction d; intros acc; cbn [NilEmpty.string_of_uint digits Pos.of_uint_acc];
    try reflexivity;
    match goal with
    | |- context [isDigit ?c] => change (isDigit c) with true; cbv iota
    end;
    rewrite <- IHd; f_equal;
    unfold byteZ; cbn [N_of_ascii N_of_digits Z.of_N]; cbn; lia.
Qed.

Lemma digits_of_uint (d : Decimal.uint) :
  digits (NilEmpty.string_of_uint d) 0 = Some (Z.of_N (Pos.of_uint d)).
Proof.
  induction d; cbn [NilEmpty.string_of_uint digits Pos.of_uint]; try reflexivity;
    match goal with
    | |- context [isDigit ?c] => change (isDigit c) with true; cbv iota
    end;
    try exact IHd;
    cbn [Z.of_N]; rewrite <- digits_of_uint_acc; f_equal.
Qed.

Lemma digits_FormatInt (n : Z) : 0 <= n -> digits (FormatInt n) 0 = Some n.
Proof.
  intros Hn. unfold FormatInt. destruct n as [|p|p]; [reflexivity| |lia].
  cbn [Z.to_int NilEmpty.string_of_int]. rewrite digits_of_uint, Unsigned.of_to. reflexivity.
Qed.

Lemma digits_acc (s : string) :
  forall acc,
    digits s acc =
    match digits s 0 with
    | Some w => Some (acc * 10 ^ Z.of_nat (String.length s) + w)
    | None => None
    end.
Proof.
  induction s as [|c s IH]; intros acc; cbn [digits String.length].
  - f_equal. cbn. lia.
  - destruct (isDigit c); [|reflexivity].
    rewrite (IH (acc * 10 + _)), (IH (0 * 10 + _)).
    destruct (digits s 0) as [w|]; [|reflexivity].
    f_equal. rewrite Nat2Z.inj_succ, Z.pow_succ_r by lia. ring.
Qed.

Lemma digits_bound (s : string) :
  forall w, digits s 0 = Some w -> 0 <= w < 10 ^ Z.of_nat (String.length s).
Proof.
  induction s as [|c s IH]; intros w; cbn [digits String.length].
  - intros [= <-]. cbn. lia.
  - destruct (isDigit c) eqn:Ec; [|discriminate].
    unfold isDigit in Ec. apply andb_true_iff in Ec. destruct Ec as [E1 E2].
    apply Z.leb_le in E1, E2.
    rewrite digits_acc. destruct (digits s 0) as [v|]; [|discriminate].
    intros [= <-]. specialize (IH v eq_refl).
    rewrite Nat2Z.inj_succ, Z.pow_succ_r by lia. nia.
Qed.

Lemma ascii_compare_byteZ (c d : ascii) :
  Ascii.compare c d = (byteZ c ?= byteZ d).
Proof.
  unfold Ascii.compare, byteZ. symmetry. apply N2Z.inj_compare.
Qed.

Lemma digits_compare (s : string) :
  forall t a b,
    String.length s = String.length t ->
    digits s 0 = Some a -> digits t 0 = Some b ->
    String.compare s t = (a ?= b).
Proof.
  induction s as [|c s IH]; intros [|d t] a b Hl; try discriminate Hl.
  - cbn. intros [= <-] [= <-]. reflexivity.
  - cbn [digits String.length String.compare] in *. injection Hl as Hl.
    destruct (isDigit c) eqn:Ec; [|discriminate].
    destruct (isDigit d) eqn:Ed; [|discriminate].
    rewrite (digits_acc s), (digits_acc t).
    specialize (IH t).
    destruct (digits s 0) as [v|] eqn:Ev; [|discriminate].
    destruct (digits t 0) as [w|] eqn:Ew; [|discriminate].
    intros [= <-] [= <-]. specialize (IH v w Hl eq_refl eq_refl).
    pose proof (digits_bound s v Ev) as Bv. pose proof (digits_bound t w Ew) as Bw.
    rewrite <- Hl in *. rewrite ascii_compare_byteZ.
    set (p := 10 ^ Z.of_nat (String.length s)) in *.
    destruct (Z.compare_spec (byteZ c) (byteZ d)) as [E|E|E].
    + rewrite IH, E.
      destruct (Z.compare_spec v w); symmetry;
        [apply Z.compare_eq_iff | apply Z.compare_lt_iff | apply Z.compare_gt_iff]; lia.
    + symmetry. apply Z.compare_lt_iff. nia.
    + symmetry. apply Z.compare_gt_iff. nia.
Qed.

(** Timestamps that are not negative and are written with the same number
    of digits are ordered as strings as they are as numbers. *)
Lemma FormatInt_same_width (n m : Z) :
  0 <= n -> 0 <= m ->
  String.length (FormatInt n) = String.length (FormatInt m) ->
  String.leb (FormatInt n) (FormatInt m) = (n <=? m).
Proof.
  intros Hn Hm Hl. unfold String.leb, Z.leb.
  rewrite (digits_compare _ _ n m Hl (digits_FormatInt n Hn) (digits_FormatInt m Hm)).
  reflexivity.
Qed.

End DecimalOrder.

Section SortedCheck.
Context {R : Type} `{GoGithub R}.
Variable lib : GoLib.
Hypothesis Hlib : GoLibSpec lib.
Variable remote : R.
Variable req : CheckRequest.

(** C4 (amended). A successful check returns a permutation of the collected
    versions in which no version comes before one whose creation timestamp
    is smaller as a string, compared byte by byte; for timestamps that are
    not negative and have the same number of digits this is the order of
    the numbers. *)
Theorem check_sorted_by_string (vs : list Version) :
  Check lib remote req = Ok vs ->
  exists collected,
    collect lib remote req = Ok collected
    /\ Permutation collected vs
    /\ StronglySorted (fun a b => stringOrdered a b /\ numericIfSameWidth a b) vs.
Proof.
  unfold Check. intros E.
  destruct (collect lib remote req) as [collected| |] eqn:Ec; cbn in E; try discriminate.
  injection E as <-. exists collected. split; [reflexivity|]. split.
  - apply (sort_perm _ Hlib).
  - eapply StronglySorted_weaken;
      [| apply (sort_sorted _ Hlib Version lessCreatedAt collected)].
    + intros a b Hab. apply ltb_false_leb in Hab. split; [exact Hab|].
      intros n m Hn Hm Ea Eb Hl. unfold stringOrdered in Hab.
      rewrite Ea, Eb in Hab, Hl.
      rewrite (FormatInt_same_width n m Hn Hm Hl) in Hab.
      apply Z.leb_le. exact Hab.
    + intros x y z. apply ltb_trans.
    + intros x. apply ltb_irrefl.
    + intros x y z. apply ltb_negatively_transitive.
Qed.

End SortedCheck.

Lemma check_sorted_by_string_witness :
  exists collected,
    collect Example.lib (Example.remote [Example.chat2; Example.ping1; Example.ping3])
      (Example.request Example.sourceAll) = Ok collected
    /\ Permutation collected
         [{| Actions.CreatedAt := "1600000000"; PrID := "7"; ReviewID := "";
             CommentID := "101" |};
          {| Actions.CreatedAt := "1600000200"; PrID := "7"; ReviewID := "";
             CommentID := "103" |}]
    /\ StronglySorted (fun a b => stringOrdered a b /\ numericIfSameWidth a b)
         [{| Actions.CreatedAt := "1600000000"; PrID := "7"; ReviewID := "";
             CommentID := "101" |};
          {| Actions.CreatedAt := "1600000200"; PrID := "7"; ReviewID := "";
             CommentID := "103" |}].
Proof.
  apply (check_sorted_by_string Example.lib example_lib_spec
           (Example.remote [Example.chat2; Example.ping1; Example.ping3])
           (Example.request Example.sourceAll)).
  reflexivity.
Defined.

(** Counterexample to C4 as stated: with one comment created at Unix time
    999999999 and a later one at 1000000000, check returns the later
    version first, because "1000000000" is smaller than "999999999" as a
    string; this is so for every sort that meets the documentation of
    [sort.Slice]. The stable sort by numeric timestamp is the other order. *)
Lemma check_sort_not_numeric :
  let remote := Example.remote [Example.old1; Example.new2] in
  let req := Example.request Example.sourceAll in
  let v201 := {| Actions.CreatedAt := "999999999"; PrID := "7"; ReviewID := "";
                 CommentID := "201" |} in
  let v202 := {| Actions.CreatedAt := "1000000000"; PrID := "7"; ReviewID := "";
                 CommentID := "202" |} in
  collect Example.lib remote req = Ok [v201; v202]
  /\ Check Example.lib remote req = Ok [v202; v201]
  /\ specStableNumericSort [v201; v202] = [v201; v202]
  /\ createdAtNumber v201 < createdAtNumber v202
  /\ Check Example.lib remote req <> Ok (specStableNumericSort [v201; v202])
  /\ (forall lib, GoLibSpec lib ->
      sort_Slice lib Version lessCreatedAt [v201; v202] = [v202; v201]).
Proof.
  cbv zeta. repeat split; try reflexivity; try discriminate.
  intros lib Hlib.
  pose proof (sort_perm _ Hlib Version lessCreatedAt
                [{| Actions.CreatedAt := "999999999"; PrID := "7"; ReviewID := "";
                    CommentID := "201" |};
                 {| Actions.CreatedAt := "1000000000"; PrID := "7"; ReviewID := "";
                    CommentID := "202" |}]) as Hp.
  pose proof (sort_sorted _ Hlib Version lessCreatedAt
                [{| Actions.CreatedAt := "999999999"; PrID := "7"; ReviewID := "";
                    CommentID := "201" |};
                 {| Actions.CreatedAt := "1000000000"; PrID := "7"; ReviewID := "";
                    CommentID := "202" |}]
                (fun x y z => ltb_trans _ _ _) (fun x => ltb_irrefl _)
                (fun x y z => ltb_negatively_transitive _ _ _)) as Hs.
  apply Permutation_length_2_inv in Hp. destruct Hp as [Hp|Hp]; rewrite Hp in *.
  - inversion Hs as [|? ? _ Hall]. inversion Hall as [|? ? Hlt _]. discriminate Hlt.
  - reflexivity.
Qed.


Lemma example_libBack_spec : GoLibSpec Example.libBack.
Proof.
  split.
  - apply (compile_no_panic _ example_lib_spec).
  - apply (compile_spec _ example_lib_spec).
  - intros m. reflexivity.
  - intros A less l. apply backSort_perm.
  - intros A less l Ht Hi Hn. apply backSort_sorted; assumption.
Qed.

(** The documentation of [sort.Slice] leaves the order of versions with
    equal timestamps open: a sort that meets it returns two versions of the
    same second in the reverse of their collection order. *)
Lemma sort_contract_allows_reordering :
  let remote := Example.remote [Example.same1; Example.same2] in
  let req := Example.request Example.sourceAll in
  GoLibSpec Example.libBack
  /\ collect Example.libBack remote req
     = Ok [{| Actions.CreatedAt := "1600000000"; PrID := "7"; ReviewID := "";
              CommentID := "301" |};
           {| Actions.CreatedAt := "1600000000"; PrID := "7"; ReviewID := "";
              CommentID := "302" |}]
  /\ Check Example.libBack remote req
     = Ok [{| Actions.CreatedAt := "1600000000"; PrID := "7"; ReviewID := "";
              CommentID := "302" |};
           {| Actions.CreatedAt := "1600000000"; PrID := "7"; ReviewID := "";
              CommentID := "301" |}].
Proof.
  cbv zeta. split; [exact example_libBack_spec|]. split; reflexivity.
Qed.

Lemma check_versions_valid_witness :
  Forall validVersion
    [{| Actions.CreatedAt := "1600000000"; PrID := "7"; ReviewID := "";
        CommentID := "101" |};
     {| Actions.CreatedAt := "1600000200"; PrID := "7"; ReviewID := "";
        CommentID := "103" |}].
Proof.
  apply (proj2 (check_versions_valid Example.lib
                  (Example.remote [Example.chat2; Example.ping1; Example.ping3])
                  (Example.request Example.sourceAll)) example_lib_spec).
  reflexivity.
Defined.

(* --------------------------------------------------------------------- *)
(** ** The comment-text predicate and malformed patterns *)
(* --------------------------------------------------------------------- *)

Section CommentRegex.
Variable lib : GoLib.

Lemma regexp_Match_true (p body : string) :
  fst (regexp_Match lib p body) = true <-> matches lib p body.
Proof.
  unfold regexp_Match, matches.
  destruct (regexp_Compile lib p) as [re|e|m]; cbn.
  - split; [intros Hm; exists re; auto | intros (re' & [= <-] & Hm); exact Hm].
  - split; [discriminate | intros (re' & Hc & _); discriminate].
  - split; [discriminate | intros (re' & Hc & _); discriminate].
Qed.

Lemma regexp_Match_malformed (p body : string) :
  malformed lib p -> fst (regexp_Match lib p body) = false.
Proof. intros [e He]. unfold regexp_Match. rewrite He. reflexivity. Qed.

Lemma rangeMatch_spec (l : list string) (comment : string) (v ret : bool) :
  rangeMatch lib l comment v ret =
  if existsb (fun p => fst (regexp_Match lib p comment)) l then v else ret.
Proof.
  revert ret. induction l as [|p l IH]; intros ret; cbn; [reflexivity|].
  destruct (regexp_Match lib p comment) as [matched err]. cbn.
  rewrite IH. destruct matched; cbn; [|reflexivity].
  destruct (existsb _ l); reflexivity.
Qed.

(** C3 (amended). The comment-text predicate returns a boolean and no
    error; it holds exactly when [comments] is empty or one of its patterns
    compiles and matches the body, and no pattern of [ignore_comments]
    compiles and matches the body. A pattern that does not compile counts as
    a pattern that does not match. *)
Theorem requestsCommentRegex_malformed_is_no_match (source : Source) (body : string) :
  (requestsCommentRegex lib source body = true <->
     (Comments source = [] \/
      exists p, List.In p (Comments source) /\ matches lib p body)
     /\ ~ (exists p, List.In p (IgnoreComments source) /\ matches lib p body))
  /\ (forall p, malformed lib p -> ~ matches lib p body).
Proof.
  split.
  2:{ intros p [e He] (re & Hc & _). congruence. }
  unfold requestsCommentRegex. rewrite !rangeMatch_spec.
  assert (Hex : forall l,
    existsb (fun p => fst (regexp_Match lib p body)) l = true <->
    exists p, List.In p l /\ matches lib p body).
  { intros l. rewrite existsb_exists. split; intros (p & Hin & Hm); exists p;
      (split; [exact Hin | apply regexp_Match_true; exact Hm]). }
  destruct (existsb _ (IgnoreComments source)) eqn:Ei.
  - apply Hex in Ei. split; [discriminate | tauto].
  - assert (Hni : ~ exists p, List.In p (IgnoreComments source) /\ matches lib p body).
    { intros Hc. apply Hex in Hc. congruence. }
    destruct (Comments source) as [|c l] eqn:Ec; cbn [length Nat.eqb].
    + tauto.
    + destruct (existsb _ (c :: l)) eqn:Ea.
      * apply Hex in Ea. tauto.
      * split; [discriminate|]. intros [[Hc|Hc] _]; [discriminate|].
        apply Hex in Hc. congruence.
Qed.

End CommentRegex.

(** Counterexample to C3 as stated: the pattern "(" does not compile, and a
    source whose [comments] is ["("] makes the predicate answer [false] on a
    comment, as the well-formed pattern "^ping$" does on a body it does not
    match; with ["("; "^ping$"] the predicate answers [true] on "ping", and
    the check that evaluates it returns normally, without any error. *)
Lemma malformed_pattern_swallowed :
  let bad := Example.withComments Example.source ["("] in
  let mixed := Example.withComments Example.source ["("; "^ping$"] in
  regexp_Compile Example.lib "("
    = Err (External "error parsing regexp: missing closing ): `(`")
  /\ requestsCommentRegex Example.lib bad "ping" = false
  /\ requestsCommentRegex Example.lib Example.source "thanks" = false
  /\ requestsCommentRegex Example.lib mixed "ping" = true
  /\ Check Example.lib (Example.remote [Example.ping1]) (Example.request bad) = Ok []
  /\ Check Example.lib (Example.remote [Example.ping1]) (Example.request mixed)
     = Ok [{| Actions.CreatedAt := "1600000000"; PrID := "7"; ReviewID := "";
              CommentID := "101" |}].
Proof. cbv zeta. repeat split. Qed.

(* --------------------------------------------------------------------- *)
(** ** Deleting the last own comment *)
(* --------------------------------------------------------------------- *)

Section DeleteLast.
Context {R : Type} `{GoGithub R}.
Variable c : GithubClient.
Variable user : User.
Variable uid : Z.
Hypothesis Huid : User_ID user = Some uid.

Lemma lastOwnComment_spec (comments : list IssueComment) :
  Forall identified comments ->
  forall commentID,
    lastOwnComment comments user commentID =
    Ok (match last (ownComments uid comments) with
        | Some cm => default 0 (ID cm)
        | None => commentID
        end).
Proof.
  induction 1 as [|cm rest Hcm Hrest IH]; intros commentID; [reflexivity|].
  destruct Hcm as [[a Ha] [i Hi]].
  cbn [lastOwnComment]. unfold authorID in Ha.
  destruct (User_ cm) as [u|] eqn:Eu; [|discriminate].
  cbn [deref Go.bind]. rewrite Ha, Huid. cbn [deref Go.bind].
  unfold ownComments. cbn [List.filter]. unfold writtenBy at 1, authorID at 1.
  rewrite Eu, Ha.
  destruct (a =? uid) eqn:Eq.
  - rewrite Hi. cbn [deref Go.bind]. rewrite IH. rewrite last_cons.
    fold (ownComments uid rest).
    destruct (last (ownComments uid rest)); [reflexivity|]. rewrite Hi. reflexivity.
  - rewrite IH. reflexivity.
Qed.


End DeleteLast.



(* --------------------------------------------------------------------- *)
(** ** Expansion of the comment text *)
(* --------------------------------------------------------------------- *)

Section Expansion.

Lemma expandFrom_ext (f g : string -> string) :
  (forall v, f v = g v) ->
  forall fuel s, expandFrom fuel f s = expandFrom fuel g s.
Proof.
  intros Hfg. induction fuel as [|fuel IH]; intros s; [reflexivity|].
  cbn [expandFrom]. destruct s as [|c rest]; [reflexivity|].
  destruct (Ascii.eqb c "$" && negb (String.eqb rest EmptyString)).
  - destruct (getShellName rest) as [name w]. rewrite IH, Hfg. reflexivity.
  - rewrite IH. reflexivity.
Qed.

Lemma allowed_spec (v : string) :
  allowed v = true <->
  List.In v ["BUILD_ID"; "BUILD_NAME"; "BUILD_JOB_NAME"; "BUILD_PIPELINE_NAME";
             "BUILD_TEAM_NAME"; "ATC_EXTERNAL_URL"].
Proof.
  unfold allowed. rewrite !orb_true_iff, !String.eqb_eq. cbn [List.In].
  intuition congruence.
Qed.

Lemma safeMapping_agree (env1 env2 : gmap string string) :
  agreeOnAllowList env1 env2 -> forall v, safeMapping env1 v = safeMapping env2 v.
Proof.
  intros Hagree v. unfold safeMapping.
  destruct (allowed v) eqn:Ea; [apply Hagree; exact Ea | reflexivity].
Qed.

Lemma bindIO_ext {S A B} (m : io S A) (k1 k2 : A -> io S B) (s : S) :
  (forall a s', k1 a s' = k2 a s') -> bindIO m k1 s = bindIO m k2 s.
Proof.
  intros Hk. unfold bindIO. destruct (m s) as [[a|e|msg] s']; auto.
Qed.

End Expansion.

Section References.

Lemma dropBytes_length (n : nat) (s : string) :
  (String.length (dropBytes n s) <= String.length s)%nat.
Proof.
  revert s. induction n as [|n IH]; intros [|c s]; cbn; try lia.
  specialize (IH s). lia.
Qed.

Lemma expandFrom_fuel (f : string -> string) (fuel1 fuel2 : nat) (s : string) :
  (String.length s <= fuel1)%nat -> (String.length s <= fuel2)%nat ->
  expandFrom fuel1 f s = expandFrom fuel2 f s.
Proof.
  revert fuel2 s. induction fuel1 as [|fuel1 IH]; intros [|fuel2] [|c rest]; cbn;
    try reflexivity; try lia.
  intros H1 H2.
  destruct (Ascii.eqb c "$" && negb (String.eqb rest EmptyString)).
  - destruct (getShellName rest) as [name w].
    pose proof (dropBytes_length w rest).
    rewrite (IH fuel2); [reflexivity | lia | lia].
  - rewrite (IH fuel2); [reflexivity | lia | lia].
Qed.

Lemma string_app_nil (s : string) : EmptyString +:+ s = s.
Proof. reflexivity. Qed.

Lemma string_app_cons (c : ascii) (a b : string) :
  String c a +:+ b = String c (a +:+ b).
Proof. reflexivity. Qed.

Lemma spanAlphaNum_app (name rest : string) :
  snd (spanAlphaNum name) = String.length name -> endsName rest ->
  spanAlphaNum (name +:+ rest) = (name, String.length name).
Proof.
  induction name as [|c name IH].
  - intros _ Hend. rewrite string_app_nil. destruct rest as [|c rest]; [reflexivity|].
    cbn in Hend. cbn. rewrite Hend. reflexivity.
  - rewrite string_app_cons. cbn [spanAlphaNum String.length].
    destruct (isAlphaNum c); [|cbn; discriminate].
    destruct (spanAlphaNum name) as [n i] eqn:En. cbn [snd]. intros [= Hi] Hend.
    rewrite (IH Hi Hend). reflexivity.
Qed.

Lemma getShellName_plain (name rest : string) :
  plainName name -> endsName rest ->
  getShellName (name +:+ rest) = (name, String.length name).
Proof.
  destruct name as [|c name]; [intros []|]. intros (Ha & Hs & Hspan) Hend.
  assert (Hsp : spanAlphaNum (String c name +:+ rest)
                = (String c name, String.length (String c name))).
  { apply spanAlphaNum_app; [|exact Hend]. cbn. rewrite Ha.
    destruct (spanAlphaNum name). cbn in *. congruence. }
  rewrite string_app_cons in *. unfold getShellName. rewrite Hs.
  destruct c as [[] [] [] [] [] [] [] []]; try exact Hsp; discriminate Ha.
Qed.

Lemma dropBytes_app (name rest : string) :
  dropBytes (String.length name) (name +:+ rest) = rest.
Proof. induction name as [|c name IH]; [reflexivity | exact IH]. Qed.

Lemma app_length (a b : string) :
  String.length (a +:+ b) = (String.length a + String.length b)%nat.
Proof.
  induction a as [|c a IH]; [reflexivity|].
  rewrite string_app_cons. cbn [String.length]. rewrite IH. reflexivity.
Qed.

(** A reference [$name] to a variable outside the allow-list is copied to
    the result as it is. *)
Lemma safeExpandEnv_other_reference (env : gmap string string) (name rest : string) :
  plainName name -> allowed name = false -> endsName rest ->
  safeExpandEnv env ("$" +:+ name +:+ rest) = "$" +:+ name +:+ safeExpandEnv env rest.
Proof.
  intros Hname Hallowed Hend. unfold safeExpandEnv, Expand.
  rewrite !string_app_cons, !string_app_nil. cbn [String.length expandFrom].
  replace (Ascii.eqb "$" "$") with true by reflexivity.
  destruct name as [|c name]; [destruct Hname|].
  rewrite string_app_cons at 1. cbn [String.eqb negb andb].
  rewrite <- !string_app_cons.
  rewrite (getShellName_plain (String c name) rest Hname Hend).
  cbn [String.eqb andb]. unfold safeMapping at 1. rewrite Hallowed.
  rewrite dropBytes_app.
  rewrite (expandFrom_fuel _ _ (String.length rest) rest);
    [reflexivity | rewrite app_length; lia | lia].
Qed.

End References.

(** C9. The text that the out step posts is expanded with the allow-listed
    variables only: any other name is mapped to its own reference, whatever
    the environment holds, and two environments that agree on the
    allow-listed variables give the same expanded text and the same run of
    the out step. *)
Theorem safeExpandEnv_allow_list_only (env1 env2 : gmap string string) :
  agreeOnAllowList env1 env2 ->
  (forall s, safeExpandEnv env1 s = safeExpandEnv env2 s)
  /\ (forall v, ~ List.In v ["BUILD_ID"; "BUILD_NAME"; "BUILD_JOB_NAME";
                             "BUILD_PIPELINE_NAME"; "BUILD_TEAM_NAME";
                             "ATC_EXTERNAL_URL"] ->
      safeMapping env1 v = "$" +:+ v /\ safeMapping env2 v = "$" +:+ v)
  /\ (forall name rest,
      plainName name -> allowed name = false -> endsName rest ->
      safeExpandEnv env1 ("$" +:+ name +:+ rest)
      = "$" +:+ name +:+ safeExpandEnv env1 rest)
  /\ (forall (R F : Type) (HR : GoGithub R) (HF : FileSystem F)
             (lib : GoLib) (fs : F) (inputDir : string) (req : OutRequest) (remote : R),
      Out lib env1 fs inputDir req remote = Out lib env2 fs inputDir req remote).
Proof.
  intros Hagree.
  assert (Hexp : forall s, safeExpandEnv env1 s = safeExpandEnv env2 s).
  { intros s. unfold safeExpandEnv, Expand. apply expandFrom_ext.
    apply safeMapping_agree. exact Hagree. }
  split; [exact Hexp|]. split.
  - intros v Hv. unfold safeMapping.
    destruct (allowed v) eqn:Ea; [apply allowed_spec in Ea; contradiction|].
    split; reflexivity.
  - split; [intros name rest; apply safeExpandEnv_other_reference|].
    intros R F HR HF lib fs inputDir req remote. unfold Out.
    repeat (apply bindIO_ext; intros).
    rewrite Hexp. reflexivity.
Qed.

Lemma safeExpandEnv_allow_list_only_witness :
  safeExpandEnv Example.env1 "build $BUILD_ID of $SECRET"
  = safeExpandEnv Example.env2 "build $BUILD_ID of $SECRET"
  /\ safeExpandEnv Example.env1 "build $BUILD_ID of $SECRET" = "build 42 of $SECRET".
Proof.
  split; [|reflexivity].
  apply (safeExpandEnv_allow_list_only Example.env1 Example.env2).
  intros v Hv. apply allowed_spec in Hv. cbn [List.In] in Hv.
  decompose [or] Hv; subst; try reflexivity; contradiction.
Defined.

(* --------------------------------------------------------------------- *)
(** ** Metadata from the capture groups *)
(* --------------------------------------------------------------------- *)

Section CaptureGroups.

Lemma rangeSubexpNames_no_match (names : list string) :
  forall i m, rangeSubexpNames names i [] m = Ok m.
Proof.
  induction names as [|n names IH]; intros i m; [reflexivity|].
  cbn [rangeSubexpNames length].
  replace ((0 <? i)%nat && (i <=? 0)%nat) with false
    by (destruct i; reflexivity).
  apply IH.
Qed.

Lemma rangeSubexpNames_match (names : list string) :
  forall i match_ m,
    (0 < i)%nat -> length (drop i match_) = length names ->
    rangeSubexpNames names i match_ m =
    Ok (fold_left (fun m nv => <[fst nv := snd nv]> m) (zip names (drop i match_)) m).
Proof.
  induction names as [|n names IH]; intros i match_ m Hi Hlen.
  - reflexivity.
  - cbn [rangeSubexpNames].
    destruct (drop i match_) as [|x rest] eqn:Ed; [discriminate|].
    assert (Hx : match_ !! i = Some x).
    { rewrite <- (Nat.add_0_r i), <- lookup_drop, Ed. reflexivity. }
    assert (Hrest : drop (S i) match_ = rest).
    { change (S i) with (1 + i)%nat. rewrite Nat.add_comm, <- drop_drop, Ed. reflexivity. }
    assert (Hlt : (i < length match_)%nat) by (eapply lookup_lt_Some; exact Hx).
    replace ((0 <? i)%nat && (i <=? length match_)%nat) with true.
    2:{ symmetry. apply andb_true_iff. split;
          [apply Nat.ltb_lt; lia | apply Nat.leb_le; lia]. }
    rewrite Hx. rewrite IH; [|lia|].
    + rewrite Hrest. reflexivity.
    + rewrite Hrest. cbn in Hlen. lia.
Qed.

Variable lib : GoLib.
Hypothesis Hlib : GoLibSpec lib.

(** What [getParams] returns for a pattern that compiles: the map of the
    groups after the whole match, empty when the body does not match. *)
Lemma getParams_spec (p body : string) (re : Regexp) :
  regexp_Compile lib p = Ok re ->
  getParams lib p body =
  Ok (paramsOf (tail (SubexpNames re)) (tail (FindStringSubmatch re body))).
Proof.
  intros Hc. unfold getParams, regexp_MustCompile. rewrite Hc. cbn [Go.bind].
  destruct (compile_spec _ Hlib p re Hc) as [[names Hn] Hm].
  rewrite Hn. cbn [rangeSubexpNames Nat.ltb Nat.leb andb tail].
  destruct (Hm body) as [E|E].
  - rewrite E. rewrite rangeSubexpNames_no_match. destruct names; reflexivity.
  - destruct (FindStringSubmatch re body) as [|whole subs] eqn:Ef.
    + rewrite rangeSubexpNames_no_match. destruct names; reflexivity.
    + rewrite Hn in E. cbn in E. injection E as E.
      rewrite rangeSubexpNames_match; [reflexivity | lia | exact E].
Qed.

(** The parts of C7 that hold: a pattern that compiles and does not match
    adds no field and gives no error. *)
Lemma enrich_no_match (p body : string) (re : Regexp) (metadata : Metadata) :
  regexp_Compile lib p = Ok re ->
  FindStringSubmatch re body = [] ->
  getParams lib p body = Ok ∅ /\ enrich lib [p] body metadata = Ok metadata.
Proof.
  intros Hc Hf.
  assert (Hg : getParams lib p body = Ok ∅).
  { rewrite (getParams_spec p body re Hc), Hf. unfold paramsOf.
    destruct (tail (SubexpNames re)); reflexivity. }
  split; [exact Hg|]. cbn [enrich]. rewrite Hg. cbn [Go.bind]. unfold addAll.
  pose proof (range_perm _ Hlib ∅) as Hp. rewrite map_to_list_empty in Hp.
  apply Permutation_nil_r in Hp. rewrite Hp. reflexivity.
Qed.

(** C7, at the input on which the code leaves the claim: a pattern with one
    capture group that has no name and no named group, matching the body,
    contributes a field with the empty name that carries the capture. *)
Theorem enrich_unnamed_group_field (p body whole g : string) (re : Regexp)
    (metadata : Metadata) :
  regexp_Compile lib p = Ok re ->
  SubexpNames re = [""; ""] ->
  FindStringSubmatch re body = [whole; g] ->
  getParams lib p body = Ok {[ "" := g ]}
  /\ enrich lib [p] body metadata = Ok (metadata ++ [Some {| Name := ""; Value := g |}]).
Proof.
  intros Hc Hn Hf.
  assert (Hg : getParams lib p body = Ok {[ "" := g ]}).
  { rewrite (getParams_spec p body re Hc), Hn, Hf. reflexivity. }
  split; [exact Hg|]. cbn [enrich]. rewrite Hg. cbn [Go.bind]. unfold addAll.
  pose proof (range_perm _ Hlib {[ "" := g ]}) as Hp.
  rewrite map_to_list_singleton in Hp.
  apply Permutation_sym, Permutation_length_1_inv in Hp. rewrite Hp. reflexivity.
Qed.

End CaptureGroups.

Lemma enrich_unnamed_group_field_witness :
  getParams Example.lib "^(ping)$" "ping" = Ok {[ "" := "ping" ]}
  /\ enrich Example.lib ["^(ping)$"] "ping" []
     = Ok ([] ++ [Some {| Name := ""; Value := "ping" |}]).
Proof.
  apply (enrich_unnamed_group_field Example.lib example_lib_spec
           "^(ping)$" "ping" "ping" "ping" Example.pingGroupRe []);
    reflexivity.
Defined.

(** The examples of the specification for a named group, and the run of
    the in step on a pattern with an unnamed group: the field with the
    empty name names the output directory itself, and the step fails. *)
Lemma enrich_examples :
  getParams Example.lib "^ping (?P<target>\w+)$" "ping alice" = Ok {[ "target" := "alice" ]}
  /\ enrich Example.lib ["^ping (?P<target>\w+)$"] "ping alice" []
     = Ok [Some {| Name := "target"; Value := "alice" |}]
  /\ enrich Example.lib ["^ping (?P<target>\w+)$"] "pong" [] = Ok []
  /\ fst (Actions.In CommentID Example.lib (Example.remote [Example.ping1]) "pr"
            (Example.inRequest
               (Example.withComments Example.sourceMeta ["^(ping)$"])
               Example.version101)
            Example.emptyFiles)
     = Err (Errorf "failed to write metadata file : open pr: is a directory").
Proof. repeat split. Qed.

(* --------------------------------------------------------------------- *)
(** ** The version that the in step resolves *)
(* --------------------------------------------------------------------- *)

Section Resolve.
Context {R F : Type} `{GoGithub R} `{FileSystem F}.
Variable Ref : Version -> string.
Variable lib : GoLib.
Variable remote : R.
Variable outputDir : string.
Variable req : InRequest.
Variable fs : F.
Variable client : GithubClient.
Hypothesis Hclient :
  NewGithubClient lib
    (Actions.Repository (InRequest_Source req)) (AccessToken (InRequest_Source req))
    (SkipSSLVerification (InRequest_Source req)) (GithubEndpoint (InRequest_Source req))
  = Ok client.


End Resolve.



(* --------------------------------------------------------------------- *)
(** ** Bytes and masks *)
(* --------------------------------------------------------------------- *)

Section Bits.

Lemma byteZ_range (c : ascii) : 0 <= byteZ c < 256.
Proof. unfold byteZ. pose proof (N_ascii_bounded c). lia. Qed.

Lemma byteOf_byteZ (c : ascii) : byteOf (byteZ c) = c.
Proof.
  unfold byteOf. rewrite Z.mod_small by apply byteZ_range.
  unfold byteZ. rewrite N2Z.id. apply ascii_N_embedding.
Qed.

Lemma byteOf_eq (n : Z) (c : ascii) : n = byteZ c -> byteOf n = c.
Proof. intros ->. apply byteOf_byteZ. Qed.

Lemma land_shiftl_low (a y k : Z) :
  0 <= k -> 0 <= y < 2 ^ k -> Z.land (a * 2 ^ k) y = 0.
Proof.
  intros Hk Hy. apply Z.bits_inj'. intros n Hn.
  rewrite Z.land_spec, Z.bits_0.
  destruct (Z.ltb_spec n k) as [Hlt|Hge].
  - rewrite Z.mul_pow2_bits_low by lia. reflexivity.
  - rewrite <- (Z.mod_small y (2 ^ k)) by lia.
    rewrite Z.mod_pow2_bits_high by lia. apply andb_false_r.
Qed.

Lemma lor_disjoint (a y k : Z) :
  0 <= k -> 0 <= y < 2 ^ k -> Z.lor (a * 2 ^ k) y = a * 2 ^ k + y.
Proof.
  intros Hk Hy. pose proof (Z.add_lor_land (a * 2 ^ k) y) as H.
  rewrite (land_shiftl_low a y k Hk Hy) in H. lia.
Qed.

Lemma land_mask (x k : Z) : 0 <= k -> Z.land x (2 ^ k - 1) = x mod 2 ^ k.
Proof.
  intros Hk. replace (2 ^ k - 1) with (Z.ones k).
  - apply Z.land_ones. exact Hk.
  - rewrite Z.ones_equiv. lia.
Qed.

Lemma land_63 x : Z.land x 63 = x mod 64.
Proof. apply (land_mask x 6). lia. Qed.
Lemma land_31 x : Z.land x 31 = x mod 32.
Proof. apply (land_mask x 5). lia. Qed.
Lemma land_15 x : Z.land x 15 = x mod 16.
Proof. apply (land_mask x 4). lia. Qed.
Lemma land_7 x : Z.land x 7 = x mod 8.
Proof. apply (land_mask x 3). lia. Qed.
Lemma shiftl_6 x : Z.shiftl x 6 = x * 64.
Proof. apply (Z.shiftl_mul_pow2 x 6). lia. Qed.
Lemma shiftl_12 x : Z.shiftl x 12 = x * 4096.
Proof. apply (Z.shiftl_mul_pow2 x 12). lia. Qed.
Lemma shiftl_18 x : Z.shiftl x 18 = x * 262144.
Proof. apply (Z.shiftl_mul_pow2 x 18). lia. Qed.
Lemma shiftr_6 x : Z.shiftr x 6 = x / 64.
Proof. apply (Z.shiftr_div_pow2 x 6). lia. Qed.
Lemma shiftr_12 x : Z.shiftr x 12 = x / 4096.
Proof. apply (Z.shiftr_div_pow2 x 12). lia. Qed.
Lemma shiftr_18 x : Z.shiftr x 18 = x / 262144.
Proof. apply (Z.shiftr_div_pow2 x 18). lia. Qed.

Lemma lor_64 a y : 0 <= y < 64 -> Z.lor (a * 64) y = a * 64 + y.
Proof. intros. apply (lor_disjoint a y 6); lia. Qed.
Lemma lor_4096 a y : 0 <= y < 4096 -> Z.lor (a * 4096) y = a * 4096 + y.
Proof. intros. apply (lor_disjoint a y 12); lia. Qed.
Lemma lor_262144 a y : 0 <= y < 262144 -> Z.lor (a * 262144) y = a * 262144 + y.
Proof. intros. apply (lor_disjoint a y 18); lia. Qed.
Lemma lor_128 y : 0 <= y < 64 -> Z.lor 128 y = 128 + y.
Proof. intros. apply (lor_disjoint 2 y 6); lia. Qed.
Lemma lor_192 y : 0 <= y < 64 -> Z.lor 192 y = 192 + y.
Proof. intros. apply (lor_disjoint 3 y 6); lia. Qed.
Lemma lor_224 y : 0 <= y < 16 -> Z.lor 224 y = 224 + y.
Proof. intros. apply (lor_disjoint 14 y 4); lia. Qed.
Lemma lor_240 y : 0 <= y < 8 -> Z.lor 240 y = 240 + y.
Proof. intros. apply (lor_disjoint 30 y 3); lia. Qed.

Lemma rune2 s0 s1 :
  Z.lor (Z.shiftl (Z.land s0 31) 6) (Z.land s1 63) = s0 mod 32 * 64 + s1 mod 64.
Proof.
  rewrite land_31, land_63, shiftl_6. apply lor_64. Z.div_mod_to_equations. lia.
Qed.

Lemma rune3 s0 s1 s2 :
  Z.lor (Z.lor (Z.shiftl (Z.land s0 15) 12) (Z.shiftl (Z.land s1 63) 6)) (Z.land s2 63)
  = s0 mod 16 * 4096 + s1 mod 64 * 64 + s2 mod 64.
Proof.
  rewrite land_15, !land_63, shiftl_6, shiftl_12.
  rewrite lor_4096 by (Z.div_mod_to_equations; lia).
  replace (s0 mod 16 * 4096 + s1 mod 64 * 64) with ((s0 mod 16 * 64 + s1 mod 64) * 64) by lia.
  rewrite lor_64 by (Z.div_mod_to_equations; lia). lia.
Qed.

Lemma rune4 s0 s1 s2 s3 :
  Z.lor (Z.lor (Z.lor (Z.shiftl (Z.land s0 7) 18) (Z.shiftl (Z.land s1 63) 12))
               (Z.shiftl (Z.land s2 63) 6)) (Z.land s3 63)
  = s0 mod 8 * 262144 + s1 mod 64 * 4096 + s2 mod 64 * 64 + s3 mod 64.
Proof.
  rewrite land_7, !land_63, shiftl_6, shiftl_12, shiftl_18.
  rewrite lor_262144 by (Z.div_mod_to_equations; lia).
  replace (s0 mod 8 * 262144 + s1 mod 64 * 4096)
    with ((s0 mod 8 * 64 + s1 mod 64) * 4096) by lia.
  rewrite lor_4096 by (Z.div_mod_to_equations; lia).
  replace ((s0 mod 8 * 64 + s1 mod 64) * 4096 + s2 mod 64 * 64)
    with (((s0 mod 8 * 64 + s1 mod 64) * 64 + s2 mod 64) * 64) by lia.
  rewrite lor_64 by (Z.div_mod_to_equations; lia). lia.
Qed.

End Bits.

(* --------------------------------------------------------------------- *)
(** ** UTF-8: decoding, then encoding *)
(* --------------------------------------------------------------------- *)

Section Utf8Facts.

Lemma first_cases (s0 : Z) (sz : nat) (lo hi : Z) :
  first s0 = Some (sz, lo, hi) ->
  (sz = 2%nat /\ 194 <= s0 <= 223 /\ lo = 128 /\ hi = 191)
  \/ (sz = 3%nat /\ s0 = 224 /\ lo = 160 /\ hi = 191)
  \/ (sz = 3%nat /\ s0 = 237 /\ lo = 128 /\ hi = 159)
  \/ (sz = 3%nat /\ 225 <= s0 <= 239 /\ s0 <> 237 /\ lo = 128 /\ hi = 191)
  \/ (sz = 4%nat /\ s0 = 240 /\ lo = 144 /\ hi = 191)
  \/ (sz = 4%nat /\ 241 <= s0 <= 243 /\ lo = 128 /\ hi = 191)
  \/ (sz = 4%nat /\ s0 = 244 /\ lo = 128 /\ hi = 143).
Proof.
  unfold first.
  repeat match goal with
         | |- context [if ?b then _ else _] =>
             let E := fresh "E" in destruct b eqn:E
         end; intros [= <- <- <-] || discriminate; lia.
Qed.

Lemma string_app_assoc (a b c : string) : (a +:+ b) +:+ c = a +:+ (b +:+ c).
Proof. induction a as [|x a IH]; [reflexivity|]. rewrite !string_app_cons, IH. reflexivity. Qed.

(** Decoding a valid sequence and encoding the rune gives the sequence, whose
    decoding does not depend on what follows it. *)
Lemma encode_decode (c0 : ascii) (t : string) (r : Z) (n : nat) :
  DecodeRuneInString (String c0 t) = (r, n) ->
  (r =? RuneError) && (n =? 1)%nat = false ->
  EncodeRune r = takeBytes n (String c0 t)
  /\ String.length (takeBytes n (String c0 t)) = n
  /\ (0 < n)%nat
  /\ forall X, DecodeRuneInString (takeBytes n (String c0 t) +:+ X) = (r, n).
Proof.
  unfold DecodeRuneInString.
  pose proof (byteZ_range c0) as H0.
  destruct (byteZ c0 <? 128) eqn:Ea.
  { apply Z.ltb_lt in Ea. intros [= <- <-] _. unfold EncodeRune.
    destruct (Z.leb_spec (byteZ c0) 127); [|lia].
    cbn [takeBytes String.length]. rewrite byteOf_byteZ.
    repeat split; [lia|]. intros X. rewrite string_app_cons.
    apply Z.ltb_lt in Ea. rewrite Ea. reflexivity. }
  destruct (first (byteZ c0)) as [[[sz lo] hi]|] eqn:Ef.
  2:{ intros [= <- <-]. discriminate. }
  pose proof (first_cases _ _ _ _ Ef) as Hf.
  destruct t as [|c1 t1]; [intros [= <- <-]; discriminate|].
  pose proof (byteZ_range c1) as H1.
  destruct ((byteZ c1 <? lo) || (hi <? byteZ c1)) eqn:E1; [intros [= <- <-]; discriminate|].
  pose proof E1 as E1'.
  apply orb_false_iff in E1'. destruct E1' as [E1a E1b].
  apply Z.ltb_ge in E1a, E1b.
  destruct (sz <=? 2)%nat eqn:Esz2.
  { intros [= <- <-] _. apply Nat.leb_le in Esz2.
    rewrite rune2. unfold EncodeRune.
    destruct (Z.leb_spec (byteZ c0 mod 32 * 64 + byteZ c1 mod 64) 127);
      [Z.div_mod_to_equations; lia|].
    destruct (Z.leb_spec (byteZ c0 mod 32 * 64 + byteZ c1 mod 64) 2047);
      [|Z.div_mod_to_equations; lia].
    rewrite shiftr_6, land_63.
    rewrite lor_192, lor_128 by (Z.div_mod_to_equations; lia).
    cbn [takeBytes String.length]. split; [|split; [reflexivity|split; [lia|]]].
    - f_equal; [|f_equal]; apply byteOf_eq; Z.div_mod_to_equations; lia.
    - intros X. rewrite !string_app_cons. rewrite Ea, Ef, E1.
      apply Nat.leb_le in Esz2. rewrite Esz2, rune2. reflexivity. }
  destruct t1 as [|c2 t2]; [intros [= <- <-]; discriminate|].
  pose proof (byteZ_range c2) as H2.
  destruct (isCont (byteZ c2)) eqn:E2; cbn [negb]; [|intros [= <- <-]; discriminate].
  pose proof E2 as E2'.
  unfold isCont in E2'. apply andb_true_iff in E2'. destruct E2' as [E2a E2b].
  apply Z.leb_le in E2a, E2b.
  destruct (sz <=? 3)%nat eqn:Esz3.
  { intros [= <- <-] _. pose proof Esz2 as Esz2'. pose proof Esz3 as Esz3'.
    apply Nat.leb_gt in Esz2'. apply Nat.leb_le in Esz3'.
    rewrite rune3. unfold EncodeRune, encode3, MaxRune.
    set (r := byteZ c0 mod 16 * 4096 + byteZ c1 mod 64 * 64 + byteZ c2 mod 64).
    assert (Hr : r = (byteZ c0 - 224) * 4096 + (byteZ c1 - 128) * 64 + (byteZ c2 - 128))
      by (unfold r; Z.div_mod_to_equations; lia).
    assert (Hx : forall X, (let s0 := byteZ c0 in
       if s0 <? 128 then (s0, 1%nat) else
       match first s0 with
       | Some (sz, lo, hi) =>
           let s1 := byteZ c1 in
           if (s1 <? lo) || (hi <? s1) then (RuneError, 1%nat)
           else if (sz <=? 2)%nat
                then (Z.lor (Z.shiftl (Z.land s0 31) 6) (Z.land s1 63), 2%nat)
                else
                  let s2 := byteZ c2 in
                  if negb (isCont s2) then (RuneError, 1%nat)
                  else if (sz <=? 3)%nat
                       then (Z.lor (Z.lor (Z.shiftl (Z.land s0 15) 12)
                                          (Z.shiftl (Z.land s1 63) 6))
                                   (Z.land s2 63), 3%nat)
                       else X
       | None => (RuneError, 1%nat)
       end) = (r, 3%nat)).
    { intros X. cbv zeta. rewrite Ea, Ef, E1, Esz2, E2, Esz3, rune3. reflexivity. }
    destruct (Z.leb_spec r 127); [lia|].
    destruct (Z.leb_spec r 2047); [lia|].
    destruct (Z.ltb_spec 1114111 r); [lia|].
    destruct (Z.leb_spec 55296 r); destruct (Z.leb_spec r 57343); cbn [andb orb]; try lia;
      (destruct (Z.leb_spec r 65535); [|lia]);
      rewrite shiftr_12, shiftr_6, !land_63;
      rewrite lor_224, !lor_128 by (Z.div_mod_to_equations; lia);
      cbn [takeBytes String.length];
      (split; [|split; [reflexivity|split; [lia|]]]);
      [ (f_equal; [|f_equal; [|f_equal]]); apply byteOf_eq; Z.div_mod_to_equations; lia
      | intros X; rewrite ?string_app_cons, ?string_app_nil; apply Hx
      | (f_equal; [|f_equal; [|f_equal]]); apply byteOf_eq; Z.div_mod_to_equations; lia
      | intros X; rewrite ?string_app_cons, ?string_app_nil; apply Hx ]. }
  destruct t2 as [|c3 t3]; [intros [= <- <-]; discriminate|].
  pose proof (byteZ_range c3) as H3.
  destruct (isCont (byteZ c3)) eqn:E3; cbn [negb]; [|intros [= <- <-]; discriminate].
  pose proof E3 as E3'.
  unfold isCont in E3'. apply andb_true_iff in E3'. destruct E3' as [E3a E3b].
  apply Z.leb_le in E3a, E3b.
  intros [= <- <-] _.
  pose proof Esz2 as Esz2'. pose proof Esz3 as Esz3'.
  apply Nat.leb_gt in Esz2'. apply Nat.leb_gt in Esz3'.
  rewrite rune4. unfold EncodeRune, MaxRune.
  set (r := byteZ c0 mod 8 * 262144 + byteZ c1 mod 64 * 4096 + byteZ c2 mod 64 * 64
            + byteZ c3 mod 64).
  assert (Hr : r = (byteZ c0 - 240) * 262144 + (byteZ c1 - 128) * 4096
                   + (byteZ c2 - 128) * 64 + (byteZ c3 - 128))
    by (unfold r; Z.div_mod_to_equations; lia).
  destruct (Z.leb_spec r 127); [lia|].
  destruct (Z.leb_spec r 2047); [lia|].
  destruct (Z.ltb_spec 1114111 r); [lia|].
  destruct (Z.leb_spec 55296 r); destruct (Z.leb_spec r 57343); cbn [andb orb]; try lia;
    (destruct (Z.leb_spec r 65535); [lia|]);
    rewrite shiftr_18, shiftr_12, shiftr_6, !land_63;
    rewrite lor_240, !lor_128 by (Z.div_mod_to_equations; lia);
    cbn [takeBytes String.length];
    (split; [|split; [reflexivity|split; [lia|]]]);
    [ (f_equal; [|f_equal; [|f_equal; [|f_equal]]]); apply byteOf_eq;
      Z.div_mod_to_equations; lia
    | intros X; rewrite ?string_app_cons, ?string_app_nil;
      rewrite Ea, Ef, E1, Esz2, E2, Esz3, E3, rune4; reflexivity ].
Qed.


Lemma takeBytes_dropBytes (n : nat) (s : string) : takeBytes n s +:+ dropBytes n s = s.
Proof.
  revert s. induction n as [|n IH]; intros [|c s]; try reflexivity.
  cbn [takeBytes dropBytes]. rewrite string_app_cons, IH. reflexivity.
Qed.

Lemma dropBytes_app_take (n : nat) (s X : string) :
  String.length (takeBytes n s) = n -> dropBytes n (takeBytes n s +:+ X) = X.
Proof.
  revert s. induction n as [|n IH]; intros [|c s]; cbn [takeBytes String.length];
    try reflexivity; try discriminate.
  intros [= Hl]. rewrite string_app_cons. cbn [dropBytes]. apply IH. exact Hl.
Qed.

Lemma coerce_valid (fuel : nat) (s : string) :
  validFrom fuel s = true -> coerceFrom fuel s = s.
Proof.
  revert s. induction fuel as [|fuel IH]; intros [|c t]; cbn [validFrom coerceFrom];
    try reflexivity; try discriminate.
  destruct (DecodeRuneInString (String c t)) as [r n] eqn:Ed.
  destruct ((r =? RuneError) && (n =? 1)%nat) eqn:Ev; [discriminate|].
  intros Hv. destruct (encode_decode c t r n Ed Ev) as (He & _ & _ & _).
  rewrite He, (IH _ Hv). apply takeBytes_dropBytes.
Qed.

End Utf8Facts.

(* --------------------------------------------------------------------- *)
(** ** JSON strings: encoding, then unquoting *)
(* --------------------------------------------------------------------- *)

Section JsonStrings.

(** One step of [unquoteFrom], for each kind of text that the encoder
    writes. *)
Lemma unquote_plain (c : ascii) (f : nat) (X : string) :
  byteZ c < 128 -> htmlSafe (byteZ c) = true ->
  unquoteFrom (S f) (String c X) = continueWith (String c EmptyString) (unquoteFrom f X).
Proof.
  intros Hb Hs. unfold htmlSafe in Hs.
  apply andb_true_iff in Hs. destruct Hs as [H32 Hn].
  apply Z.leb_le in H32. apply negb_true_iff in Hn.
  repeat (apply orb_false_iff in Hn; destruct Hn as [Hn ?]).
  cbn [unquoteFrom]. cbv zeta.
  destruct (Z.eqb_spec (byteZ c) 34); [congruence|].
  destruct (Z.eqb_spec (byteZ c) 92); [congruence|].
  destruct (Z.ltb_spec (byteZ c) 32); [lia|].
  destruct (Z.ltb_spec (byteZ c) 128); [|lia].
  reflexivity.
Qed.

Lemma unquote_escape (c : ascii) (f : nat) (X : string) :
  byteZ c < 128 -> htmlSafe (byteZ c) = false ->
  unquoteFrom (S f) (escapeByte (byteZ c) +:+ X)
  = continueWith (String c EmptyString) (unquoteFrom f X).
Proof.
  intros Hb Hs.
  destruct c as [b0 b1 b2 b3 b4 b5 b6 b7].
  destruct b0, b1, b2, b3, b4, b5, b6, b7;
    try (vm_compute in Hs; discriminate Hs);
    try (vm_compute in Hb; discriminate Hb);
    reflexivity.
Qed.

Lemma escapeByte_length (b : Z) : (2 <= String.length (escapeByte b))%nat.
Proof.
  unfold escapeByte.
  repeat match goal with |- context [if ?x then _ else _] => destruct x end;
    cbn [String.length]; lia.
Qed.

Lemma unquote_high (c : ascii) (f : nat) (X : string) :
  128 <= byteZ c ->
  unquoteFrom (S f) (String c X)
  = continueWith (EncodeRune (fst (DecodeRuneInString (String c X))))
      (unquoteFrom f (dropBytes (snd (DecodeRuneInString (String c X))) (String c X))).
Proof.
  intros Hb. cbn [unquoteFrom]. cbv zeta.
  destruct (Z.eqb_spec (byteZ c) 34); [lia|].
  destruct (Z.eqb_spec (byteZ c) 92); [lia|].
  destruct (Z.ltb_spec (byteZ c) 32); [lia|].
  destruct (Z.ltb_spec (byteZ c) 128); [lia|].
  destruct (DecodeRuneInString (String c X)) as [rr size]. reflexivity.
Qed.

Lemma unquote_u (h1 h2 h3 h4 : ascii) (rr : Z) (f : nat) (X : string) :
  getu4 (String backslash (String "u" (String h1 (String h2 (String h3 (String h4 X))))))
  = Some rr ->
  IsSurrogate rr = false ->
  unquoteFrom (S f)
    (String backslash (String "u" (String h1 (String h2 (String h3 (String h4 X))))))
  = continueWith (EncodeRune rr) (unquoteFrom f X).
Proof.
  intros Hg Hs. cbn [unquoteFrom]. cbv zeta.
  change (byteZ backslash =? 34) with false.
  change (byteZ backslash =? 92) with true.
  change (byteZ "u" =? 34) with false. change (byteZ "u" =? 92) with false.
  change (byteZ "u" =? 47) with false. change (byteZ "u" =? 98) with false.
  change (byteZ "u" =? 102) with false. change (byteZ "u" =? 110) with false.
  change (byteZ "u" =? 114) with false. change (byteZ "u" =? 116) with false.
  change (byteZ "u" =? 117) with true. cbv iota. cbn [orb].
  rewrite Hg, Hs. reflexivity.
Qed.

Lemma unquote_encode (fuel : nat) :
  forall s fuel2 rest,
    (String.length (encodeFrom fuel s) < fuel2)%nat ->
    unquoteFrom fuel2 (encodeFrom fuel s +:+ String dquote rest)
    = Some (coerceFrom fuel s, rest).
Proof.
  induction fuel as [|fuel IH]; intros s fuel2 rest Hlen.
  { destruct fuel2 as [|fuel2]; [lia|]. destruct s; reflexivity. }
  destruct s as [|c t].
  { destruct fuel2 as [|fuel2]; [cbn in Hlen; lia|]. reflexivity. }
  destruct fuel2 as [|fuel2]; [lia|].
  cbn [encodeFrom coerceFrom] in *. cbv zeta in *.
  destruct (Z.ltb_spec (byteZ c) 128) as [Hascii|Hhigh].
  - (* a byte below 0x80 *)
    assert (Hd : DecodeRuneInString (String c t) = (byteZ c, 1%nat)).
    { unfold DecodeRuneInString. apply Z.ltb_lt in Hascii. rewrite Hascii. reflexivity. }
    rewrite Hd. cbn [dropBytes].
    assert (He : EncodeRune (byteZ c) = String c EmptyString).
    { unfold EncodeRune. destruct (Z.leb_spec (byteZ c) 127); [|lia].
      rewrite byteOf_byteZ. reflexivity. }
    rewrite He. rewrite string_app_assoc. rewrite app_length in Hlen.
    destruct (htmlSafe (byteZ c)) eqn:Hs.
    + rewrite string_app_cons, string_app_nil.
      rewrite (unquote_plain c fuel2 _ Hascii Hs).
      rewrite IH by (cbn [String.length] in Hlen; lia). reflexivity.
    + rewrite (unquote_escape c fuel2 _ Hascii Hs).
      pose proof (escapeByte_length (byteZ c)).
      rewrite IH by lia. reflexivity.
  - (* a byte of 0x80 and above *)
    destruct (DecodeRuneInString (String c t)) as [r size] eqn:Ed.
    destruct ((r =? RuneError) && (size =? 1)%nat) eqn:Ev.
    + apply andb_true_iff in Ev. destruct Ev as [Er Es].
      apply Z.eqb_eq in Er. subst r.
      rewrite string_app_assoc, !string_app_cons, string_app_nil.
      rewrite (unquote_u "f" "f" "f" "d" RuneError fuel2 _ eq_refl eq_refl).
      rewrite app_length in Hlen. cbn [String.length] in Hlen.
      rewrite IH by lia. reflexivity.
    + destruct (encode_decode c t r size Ed Ev) as (He & Hl & Hpos & Hpre).
      destruct ((r =? 8232) || (r =? 8233)) eqn:Eu.
      * rewrite !string_app_assoc, !string_app_cons, !string_app_nil.
        rewrite !app_length in Hlen. cbn [String.length] in Hlen.
        apply orb_true_iff in Eu. destruct Eu as [Eu|Eu]; apply Z.eqb_eq in Eu; subst r.
        -- rewrite (unquote_u "2" "0" "2" "8" 8232 fuel2 _ eq_refl eq_refl).
           rewrite IH by lia. reflexivity.
        -- rewrite (unquote_u "2" "0" "2" "9" 8233 fuel2 _ eq_refl eq_refl).
           rewrite IH by lia. reflexivity.
      * rewrite string_app_assoc. rewrite app_length, Hl in Hlen.
        assert (Hc : exists t', takeBytes size (String c t) = String c t').
        { destruct size; [lia|]. cbn [takeBytes]. eauto. }
        destruct Hc as [t' Ht'].
        pose proof (Hpre (encodeFrom fuel (dropBytes size (String c t)) +:+ String dquote rest))
          as Hd'.
        rewrite Ht', string_app_cons in Hd'. rewrite Ht', string_app_cons.
        rewrite (unquote_high c fuel2 _ Hhigh). rewrite Hd'. cbn [fst snd].
        rewrite <- string_app_cons, <- Ht'.
        rewrite dropBytes_app_take by exact Hl.
        rewrite IH by lia. reflexivity.
Qed.

End JsonStrings.

(* --------------------------------------------------------------------- *)
(** ** The version on disk *)
(* --------------------------------------------------------------------- *)

Section JsonVersion.

Lemma encodeString_app (s rest : string) :
  encodeString s +:+ rest
  = String dquote (encodeFrom (String.length s) s +:+ String dquote rest).
Proof.
  unfold encodeString. rewrite string_app_cons, string_app_assoc, string_app_cons,
    string_app_nil. reflexivity.
Qed.

Lemma unquote_literal (s rest : string) :
  unquoteFrom
    (String.length (String dquote (encodeFrom (String.length s) s +:+ String dquote rest)))
    (encodeFrom (String.length s) s +:+ String dquote rest)
  = Some (coerce s, rest).
Proof.
  apply unquote_encode. cbn [String.length]. rewrite app_length. lia.
Qed.

Lemma parseValue_string (f : nat) (s rest : string) :
  parseValue (S f) (encodeString s +:+ rest) = Some (JString (coerce s), rest).
Proof.
  rewrite encodeString_app.
  transitivity
    (match unquoteFrom
             (String.length
                (String dquote (encodeFrom (String.length s) s +:+ String dquote rest)))
             (encodeFrom (String.length s) s +:+ String dquote rest) with
     | Some (t, after) => Some (JString t, after)
     | None => None
     end).
  - reflexivity.
  - rewrite unquote_literal. reflexivity.
Qed.

Lemma skipSpace_literal (s rest : string) :
  skipSpace (encodeString s +:+ rest) = encodeString s +:+ rest.
Proof. rewrite encodeString_app. reflexivity. Qed.

Lemma parseMembers_last (f : nat) (key val rest : string) :
  parseMembers (S (S f)) (encodeString key +:+ ":" +:+ encodeString val +:+ "}" +:+ rest)
  = Some ([(coerce key, JString (coerce val))], rest).
Proof.
  rewrite (encodeString_app key).
  transitivity
    (match unquoteFrom
             (String.length
                (String dquote (encodeFrom (String.length key) key +:+
                   String dquote (":" +:+ encodeString val +:+ "}" +:+ rest))))
             (encodeFrom (String.length key) key +:+
                String dquote (":" +:+ encodeString val +:+ "}" +:+ rest)) with
     | Some (k, s1) =>
         match skipSpace s1 with
         | String ":" s2 =>
             match parseValue (S f) (skipSpace s2) with
             | Some (v, s3) =>
                 match skipSpace s3 with
                 | String "," s4 =>
                     match parseMembers (S f) (skipSpace s4) with
                     | Some (ms, after) => Some ((k, v) :: ms, after)
                     | None => None
                     end
                 | String "}" after => Some ([(k, v)], after)
                 | _ => None
                 end
             | None => None
             end
         | _ => None
         end
     | None => None
     end).
  - reflexivity.
  - rewrite unquote_literal.
    change (skipSpace (":" +:+ encodeString val +:+ "}" +:+ rest))
      with (String ":" (encodeString val +:+ "}" +:+ rest)).
    cbv iota beta.
    rewrite skipSpace_literal, parseValue_string. reflexivity.
Qed.

Lemma parseMembers_cons (f : nat) (key val more rest : string)
    (ms : list (string * value)) :
  skipSpace more = more ->
  parseMembers (S f) more = Some (ms, rest) ->
  parseMembers (S (S f)) (encodeString key +:+ ":" +:+ encodeString val +:+ "," +:+ more)
  = Some ((coerce key, JString (coerce val)) :: ms, rest).
Proof.
  intros Hsp Hms. rewrite (encodeString_app key).
  transitivity
    (match unquoteFrom
             (String.length
                (String dquote (encodeFrom (String.length key) key +:+
                   String dquote (":" +:+ encodeString val +:+ "," +:+ more))))
             (encodeFrom (String.length key) key +:+
                String dquote (":" +:+ encodeString val +:+ "," +:+ more)) with
     | Some (k, s1) =>
         match skipSpace s1 with
         | String ":" s2 =>
             match parseValue (S f) (skipSpace s2) with
             | Some (v, s3) =>
                 match skipSpace s3 with
                 | String "," s4 =>
                     match parseMembers (S f) (skipSpace s4) with
                     | Some (ms, after) => Some ((k, v) :: ms, after)
                     | None => None
                     end
                 | String "}" after => Some ([(k, v)], after)
                 | _ => None
                 end
             | None => None
             end
         | _ => None
         end
     | None => None
     end).
  - reflexivity.
  - rewrite unquote_literal.
    change (skipSpace (":" +:+ encodeString val +:+ "," +:+ more))
      with (String ":" (encodeString val +:+ "," +:+ more)).
    cbv iota beta.
    rewrite skipSpace_literal, parseValue_string.
    change (skipSpace ("," +:+ more)) with (String "," more).
    cbv iota beta. rewrite Hsp, Hms. reflexivity.
Qed.

Lemma parseValue_object (f : nat) (key more rest : string) (ms : list (string * value)) :
  parseMembers f (encodeString key +:+ more) = Some (ms, rest) ->
  parseValue (S f) ("{" +:+ encodeString key +:+ more) = Some (JObject ms, rest).
Proof.
  intros Hms. rewrite encodeString_app in *.
  transitivity
    (match parseMembers f
             (String dquote (encodeFrom (String.length key) key +:+ String dquote more)) with
     | Some (ms, after) => Some (JObject ms, after)
     | None => None
     end).
  - reflexivity.
  - rewrite Hms. reflexivity.
Qed.


Lemma Marshal_Version_length (v : Version) :
  (6 <= String.length (Marshal_Version v))%nat.
Proof.
  unfold Marshal_Version. rewrite !app_length. unfold encodeString.
  cbn [String.length]. lia.
Qed.

Lemma parse_Marshal_Version (v : Version) :
  Json.parse (Marshal_Version v)
  = Ok (JObject [("created_at", JString (coerce (Actions.CreatedAt v)));
                 ("pr_id", JString (coerce (PrID v)));
                 ("review_id", JString (coerce (ReviewID v)));
                 ("comment_id", JString (coerce (CommentID v)))]).
Proof.
  unfold Json.parse.
  assert (Hsk : skipSpace (Marshal_Version v) = Marshal_Version v) by reflexivity.
  rewrite Hsk.
  pose proof (Marshal_Version_length v) as Hlen.
  destruct (String.length (Marshal_Version v)) as [|[|[|[|[|[|k]]]]]]; try lia.
  unfold Marshal_Version.
  rewrite (parseValue_object _ "created_at" _ EmptyString
             [("created_at", JString (coerce (Actions.CreatedAt v)));
              ("pr_id", JString (coerce (PrID v)));
              ("review_id", JString (coerce (ReviewID v)));
              ("comment_id", JString (coerce (CommentID v)))]).
  - reflexivity.
  - change "created_at" with (coerce "created_at") at 2.
    apply parseMembers_cons; [apply skipSpace_literal|].
    change "pr_id" with (coerce "pr_id") at 2.
    apply parseMembers_cons; [apply skipSpace_literal|].
    change "review_id" with (coerce "review_id") at 2.
    apply parseMembers_cons; [apply skipSpace_literal|].
    change "comment_id" with (coerce "comment_id") at 2.
    apply (parseMembers_last _ "comment_id" (CommentID v) EmptyString).
Qed.

(** What the out step reads back from what the in step wrote, for every
    version: the version with its fields coerced to valid UTF-8. *)
Lemma Unmarshal_Marshal_Version (v : Version) :
  Unmarshal_Version (Marshal_Version v) = Ok (coerceVersion v).
Proof.
  unfold Unmarshal_Version. rewrite parse_Marshal_Version. reflexivity.
Qed.

Lemma coerceVersion_valid (v : Version) : validUTF8 v -> coerceVersion v = v.
Proof.
  intros (Ha & Hb & Hc & Hd). destruct v as [a b c d]. unfold coerceVersion, coerce.
  cbn [Actions.CreatedAt PrID ReviewID CommentID] in *.
  unfold ValidString in *.
  rewrite !coerce_valid by assumption. reflexivity.
Qed.

(** The out step returns the version that it unmarshals from version.json. *)
Lemma Out_returns_stored_version {R F : Type} `{GoGithub R} `{FileSystem F}
    (lib : GoLib) (env : gmap string string) (fs : F) (inputDir : string)
    (req : OutRequest) (remote remote' : R) (resp : OutResponse) (v : Version) :
  ReadFile (filepath_Join lib
              [filepath_Join lib [inputDir; Path (OutRequest_Params req)];
               "version.json"]) fs
  = Ok (Marshal_Version v) ->
  Out lib env fs inputDir req remote = (Ok resp, remote') ->
  OutResponse_Version resp = coerceVersion v.
Proof.
  intros Hread. unfold Out, bindIO, pureIO.
  destruct (wrapErr "invalid parameters: " (Validate lib (OutRequest_Params req)));
    try discriminate.
  rewrite Hread. cbn [wrapErr]. rewrite Unmarshal_Marshal_Version. cbn [wrapErr].
  repeat match goal with
         | |- context [match ?x with _ => _ end] =>
             match x with
             | context [match _ with _ => _ end] => fail 1
             | _ => destruct x
             end
         end; try discriminate; intros [= <- _]; reflexivity.
Qed.

End JsonVersion.




(* ===================================================================== *)
(** * Further properties of the program *)
(* ===================================================================== *)

(** Steps of a call that threads a state. *)
Lemma bindIO_pure {S A B} (r : result A) (k : A -> io S B) (s : S) :
  (do! x := pureIO r in k x) s =
  match r with
  | Ok a => k a s
  | Err e => (Err e, s)
  | Panic m => (Panic m, s)
  end.
Proof. unfold bindIO, pureIO. destruct r; reflexivity. Qed.

Lemma bindIO_inv {S A B} (m : io S A) (k : A -> io S B) (s s' : S) (b : B) :
  bindIO m k s = (Ok b, s') ->
  exists a s1, m s = (Ok a, s1) /\ k a s1 = (Ok b, s').
Proof.
  unfold bindIO. destruct (m s) as [[a|e|msg] s1]; try discriminate.
  intros E. exists a, s1. split; [reflexivity | exact E].
Qed.

Lemma deref_Ok {A} (p : option A) (a : A) : deref p = Ok a -> p = Some a.
Proof. destruct p; [intros [= ->]; reflexivity | discriminate]. Qed.

Lemma option_list_Some {A} (x : A) : option_list (Some x) = [x].
Proof. reflexivity. Qed.

(* --------------------------------------------------------------------- *)
(** ** The label filter *)
(* --------------------------------------------------------------------- *)

Lemma rangeLabels_spec (labels : list (option Label)) (rl : string) :
  rangeLabels labels rl = true <-> hasLabel labels rl.
Proof.
  unfold hasLabel. induction labels as [|rr labels IH]; cbn [rangeLabels].
  - split; [discriminate | intros (l & [] & _)].
  - destruct (String.eqb_spec rl (GetName rr)) as [->|Hne].
    + split; [|reflexivity]. intros _. exists rr. split; [left|]; reflexivity.
    + rewrite IH. split.
      * intros (l & Hin & Hl). exists l. split; [right; exact Hin | exact Hl].
      * intros (l & [<-|Hin] & Hl); [congruence|]. exists l. split; assumption.
Qed.

Lemma rangeRequested_spec (requested : list string) (labels : list (option Label))
    (v ret : bool) :
  rangeRequested requested labels v ret =
  if existsb (rangeLabels labels) requested then v else ret.
Proof.
  induction requested as [|rl requested IH]; cbn [rangeRequested existsb]; [reflexivity|].
  destruct (rangeLabels labels rl); [reflexivity | exact IH].
Qed.

(** X1. The label predicate accepts the labels of a pull request exactly when
    [labels] is empty or names one of them, and [ignore_labels] names none
    of them. *)
Theorem requestsLabels_allow_minus_deny (source : Source) (labels : list (option Label)) :
  requestsLabels source labels = true <->
  (Actions.Labels source = [] \/
   exists rl, List.In rl (Actions.Labels source) /\ hasLabel labels rl)
  /\ ~ (exists rl, List.In rl (IgnoreLabels source) /\ hasLabel labels rl).
Proof.
  assert (Hex : forall l,
    existsb (rangeLabels labels) l = true <-> exists rl, List.In rl l /\ hasLabel labels rl).
  { intros l. rewrite existsb_exists. split; intros (rl & Hin & Hl); exists rl;
      (split; [exact Hin | apply rangeLabels_spec; exact Hl]). }
  unfold requestsLabels. rewrite !rangeRequested_spec.
  destruct (existsb _ (IgnoreLabels source)) eqn:Ei.
  - apply Hex in Ei. split; [discriminate | tauto].
  - assert (Hni : ~ exists rl, List.In rl (IgnoreLabels source) /\ hasLabel labels rl).
    { intros Hc. apply Hex in Hc. congruence. }
    destruct (Actions.Labels source) as [|c l] eqn:Ec; cbn [length Nat.eqb].
    + tauto.
    + destruct (existsb _ (c :: l)) eqn:Ea.
      * apply Hex in Ea. tauto.
      * split; [discriminate|]. intros [[Hc|Hc] _]; [discriminate|].
        apply Hex in Hc. congruence.
Qed.

(* --------------------------------------------------------------------- *)
(** ** Metadata: lookup after insertion *)
(* --------------------------------------------------------------------- *)

(** X3. [Get] returns the value of the first field of the name, so a field
    that [Add] appends is found only when no earlier field has its name, and
    the lookup of any other name is not affected; a nil element that the
    search reaches is dereferenced. *)
Theorem Metadata_Get_Add (m : Metadata) (name value name' : string) :
  Metadata_Get (Metadata_Add m name value) name' =
  match Metadata_Get m name' with
  | Err _ =>
      if String.eqb name' name then Ok value
      else Err (Errorf ("metadata index does not exist: " +:+ name'))
  | found => found
  end.
Proof.
  unfold Metadata_Add. induction m as [|p m IH]; cbn [app Metadata_Get].
  - cbn [deref Go.bind Name Value]. reflexivity.
  - destruct p as [i|]; cbn [deref Go.bind]; [|reflexivity].
    destruct (String.eqb name' (Name i)); [reflexivity | exact IH].
Qed.

(* --------------------------------------------------------------------- *)
(** ** The name of the repository *)
(* --------------------------------------------------------------------- *)

Section SplitFacts.
Variable sep : ascii.

Lemma Split_nonempty (s : string) : Split s sep <> [].
Proof.
  destruct s as [|c s]; cbn [Split]; [discriminate|].
  destruct (Ascii.eqb c sep); [discriminate|].
  destruct (Split s sep); discriminate.
Qed.

Lemma Split_no_sep (s : string) : hasByte sep s = false -> Split s sep = [s].
Proof.
  induction s as [|c s IH]; cbn [hasByte Split]; [reflexivity|].
  intros Hs. apply orb_false_iff in Hs. destruct Hs as [Hc Hs].
  rewrite Hc, (IH Hs). reflexivity.
Qed.

Lemma Split_at_sep (a rest : string) :
  hasByte sep a = false ->
  Split (a +:+ String sep rest) sep = a :: Split rest sep.
Proof.
  induction a as [|c a IH]; cbn [hasByte]; intros Ha.
  - rewrite string_app_nil. cbn [Split]. rewrite Ascii.eqb_refl. reflexivity.
  - apply orb_false_iff in Ha. destruct Ha as [Hc Ha].
    rewrite string_app_cons. cbn [Split]. rewrite Hc, (IH Ha). reflexivity.
Qed.

(** The first part of a split holds no separator, and the parts after it
    are the split of what follows the first separator. *)
Lemma Split_inv (s : string) :
  forall p ps, Split s sep = p :: ps ->
    hasByte sep p = false
    /\ ((ps = [] /\ s = p)
        \/ exists rest, s = p +:+ String sep rest /\ Split rest sep = ps).
Proof.
  induction s as [|c s IH]; intros p ps; cbn [Split].
  - intros [= <- <-]. split; [reflexivity|]. left. split; reflexivity.
  - destruct (Ascii.eqb_spec c sep) as [->|Hne].
    + intros [= <- <-]. split; [reflexivity|]. right. exists s.
      rewrite string_app_nil. split; reflexivity.
    + destruct (Split s sep) as [|q qs] eqn:Es; [destruct (Split_nonempty s Es)|].
      intros [= <- <-]. destruct (IH q qs eq_refl) as (Hq & Hs).
      split.
      * cbn [hasByte]. rewrite Hq. destruct (Ascii.eqb_spec c sep); [contradiction|reflexivity].
      * destruct Hs as [[-> ->]|(rest & -> & Hr)].
        -- left. split; reflexivity.
        -- right. exists rest. rewrite string_app_cons. split; [reflexivity | exact Hr].
Qed.

End SplitFacts.

(** X12. The repository is accepted exactly when it is an owner and a name with
    one slash between them, neither of them holding a slash (either of them
    may be empty); every other string is the error "malformed repository". *)
Theorem parseRepository_spec (s : string) :
  (forall owner repository,
     parseRepository s = Ok (owner, repository) <->
     s = owner +:+ "/" +:+ repository
     /\ hasByte "/" owner = false /\ hasByte "/" repository = false)
  /\ ((exists owner repository, parseRepository s = Ok (owner, repository))
      \/ parseRepository s = Err (Errorf "malformed repository")).
Proof.
  split.
  - intros owner repository. unfold parseRepository. split.
    + destruct (Split s "/") as [|p [|q [|r rs]]] eqn:Es; try discriminate.
      intros [= <- <-].
      destruct (Split_inv "/" s _ _ Es) as (Hp & [[? _]|(rest & -> & Hr)]);
        [discriminate|].
      destruct (Split_inv "/" rest _ _ Hr) as (Hq & [[_ ->]|(rest' & _ & Hr')]).
      * repeat split; assumption.
      * destruct (Split_nonempty "/" rest' Hr').
    + intros (-> & Ho & Hr).
      change ("/" +:+ repository) with (String "/" repository).
      rewrite (Split_at_sep "/" owner repository Ho), (Split_no_sep "/" repository Hr).
      reflexivity.
  - unfold parseRepository.
    destruct (Split s "/") as [|p [|q [|r rs]]]; try (right; reflexivity).
    left. exists p, q. reflexivity.
Qed.

(* --------------------------------------------------------------------- *)
(** ** Identifiers as decimal text *)
(* --------------------------------------------------------------------- *)

Section DecimalText.

Lemma digits_all_digit (s : string) :
  forall acc v c, digits s acc = Some v -> isDigit c = false -> hasByte c s = false.
Proof.
  induction s as [|d s IH]; intros acc v c; cbn [digits hasByte]; [reflexivity|].
  destruct (isDigit d) eqn:Ed; [|discriminate]. intros Hd Hc.
  rewrite (IH _ _ _ Hd Hc). destruct (Ascii.eqb_spec d c) as [->|]; [congruence|reflexivity].
Qed.

Lemma string_of_uint_nonempty (p : positive) :
  NilEmpty.string_of_uint (Pos.to_uint p) <> "".
Proof.
  pose proof (Unsigned.to_uint_nonnil p) as Hp.
  destruct (Pos.to_uint p); [congruence | discriminate ..].
Qed.

Lemma digits_head (s : string) (v : Z) :
  digits s 0 = Some v -> s <> "" -> exists c s', s = String c s' /\ isDigit c = true.
Proof.
  destruct s as [|c s']; [congruence|]. cbn [digits].
  destruct (isDigit c) eqn:Ec; [|discriminate]. intros _ _. exists c, s'.
  split; [reflexivity | exact Ec].
Qed.

(** What [FormatInt] writes for a number of the 64-bit range, [ParseInt]
    and [Atoi] read back as that number. *)
Lemma parseInt64_FormatInt (fn : string) (n : Z) :
  - 2 ^ 63 <= n < 2 ^ 63 -> parseInt64 fn (FormatInt n) = Ok n.
Proof.
  intros Hn. destruct n as [|p|p].
  - reflexivity.
  - pose proof (digits_FormatInt (Z.pos p) ltac:(lia)) as Hd.
    assert (Hne : FormatInt (Z.pos p) <> "") by apply FormatInt_nonempty.
    destruct (digits_head _ _ Hd Hne) as (c & s' & Es & Hc).
    unfold parseInt64. rewrite Es in *.
    assert (Hplus : c <> "+"%char) by (intros ->; discriminate Hc).
    assert (Hminus : c <> "-"%char) by (intros ->; discriminate Hc).
    replace (match String c s' with
             | String "+" s'0 => (false, s'0)
             | String "-" s'0 => (true, s'0)
             | _ => (false, String c s')
             end) with (false, String c s').
    2:{ destruct c as [[] [] [] [] [] [] [] []]; try reflexivity; congruence. }
    rewrite Hd. cbn [negb andb].
    destruct (2 ^ 63 <=? Z.pos p) eqn:E; [apply Z.leb_le in E; lia | reflexivity].
  - unfold FormatInt. cbn [Z.to_int NilEmpty.string_of_int].
    pose proof (digits_FormatInt (Z.pos p) ltac:(lia)) as Hd.
    unfold FormatInt in Hd. cbn [Z.to_int NilEmpty.string_of_int] in Hd.
    pose proof (string_of_uint_nonempty p) as Hne.
    unfold parseInt64.
    destruct (NilEmpty.string_of_uint (Pos.to_uint p)) as [|c s'] eqn:Es; [congruence|].
    rewrite Hd. cbn [negb andb].
    destruct (2 ^ 63 <? Z.pos p) eqn:E; [apply Z.ltb_lt in E; lia | reflexivity].
Qed.

(** A number that [ParseInt] or [Atoi] returns is in the 64-bit range. *)
Lemma parseInt64_range (fn s : string) (n : Z) :
  parseInt64 fn s = Ok n -> - 2 ^ 63 <= n < 2 ^ 63.
Proof.
  unfold parseInt64.
  destruct (match s with
            | String "+" s' => (false, s')
            | String "-" s' => (true, s')
            | _ => (false, s)
            end) as [neg body].
  destruct body as [|c body']; [discriminate|].
  destruct (digits (String c body') 0) as [un|] eqn:Ed; [|discriminate].
  pose proof (digits_bound _ _ Ed) as [Hun _].
  destruct neg; cbn [negb andb].
  - destruct (2 ^ 63 <? un) eqn:E; [discriminate|]. apply Z.ltb_ge in E.
    intros [= <-]. lia.
  - destruct (2 ^ 63 <=? un) eqn:E; [discriminate|]. apply Z.leb_gt in E.
    intros [= <-]. lia.
Qed.

End DecimalText.

(* --------------------------------------------------------------------- *)
(** ** The association and review-state filters *)
(* --------------------------------------------------------------------- *)

(** X2. Both filters compare in lower case. The association filter accepts
    every association when [commenter_association] is empty or is exactly
    the one entry "all", written so; in a longer list "all" is an
    association like the others. The review-state filter accepts nothing
    when [review_states] is empty. *)
Theorem association_and_review_state_filters (lib : GoLib) (source : Source) :
  (forall assoc,
     requestsCommenterAssociation lib source assoc = true <->
     CommenterAssociation source = [] \/ CommenterAssociation source = ["all"]
     \/ exists a, List.In a (CommenterAssociation source)
                  /\ strings_ToLower lib assoc = strings_ToLower lib a)
  /\ (forall state,
      requestsReviewState lib source state = true <->
      exists s, List.In s (ReviewStates source)
                /\ strings_ToLower lib state = strings_ToLower lib s).
Proof.
  assert (Hex : forall x l,
    existsb (fun a => String.eqb (strings_ToLower lib x) (strings_ToLower lib a)) l = true
    <-> exists a, List.In a l /\ strings_ToLower lib x = strings_ToLower lib a).
  { intros x l. rewrite existsb_exists.
    split; intros (a & Hin & Ha); exists a; (split; [exact Hin|]);
      apply String.eqb_eq; exact Ha. }
  split.
  - intros assoc. unfold requestsCommenterAssociation.
    destruct (CommenterAssociation source) as [|a [|b l]] eqn:Ec.
    + split; [intros _; left; reflexivity | reflexivity].
    + destruct (String.eqb_spec a "all") as [->|Hne].
      * split; [intros _; right; left; reflexivity | reflexivity].
      * rewrite Hex. split; [intros Hx; right; right; exact Hx|].
        intros [?|[[= ?]|Hx]]; [discriminate | contradiction | exact Hx].
    + rewrite Hex. split; [intros Hx; right; right; exact Hx|].
      intros [?|[?|Hx]]; [discriminate | discriminate | exact Hx].
  - intros state. unfold requestsReviewState. apply Hex.
Qed.

(* --------------------------------------------------------------------- *)
(** ** The client *)
(* --------------------------------------------------------------------- *)

(** X13. The client is made from the repository first: a repository that is
    not an owner and a name gives "malformed repository", whatever the
    endpoint is. An endpoint that is not empty is parsed next, and the error
    of the parser is wrapped. The client that is made names the owner and
    the repository of the configuration. *)
Theorem NewGithubClient_spec {R : Type} `{GoGithub R} (lib : GoLib)
    (repo accessToken : string) (skipSSL : bool) (githubEndpoint : string) :
  (forall c,
     NewGithubClient lib repo accessToken skipSSL githubEndpoint = Ok c ->
     repo = Owner c +:+ "/" +:+ Api.Repository c
     /\ (githubEndpoint <> "" ->
         exists u, url_Parse lib githubEndpoint = Ok u
                   /\ NewEnterpriseClient (URL_String u) = None))
  /\ (parseRepository repo = Err (Errorf "malformed repository") ->
      NewGithubClient lib repo accessToken skipSSL githubEndpoint
      = Err (Errorf "malformed repository"))
  /\ (forall owner repository e,
      parseRepository repo = Ok (owner, repository) ->
      githubEndpoint <> "" -> url_Parse lib githubEndpoint = Err e ->
      NewGithubClient lib repo accessToken skipSSL githubEndpoint
      = Err (Errorf ("failed to parse v3 endpoint: " +:+ Error e))).
Proof.
  unfold NewGithubClient. split; [|split].
  - intros c. destruct (parseRepository repo) as [[owner repository]| |] eqn:Ep;
      cbn [Go.bind]; try discriminate.
    assert (Hrepo : repo = owner +:+ "/" +:+ repository).
    { unfold parseRepository in Ep.
      destruct (Split repo "/") as [|p [|q [|r rs]]] eqn:Es; try discriminate.
      injection Ep as <- <-.
      destruct (Split_inv "/" repo _ _ Es) as (_ & [[? _]|(rest & -> & Hr)]);
        [discriminate|].
      destruct (Split_inv "/" rest _ _ Hr) as (_ & [[_ ->]|(rest' & _ & Hr')]);
        [reflexivity | destruct (Split_nonempty "/" rest' Hr')]. }
    destruct (String.eqb_spec githubEndpoint "") as [He|He]; cbn [negb Go.bind].
    + intros [= <-]. split; [exact Hrepo | contradiction].
    + destruct (url_Parse lib githubEndpoint) as [u| |]; cbn [Go.bind]; try discriminate.
      destruct (NewEnterpriseClient (URL_String u)) eqn:En; cbn [Go.bind];
        try discriminate.
      intros [= <-]. split; [exact Hrepo|]. intros _. exists u. split; [reflexivity | exact En].
  - intros ->. reflexivity.
  - intros owner repository e -> He Hu. cbn [Go.bind].
    destruct (String.eqb_spec githubEndpoint ""); [contradiction|]. cbn [negb].
    rewrite Hu. reflexivity.
Qed.

(* --------------------------------------------------------------------- *)
(** ** Fields that the remote leaves out *)
(* --------------------------------------------------------------------- *)

Lemma defaultWhen_requests (source : Source) :
  (forall state, requestsState (defaultWhen source) state = requestsState source state)
  /\ (forall labels, requestsLabels (defaultWhen source) labels = requestsLabels source labels)
  /\ OnlyMergeable (defaultWhen source) = OnlyMergeable source.
Proof.
  unfold defaultWhen. destruct (String.length (When source) =? 0)%nat;
    (split; [|split]); reflexivity.
Qed.

(** X11. With [only_mergeable] set the check reads the field [mergeable] of
    every pull request whose state and labels are requested. When the
    remote leaves that field out for the first pull request it lists, the
    check does not skip the pull request: it stops with the panic of a nil
    pointer dereference. *)
Theorem check_only_mergeable_needs_field {R : Type} `{GoGithub R} (lib : GoLib)
    (remote : R) (req : CheckRequest) (client : GithubClient)
    (pull : PullRequest) (rest : list PullRequest) (state : string) :
  NewGithubClient lib
    (Actions.Repository (CheckRequest_Source req)) (AccessToken (CheckRequest_Source req))
    (SkipSSLVerification (CheckRequest_Source req)) (GithubEndpoint (CheckRequest_Source req))
  = Ok client ->
  ListPullRequests client remote = Ok (pull :: rest) ->
  OnlyMergeable (CheckRequest_Source req) = true ->
  State pull = Some state ->
  requestsState (CheckRequest_Source req) state = true ->
  requestsLabels (CheckRequest_Source req) (Api.Labels pull) = true ->
  Mergeable pull = None ->
  Check lib remote req = Panic nilDeref.
Proof.
  intros Hc Hl Ho Hs Hrs Hrl Hm. unfold Check, collect. rewrite Hc. cbn [Go.bind].
  rewrite Hl. cbn [Go.bind pullsLoop]. unfold skipPull.
  destruct (defaultWhen_requests (CheckRequest_Source req)) as (E1 & E2 & E3).
  rewrite Hs. cbn [deref Go.bind]. rewrite E1, E2, E3, Hrs, Hrl, Ho, Hm. reflexivity.
Qed.

(* --------------------------------------------------------------------- *)
(** ** The selection modes *)
(* --------------------------------------------------------------------- *)

Section SelectionModes.
Variable lib : GoLib.
Variable source : Source.
Variable pull : PullRequest.
Variable number : Z.
Hypothesis Hnumber : Number pull = Some number.

Lemma selectedInLoop_cons (v : Version) (passing : list Version) :
  (if whenAllOrFirst source then [v] else []) ++
  (if String.eqb (When source) "first" then []
   else selectedInLoop (When source) passing)
  = selectedInLoop (When source) (v :: passing).
Proof.
  unfold whenAllOrFirst, selectedInLoop.
  destruct (String.eqb_spec (When source) "all") as [E|E]; [rewrite E; reflexivity|].
  destruct (String.eqb (When source) "first"); reflexivity.
Qed.

(** The loop over the comments appends the passing versions that the mode
    selects. *)
Lemma commentsLoop_selected (comments : list IssueComment) :
  Forall populated comments ->
  forall vars b, exists vars' b',
    commentsLoop lib source pull comments vars b = Ok (vars', b')
    /\ versions vars' = versions vars
         ++ selectedInLoop (When source) (passingComments lib source number comments).
Proof.
  induction 1 as [|c rest Hc Hrest IH]; intros vars b.
  - exists vars, b. split; [reflexivity|].
    unfold selectedInLoop. cbn.
    destruct (String.eqb (When source) "all"), (String.eqb (When source) "first");
      cbn; rewrite app_nil_r; reflexivity.
  - destruct Hc as ([assoc Ha] & [body Hb] & [t Ht] & [id Hid]).
    cbn [commentsLoop]. rewrite Ha, Hb. cbn [deref Go.bind].
    assert (Hp : passes lib source c =
                 requestsCommenterAssociation lib source assoc
                 && requestsCommentRegex lib source body).
    { unfold passes. rewrite Ha, Hb. reflexivity. }
    assert (Hv : commentVersion number c =
                 Some {| Actions.CreatedAt := FormatInt (Unix t);
                         PrID := Itoa number; ReviewID := "";
                         CommentID := FormatInt id |}).
    { unfold commentVersion. rewrite Ht, Hid. reflexivity. }
    unfold passingComments. cbn [flat_map]. fold (passingComments lib source number rest).
    rewrite Hp, Hv.
    destruct (requestsCommenterAssociation lib source assoc) eqn:Ea; cbn [negb andb];
      [|apply IH].
    destruct (requestsCommentRegex lib source body) eqn:Eb; cbn [negb];
      [|apply IH].
    rewrite Ht, Hnumber, Hid. cbn [deref Go.bind]. rewrite option_list_Some. cbn [app].
    rewrite <- selectedInLoop_cons.
    destruct (String.eqb (When source) "first") eqn:Ef.
    + eexists _, _. split; [reflexivity|]. cbn [versions].
      destruct (whenAllOrFirst source); rewrite !app_nil_r; reflexivity.
    + match goal with |- context [commentsLoop _ _ _ rest ?v true] =>
        destruct (IH v true) as (vars' & b' & E & Hvs) end.
      exists vars', b'. split; [exact E|]. rewrite Hvs. cbn [versions].
      destruct (whenAllOrFirst source); rewrite <- ?app_assoc; reflexivity.
Qed.

Lemma saveLatest_other (vars : checkVars) (b : bool) :
  When source <> "latest" -> saveLatest source vars b = Ok vars.
Proof.
  intros Hw. unfold saveLatest.
  destruct (String.eqb_spec (When source) "latest"); [contradiction | reflexivity].
Qed.

(** X5. In every selection mode but "latest" the comment track adds, in the
    order of the comments, the versions of all comments that pass both
    predicates (mode "all"), of the first of them only (mode "first"), or
    nothing (any other mode). *)
Theorem commentTrack_all_first (comments : list IssueComment) (vars : checkVars) :
  When source <> "latest" ->
  Forall populated comments ->
  exists vars',
    commentTrack lib source pull comments vars = Ok vars'
    /\ versions vars' = versions vars
         ++ selectedInLoop (When source) (passingComments lib source number comments).
Proof.
  intros Hw Hpop.
  destruct (commentsLoop_selected comments Hpop vars false) as (vars' & b' & E & Hvs).
  exists vars'. unfold commentTrack. rewrite E. cbn [Go.bind fst snd].
  split; [apply saveLatest_other; exact Hw | exact Hvs].
Qed.

(** The loop over the reviews. *)
Lemma reviewsLoop_selected (reviews : list PullRequestReview) :
  Forall populatedReview reviews ->
  forall vars b, exists vars' b',
    reviewsLoop lib source pull reviews vars b = Ok (vars', b')
    /\ versions vars' = versions vars
         ++ selectedInLoop (When source) (passingReviews lib source number reviews)
    /\ (String.eqb (When source) "first" = false ->
        b' = match last reviews with
             | Some r => passesReview lib source r
             | None => b
             end
        /\ (forall r, last reviews = Some r -> passesReview lib source r = true ->
            version vars' = reviewVersion number r)).
Proof.
  induction 1 as [|r rest Hr Hrest IH]; intros vars b.
  - exists vars, b. split; [reflexivity|]. split.
    + unfold selectedInLoop. cbn.
      destruct (String.eqb (When source) "all"), (String.eqb (When source) "first");
        cbn; rewrite app_nil_r; reflexivity.
    + intros _. split; [reflexivity|]. intros r Hl. discriminate.
  - destruct Hr as ([state Hs] & [body Hb] & [t Ht] & [id Hid]).
    cbn [reviewsLoop]. rewrite Hs, Hb. cbn [deref Go.bind].
    assert (Hp : passesReview lib source r =
                 requestsReviewState lib source state
                 && requestsCommentRegex lib source body).
    { unfold passesReview. rewrite Hs, Hb. reflexivity. }
    assert (Hv : reviewVersion number r =
                 Some {| Actions.CreatedAt := FormatInt (Unix t);
                         PrID := Itoa number; ReviewID := FormatInt id;
                         CommentID := "" |}).
    { unfold reviewVersion. rewrite Ht, Hid. reflexivity. }
    unfold passingReviews. cbn [flat_map]. fold (passingReviews lib source number rest).
    rewrite last_cons.
    destruct (passesReview lib source r) eqn:Ep.
    2:{ destruct (IH vars false) as (vars' & b' & E & Hvs & Hl).
        exists vars', b'. split; [|split; [exact Hvs|]].
        - destruct (requestsReviewState lib source state); cbn [negb]; [|exact E].
          destruct (requestsCommentRegex lib source body); cbn [negb]; [|exact E].
          discriminate Hp.
        - intros Hnf. destruct (Hl Hnf) as [Hb' Hver]. split.
          + rewrite Hb'. destruct (last rest); [reflexivity | symmetry; exact Ep].
          + intros r'. destruct (last rest) eqn:El.
            * apply Hver.
            * intros [= <-]. rewrite Ep. discriminate. }
    symmetry in Hp. apply andb_true_iff in Hp. destruct Hp as [Ea Eb].
    rewrite Ea, Eb, Hv. cbn [negb].
    rewrite Ht, Hnumber, Hid. cbn [deref Go.bind]. rewrite option_list_Some. cbn [app].
    rewrite <- selectedInLoop_cons.
    destruct (String.eqb (When source) "first") eqn:Ef.
    + eexists _, _. split; [reflexivity|]. split; [|discriminate]. cbn [versions].
      destruct (whenAllOrFirst source); rewrite !app_nil_r; reflexivity.
    + match goal with |- context [reviewsLoop _ _ _ rest ?v true] =>
        destruct (IH v true) as (vars' & b' & E & Hvs & Hl) end.
      exists vars', b'. split; [exact E|]. split.
      * rewrite Hvs. cbn [versions].
        destruct (whenAllOrFirst source); rewrite <- ?app_assoc; reflexivity.
      * intros _. destruct (Hl eq_refl) as [Hb' Hver]. split.
        -- rewrite Hb'. destruct (last rest); [reflexivity | symmetry; exact Ep].
        -- intros r'. destruct (last rest) eqn:El.
           ++ apply Hver.
           ++ intros [= <-] _. rewrite Hv.
              destruct rest as [|r2 rest2].
              ** cbn in E. injection E as <- _. reflexivity.
              ** rewrite last_cons in El. destruct (last rest2); discriminate.
Qed.

(** X6. The review track of a pull request adds, in the order of the reviews,
    the versions of all reviews that pass the review-state predicate and the
    comment-text predicate (mode "all"), of the first of them (mode
    "first"), of the last review if it passes (mode "latest"), or nothing
    (any other mode). *)
Theorem reviewTrack_modes (reviews : list PullRequestReview) (vars : checkVars) :
  Forall populatedReview reviews ->
  exists vars',
    reviewTrack lib source pull reviews vars = Ok vars'
    /\ versions vars' = versions vars
         ++ (if String.eqb (When source) "latest"
             then latestReviewEmitted lib source number reviews
             else selectedInLoop (When source) (passingReviews lib source number reviews)).
Proof.
  intros Hpop.
  destruct (reviewsLoop_selected reviews Hpop vars false) as (vars' & b' & E & Hvs & Hl).
  unfold reviewTrack. rewrite E. cbn [Go.bind fst snd].
  destruct (String.eqb_spec (When source) "latest") as [Hw|Hw].
  - unfold saveLatest. rewrite Hw in *. cbn [String.eqb Ascii.eqb Bool.eqb andb] in *.
    destruct (Hl eq_refl) as [-> Hver].
    unfold selectedInLoop in Hvs. cbn in Hvs. rewrite app_nil_r in Hvs.
    unfold latestReviewEmitted. destruct (last reviews) as [r|] eqn:El.
    + destruct (passesReview lib source r) eqn:Ep.
      * rewrite (Hver r eq_refl Ep).
        apply last_Some_elem_of in El. rewrite Forall_forall in Hpop.
        destruct (Hpop r El) as (_ & _ & [t Ht] & [id Hid]).
        unfold reviewVersion. rewrite Ht, Hid. cbn [deref Go.bind option_list].
        eexists. split; [reflexivity|]. cbn [versions]. rewrite Hvs. reflexivity.
      * exists vars'. split; [reflexivity|]. rewrite app_nil_r. exact Hvs.
    + exists vars'. split; [reflexivity|]. rewrite app_nil_r. exact Hvs.
  - exists vars'. split; [apply saveLatest_other; exact Hw | exact Hvs].
Qed.

End SelectionModes.

(* --------------------------------------------------------------------- *)
(** ** Where the versions of check come from *)
(* --------------------------------------------------------------------- *)

Lemma skipPull_false (source : Source) (pull : PullRequest) :
  skipPull source pull = Ok false <-> eligible source pull.
Proof.
  unfold skipPull, eligible. split.
  - destruct (State pull) as [state|]; cbn [deref Go.bind]; [|discriminate].
    destruct (requestsState source state) eqn:Es; cbn [negb]; [|discriminate].
    destruct (requestsLabels source (Api.Labels pull)) eqn:El; cbn [negb]; [|discriminate].
    destruct (OnlyMergeable source) eqn:Eo.
    + destruct (Mergeable pull) as [[|]|]; cbn [deref Go.bind negb]; try discriminate.
      destruct (Draft pull) as [[|]|]; cbn [deref Go.bind]; try discriminate.
      intros _. exists state. repeat split; auto.
    + cbn [Go.bind].
      destruct (Draft pull) as [[|]|]; cbn [deref Go.bind]; try discriminate.
      intros _. exists state. repeat split; auto. discriminate.
  - intros (state & Hs & Hrs & Hl & Hm & Hd).
    rewrite Hs. cbn [deref Go.bind]. rewrite Hrs, Hl. cbn [negb].
    destruct (OnlyMergeable source); [rewrite (Hm eq_refl)|];
      cbn [deref Go.bind negb]; rewrite Hd; reflexivity.
Qed.

Section Sourced.
Variable lib : GoLib.
Variable source : Source.
Variable P : Version -> Prop.

Lemma varsHold_push (vars : checkVars) (v : Version) :
  varsHold P vars -> P v ->
  varsHold P {| versions := if whenAllOrFirst source then versions vars ++ [v]
                            else versions vars;
                version := Some v |}.
Proof.
  intros [Hvs Hv] Hp. split; cbn.
  - destruct (whenAllOrFirst source); [|exact Hvs].
    apply Forall_app. split; [exact Hvs|]. constructor; [exact Hp | constructor].
  - intros v' [= <-]. exact Hp.
Qed.

Lemma commentsLoop_hold (pull : PullRequest) (number : Z) (comments : list IssueComment) :
  Number pull = Some number ->
  (forall c v, List.In c comments -> passes lib source c = true ->
               commentVersion number c = Some v -> P v) ->
  forall vars b vars' b',
    commentsLoop lib source pull comments vars b = Ok (vars', b') ->
    varsHold P vars -> varsHold P vars'.
Proof.
  intros Hn. induction comments as [|c rest IH]; intros Hc vars b vars' b' E Hv.
  - cbn in E. injection E as <- <-. exact Hv.
  - assert (Hrest : forall c' v, List.In c' rest -> passes lib source c' = true ->
                      commentVersion number c' = Some v -> P v).
    { intros c' v Hin. apply Hc. right. exact Hin. }
    specialize (IH Hrest). cbn [commentsLoop] in E.
    destruct (AuthorAssociation c) as [assoc|] eqn:Ea; cbn [deref Go.bind] in E;
      [|discriminate].
    destruct (requestsCommenterAssociation lib source assoc) eqn:Era; cbn [negb] in E;
      [|eapply IH; eassumption].
    destruct (Body c) as [body|] eqn:Eb; cbn [deref Go.bind] in E; [|discriminate].
    destruct (requestsCommentRegex lib source body) eqn:Erb; cbn [negb] in E;
      [|eapply IH; eassumption].
    destruct (Api.CreatedAt c) as [t|] eqn:Et; cbn [deref Go.bind] in E; [|discriminate].
    rewrite Hn in E. cbn [deref Go.bind] in E.
    destruct (ID c) as [id|] eqn:Eid; cbn [deref Go.bind] in E; [|discriminate].
    assert (Hpv : P {| Actions.CreatedAt := FormatInt (Unix t); PrID := Itoa number;
                       ReviewID := ""; CommentID := FormatInt id |}).
    { apply (Hc c); [left; reflexivity | |].
      - unfold passes. rewrite Ea, Eb, Era, Erb. reflexivity.
      - unfold commentVersion. rewrite Et, Eid. reflexivity. }
    destruct (String.eqb (When source) "first").
    + injection E as <- <-. apply varsHold_push; assumption.
    + eapply IH; [exact E|]. apply varsHold_push; assumption.
Qed.

Lemma reviewsLoop_hold (pull : PullRequest) (number : Z) (reviews : list PullRequestReview) :
  Number pull = Some number ->
  (forall r v, List.In r reviews -> passesReview lib source r = true ->
               reviewVersion number r = Some v -> P v) ->
  forall vars b vars' b',
    reviewsLoop lib source pull reviews vars b = Ok (vars', b') ->
    varsHold P vars -> varsHold P vars'.
Proof.
  intros Hn. induction reviews as [|r rest IH]; intros Hr vars b vars' b' E Hv.
  - cbn in E. injection E as <- <-. exact Hv.
  - assert (Hrest : forall r' v, List.In r' rest -> passesReview lib source r' = true ->
                      reviewVersion number r' = Some v -> P v).
    { intros r' v Hin. apply Hr. right. exact Hin. }
    specialize (IH Hrest). cbn [reviewsLoop] in E.
    destruct (Review_State r) as [state|] eqn:Ea; cbn [deref Go.bind] in E;
      [|discriminate].
    destruct (requestsReviewState lib source state) eqn:Era; cbn [negb] in E;
      [|eapply IH; eassumption].
    destruct (Review_Body r) as [body|] eqn:Eb; cbn [deref Go.bind] in E; [|discriminate].
    destruct (requestsCommentRegex lib source body) eqn:Erb; cbn [negb] in E;
      [|eapply IH; eassumption].
    destruct (SubmittedAt r) as [t|] eqn:Et; cbn [deref Go.bind] in E; [|discriminate].
    rewrite Hn in E. cbn [deref Go.bind] in E.
    destruct (Review_ID r) as [id|] eqn:Eid; cbn [deref Go.bind] in E; [|discriminate].
    assert (Hpv : P {| Actions.CreatedAt := FormatInt (Unix t); PrID := Itoa number;
                       ReviewID := FormatInt id; CommentID := "" |}).
    { apply (Hr r); [left; reflexivity | |].
      - unfold passesReview. rewrite Ea, Eb, Era, Erb. reflexivity.
      - unfold reviewVersion. rewrite Et, Eid. reflexivity. }
    destruct (String.eqb (When source) "first").
    + injection E as <- <-. apply varsHold_push; assumption.
    + eapply IH; [exact E|]. apply varsHold_push; assumption.
Qed.

Lemma saveLatest_hold (vars : checkVars) (b : bool) (vars' : checkVars) :
  saveLatest source vars b = Ok vars' -> varsHold P vars -> varsHold P vars'.
Proof.
  unfold saveLatest. intros E [Hvs Hv].
  destruct (String.eqb (When source) "latest" && b).
  - destruct (version vars) as [v|] eqn:Ev; cbn [deref Go.bind] in E; [|discriminate].
    injection E as <-. split; cbn.
    + apply Forall_app. split; [exact Hvs|]. constructor; [|constructor].
      apply Hv. reflexivity.
    + exact Hv.
  - injection E as <-. split; assumption.
Qed.

End Sourced.

Section CheckSound.
Context {R : Type} `{GoGithub R}.
Variable lib : GoLib.
Variable remote : R.
Variable client : GithubClient.
Variable source : Source.
Variable all : list PullRequest.

Lemma pullsLoop_sourced (pulls : list PullRequest) :
  (forall pull, List.In pull pulls -> List.In pull all) ->
  forall vars vars',
    pullsLoop lib remote client source pulls vars = Ok vars' ->
    Forall (sourcedFrom lib remote client source all) (versions vars) ->
    Forall (sourcedFrom lib remote client source all) (versions vars').
Proof.
  induction pulls as [|pull rest IH]; intros Hall vars vars' E Hv.
  - cbn in E. injection E as <-. exact Hv.
  - assert (Hrest : forall p, List.In p rest -> List.In p all).
    { intros p Hin. apply Hall. right. exact Hin. }
    specialize (IH Hrest). cbn [pullsLoop] in E.
    destruct (skipPull source pull) as [[|]| |] eqn:Es; cbn [Go.bind] in E;
      try discriminate.
    { eapply IH; [exact E | exact Hv]. }
    apply skipPull_false in Es.
    destruct (Number pull) as [number|] eqn:En; cbn [deref Go.bind] in E; [|discriminate].
    destruct (ListPullRequestComments client number remote) as [comments| |] eqn:Ec;
      cbn [Go.bind] in E; try discriminate.
    destruct (commentTrack lib source pull comments
                {| versions := versions vars; version := None |}) as [vars1| |] eqn:Et;
      cbn [Go.bind] in E; try discriminate.
    destruct (ListPullRequestReviews client number remote) as [reviews| |] eqn:Er;
      cbn [Go.bind] in E; try discriminate.
    destruct (reviewTrack lib source pull reviews vars1) as [vars2| |] eqn:Et2;
      cbn [Go.bind] in E; try discriminate.
    eapply IH; [exact E|].
    set (P := sourcedFrom lib remote client source all).
    assert (H0 : varsHold P {| versions := versions vars; version := None |}).
    { split; [exact Hv | discriminate]. }
    assert (H1 : varsHold P vars1).
    { unfold commentTrack in Et.
      destruct (commentsLoop lib source pull comments
                  {| versions := versions vars; version := None |} false)
        as [[v1 b1]| |] eqn:El; cbn [Go.bind fst snd] in Et; try discriminate.
      eapply saveLatest_hold; [exact Et|].
      eapply (commentsLoop_hold lib source P pull number comments En); [|exact El|exact H0].
      intros c v Hin Hp Hcv. exists pull, number.
      split; [apply Hall; left; reflexivity|]. split; [exact Es|]. split; [exact En|].
      left. exists comments, c. auto. }
    assert (H2 : varsHold P vars2).
    { unfold reviewTrack in Et2.
      destruct (reviewsLoop lib source pull reviews vars1 false)
        as [[v2 b2]| |] eqn:El; cbn [Go.bind fst snd] in Et2; try discriminate.
      eapply saveLatest_hold; [exact Et2|].
      eapply (reviewsLoop_hold lib source P pull number reviews En); [|exact El|exact H1].
      intros r v Hin Hp Hrv. exists pull, number.
      split; [apply Hall; left; reflexivity|]. split; [exact Es|]. split; [exact En|].
      right. exists reviews, r. auto. }
    apply H2.
Qed.

End CheckSound.

Lemma defaultWhen_filters (lib : GoLib) (source : Source) :
  (forall pull, eligible (defaultWhen source) pull <-> eligible source pull)
  /\ (forall c, passes lib (defaultWhen source) c = passes lib source c)
  /\ (forall r, passesReview lib (defaultWhen source) r = passesReview lib source r).
Proof.
  unfold defaultWhen. destruct (String.length (When source) =? 0)%nat.
  - split; [|split]; reflexivity.
  - split; [|split]; reflexivity.
Qed.

(** The versions collected by [Check], before the sort. *)
Lemma collect_sourced {R : Type} `{GoGithub R} (lib : GoLib) (remote : R)
    (req : CheckRequest) (vs : list Version) :
  collect lib remote req = Ok vs ->
  exists client pulls,
    NewGithubClient lib
      (Actions.Repository (CheckRequest_Source req)) (AccessToken (CheckRequest_Source req))
      (SkipSSLVerification (CheckRequest_Source req)) (GithubEndpoint (CheckRequest_Source req))
    = Ok client
    /\ ListPullRequests client remote = Ok pulls
    /\ Forall (sourcedFrom lib remote client (CheckRequest_Source req) pulls) vs.
Proof.
  unfold collect. intros E.
  destruct (NewGithubClient lib _ _ _ _) as [client| |] eqn:En; cbn [Go.bind] in E;
    try discriminate.
  destruct (ListPullRequests client remote) as [pulls| |] eqn:Ep; cbn [Go.bind] in E;
    try discriminate.
  destruct (pullsLoop lib remote client _ pulls _) as [vars| |] eqn:El;
    cbn [Go.bind] in E; try discriminate.
  injection E as <-. exists client, pulls. split; [reflexivity|]. split; [exact Ep|].
  apply (pullsLoop_sourced lib remote client _ pulls pulls) in El;
    [| auto | constructor].
  destruct (defaultWhen_filters lib (CheckRequest_Source req)) as (He & Hp & Hr).
  eapply Forall_impl; [exact El|].
  intros v (pull & number & Hin & Hel & Hn & Href). exists pull, number.
  split; [exact Hin|]. split; [apply He; exact Hel|]. split; [exact Hn|].
  destruct Href as [(comments & c & ? & ? & Hpc & ?)|(reviews & r & ? & ? & Hpr & ?)].
  - left. exists comments, c. rewrite <- Hp. auto.
  - right. exists reviews, r. rewrite <- Hr. auto.
Qed.

(** X7. Every version that a successful check returns references a comment
    that passes the commenter-association and comment-text predicates, or a
    review that passes the review-state and comment-text predicates, listed
    by the remote for a pull request that passes the filters: requested
    state and labels, mergeable if only mergeable ones are requested, and
    not a draft, whatever [ignore_drafts] says. *)
Theorem check_sound {R : Type} `{GoGithub R} (lib : GoLib) (remote : R)
    (req : CheckRequest) (vs : list Version) :
  GoLibSpec lib ->
  Check lib remote req = Ok vs ->
  exists client pulls,
    NewGithubClient lib
      (Actions.Repository (CheckRequest_Source req)) (AccessToken (CheckRequest_Source req))
      (SkipSSLVerification (CheckRequest_Source req)) (GithubEndpoint (CheckRequest_Source req))
    = Ok client
    /\ ListPullRequests client remote = Ok pulls
    /\ Forall (sourcedFrom lib remote client (CheckRequest_Source req) pulls) vs.
Proof.
  intros Hlib E. unfold Check in E.
  destruct (collect lib remote req) as [collected| |] eqn:Ec; cbn [Go.bind] in E;
    try discriminate.
  injection E as <-.
  destruct (collect_sourced lib remote req collected Ec) as (client & pulls & Hc & Hp & Hs).
  exists client, pulls. split; [exact Hc|]. split; [exact Hp|].
  rewrite Forall_forall in *. intros v Hin. apply Hs.
  apply list_elem_of_In. apply list_elem_of_In in Hin.
  eapply Permutation_in; [|exact Hin]. symmetry. apply (sort_perm _ Hlib).
Qed.

(* --------------------------------------------------------------------- *)
(** ** Mode "all" selects everything that passes *)
(* --------------------------------------------------------------------- *)

Section AllMode.
Variable lib : GoLib.
Variable source : Source.
Hypothesis Hall : When source = "all".

Lemma all_not_first : String.eqb (When source) "first" = false.
Proof. rewrite Hall. reflexivity. Qed.

Lemma all_all_or_first : whenAllOrFirst source = true.
Proof. unfold whenAllOrFirst. rewrite Hall. reflexivity. Qed.

Lemma saveLatest_all (vars : checkVars) (b : bool) : saveLatest source vars b = Ok vars.
Proof. apply saveLatest_other. rewrite Hall. discriminate. Qed.

(** A loop that returns has appended the version of every comment that
    passes, in order. *)
Lemma commentsLoop_all (pull : PullRequest) (number : Z) (comments : list IssueComment) :
  Number pull = Some number ->
  forall vars b vars' b',
    commentsLoop lib source pull comments vars b = Ok (vars', b') ->
    versions vars' = versions vars ++ passingComments lib source number comments.
Proof.
  intros Hn. induction comments as [|c rest IH]; intros vars b vars' b' E.
  - cbn in E. injection E as <- <-. cbn. rewrite app_nil_r. reflexivity.
  - cbn [commentsLoop] in E. unfold passingComments. cbn [flat_map].
    fold (passingComments lib source number rest). unfold passes, commentVersion.
    destruct (AuthorAssociation c) as [assoc|]; cbn [deref Go.bind] in E; [|discriminate].
    destruct (requestsCommenterAssociation lib source assoc); cbn [negb andb] in E |- *.
    2:{ destruct (Body c); apply (IH _ _ _ _ E). }
    destruct (Body c) as [body|]; cbn [deref Go.bind] in E; [|discriminate].
    destruct (requestsCommentRegex lib source body); cbn [negb] in E |- *;
      [|apply (IH _ _ _ _ E)].
    destruct (Api.CreatedAt c) as [t|]; cbn [deref Go.bind] in E; [|discriminate].
    rewrite Hn in E. cbn [deref Go.bind] in E.
    destruct (ID c) as [id|]; cbn [deref Go.bind] in E; [|discriminate].
    rewrite all_not_first, all_all_or_first in E.
    rewrite (IH _ _ _ _ E). cbn [versions]. rewrite option_list_Some, <- app_assoc.
    reflexivity.
Qed.

Lemma reviewsLoop_all (pull : PullRequest) (number : Z) (reviews : list PullRequestReview) :
  Number pull = Some number ->
  forall vars b vars' b',
    reviewsLoop lib source pull reviews vars b = Ok (vars', b') ->
    versions vars' = versions vars ++ passingReviews lib source number reviews.
Proof.
  intros Hn. induction reviews as [|r rest IH]; intros vars b vars' b' E.
  - cbn in E. injection E as <- <-. cbn. rewrite app_nil_r. reflexivity.
  - cbn [reviewsLoop] in E. unfold passingReviews. cbn [flat_map].
    fold (passingReviews lib source number rest). unfold passesReview, reviewVersion.
    destruct (Review_State r) as [state|]; cbn [deref Go.bind] in E; [|discriminate].
    destruct (requestsReviewState lib source state); cbn [negb andb] in E |- *.
    2:{ destruct (Review_Body r); apply (IH _ _ _ _ E). }
    destruct (Review_Body r) as [body|]; cbn [deref Go.bind] in E; [|discriminate].
    destruct (requestsCommentRegex lib source body); cbn [negb] in E |- *;
      [|apply (IH _ _ _ _ E)].
    destruct (SubmittedAt r) as [t|]; cbn [deref Go.bind] in E; [|discriminate].
    rewrite Hn in E. cbn [deref Go.bind] in E.
    destruct (Review_ID r) as [id|]; cbn [deref Go.bind] in E; [|discriminate].
    rewrite all_not_first, all_all_or_first in E.
    rewrite (IH _ _ _ _ E). cbn [versions]. rewrite option_list_Some, <- app_assoc.
    reflexivity.
Qed.

Lemma in_passingComments (number : Z) (comments : list IssueComment) (v : Version) :
  List.In v (passingComments lib source number comments) <->
  exists c, List.In c comments /\ passes lib source c = true
            /\ commentVersion number c = Some v.
Proof.
  unfold passingComments. rewrite in_flat_map. split.
  - intros (c & Hin & Hv). exists c. split; [exact Hin|].
    destruct (passes lib source c); [|destruct Hv].
    split; [reflexivity|]. destruct (commentVersion number c); cbn in Hv; [|destruct Hv].
    destruct Hv as [->|[]]. reflexivity.
  - intros (c & Hin & Hp & Hv). exists c. split; [exact Hin|].
    rewrite Hp, Hv. left. reflexivity.
Qed.

Lemma in_passingReviews (number : Z) (reviews : list PullRequestReview) (v : Version) :
  List.In v (passingReviews lib source number reviews) <->
  exists r, List.In r reviews /\ passesReview lib source r = true
            /\ reviewVersion number r = Some v.
Proof.
  unfold passingReviews. rewrite in_flat_map. split.
  - intros (r & Hin & Hv). exists r. split; [exact Hin|].
    destruct (passesReview lib source r); [|destruct Hv].
    split; [reflexivity|]. destruct (reviewVersion number r); cbn in Hv; [|destruct Hv].
    destruct Hv as [->|[]]. reflexivity.
  - intros (r & Hin & Hp & Hv). exists r. split; [exact Hin|].
    rewrite Hp, Hv. left. reflexivity.
Qed.

Context {R : Type} `{GoGithub R}.
Variable remote : R.
Variable client : GithubClient.

Lemma pullsLoop_all (pulls : list PullRequest) :
  forall vars vars',
    pullsLoop lib remote client source pulls vars = Ok vars' ->
    forall v, List.In v (versions vars') <->
              List.In v (versions vars) \/ sourcedFrom lib remote client source pulls v.
Proof.
  induction pulls as [|pull rest IH]; intros vars vars' E v.
  - cbn in E. injection E as <-. split; [auto|].
    intros [Hin|(pull & _ & [] & _)]. exact Hin.
  - cbn [pullsLoop] in E.
    destruct (skipPull source pull) as [[|]| |] eqn:Es; cbn [Go.bind] in E;
      try discriminate.
    { rewrite (IH _ _ E v). cbn [versions]. split.
      - intros [Hin|(p & n & Hp & Hrest)]; [left; exact Hin|].
        right. exists p, n. split; [right; exact Hp | exact Hrest].
      - intros [Hin|(p & n & [<-|Hp] & Hel & Hrest)]; [left; exact Hin | |].
        + apply skipPull_false in Hel. congruence.
        + right. exists p, n. split; [exact Hp|]. split; assumption. }
    pose proof (proj1 (skipPull_false source pull) Es) as Hel.
    destruct (Number pull) as [number|] eqn:En; cbn [deref Go.bind] in E; [|discriminate].
    destruct (ListPullRequestComments client number remote) as [comments| |] eqn:Ec;
      cbn [Go.bind] in E; try discriminate.
    destruct (commentTrack lib source pull comments
                {| versions := versions vars; version := None |}) as [vars1| |] eqn:Et;
      cbn [Go.bind] in E; try discriminate.
    destruct (ListPullRequestReviews client number remote) as [reviews| |] eqn:Er;
      cbn [Go.bind] in E; try discriminate.
    destruct (reviewTrack lib source pull reviews vars1) as [vars2| |] eqn:Et2;
      cbn [Go.bind] in E; try discriminate.
    unfold commentTrack in Et.
    destruct (commentsLoop lib source pull comments _ false) as [[v1 b1]| |] eqn:El;
      cbn [Go.bind fst snd] in Et; try discriminate.
    rewrite saveLatest_all in Et. injection Et as <-.
    apply (commentsLoop_all pull number comments En) in El. cbn [versions] in El.
    unfold reviewTrack in Et2.
    destruct (reviewsLoop lib source pull reviews v1 false) as [[v2 b2]| |] eqn:El2;
      cbn [Go.bind fst snd] in Et2; try discriminate.
    rewrite saveLatest_all in Et2. injection Et2 as <-.
    apply (reviewsLoop_all pull number reviews En) in El2.
    rewrite (IH _ _ E v), El2, El, !in_app_iff, in_passingComments, in_passingReviews.
    split.
    + intros [[[Hin|Hc]|Hr]|(p & n & Hp & Hrest)].
      * left. exact Hin.
      * right. exists pull, number. split; [left; reflexivity|]. split; [exact Hel|].
        split; [exact En|]. left. destruct Hc as (c & Hc). exists comments, c. tauto.
      * right. exists pull, number. split; [left; reflexivity|]. split; [exact Hel|].
        split; [exact En|]. right. destruct Hr as (r & Hr). exists reviews, r. tauto.
      * right. exists p, n. split; [right; exact Hp | exact Hrest].
    + intros [Hin|(p & n & [<-|Hp] & Hel' & Hn & Href)].
      * left. left. left. exact Hin.
      * rewrite En in Hn. injection Hn as <-.
        destruct Href as [(cs & c & Hcs & Hc)|(rs & r & Hrs & Hr)].
        -- rewrite Ec in Hcs. injection Hcs as <-. left. left. right. exists c. exact Hc.
        -- rewrite Er in Hrs. injection Hrs as <-. left. right. exists r. exact Hr.
      * right. exists p, n. split; [exact Hp|]. split; [exact Hel'|].
        split; [exact Hn | exact Href].
Qed.

End AllMode.

(** X8. In mode "all" a successful check returns exactly the versions of the
    comments and reviews that pass the predicates, on the pull requests
    that pass the filters: every such comment and review is represented,
    and nothing else is. *)
Theorem check_all_exact {R : Type} `{GoGithub R} (lib : GoLib) (remote : R)
    (req : CheckRequest) (vs : list Version) :
  GoLibSpec lib ->
  When (CheckRequest_Source req) = "all" ->
  Check lib remote req = Ok vs ->
  exists client pulls,
    NewGithubClient lib
      (Actions.Repository (CheckRequest_Source req)) (AccessToken (CheckRequest_Source req))
      (SkipSSLVerification (CheckRequest_Source req)) (GithubEndpoint (CheckRequest_Source req))
    = Ok client
    /\ ListPullRequests client remote = Ok pulls
    /\ forall v, List.In v vs <->
                 sourcedFrom lib remote client (CheckRequest_Source req) pulls v.
Proof.
  intros Hlib Hw E. unfold Check in E.
  destruct (collect lib remote req) as [collected| |] eqn:Ec; cbn [Go.bind] in E;
    try discriminate.
  injection E as <-. unfold collect in Ec.
  destruct (NewGithubClient lib _ _ _ _) as [client| |] eqn:En; cbn [Go.bind] in Ec;
    try discriminate.
  destruct (ListPullRequests client remote) as [pulls| |] eqn:Ep; cbn [Go.bind] in Ec;
    try discriminate.
  assert (Hd : defaultWhen (CheckRequest_Source req) = CheckRequest_Source req).
  { unfold defaultWhen. rewrite Hw. reflexivity. }
  rewrite Hd in Ec.
  destruct (pullsLoop lib remote client _ pulls _) as [vars| |] eqn:El;
    cbn [Go.bind] in Ec; try discriminate.
  injection Ec as <-. exists client, pulls. split; [reflexivity|]. split; [exact Ep|].
  intros v.
  rewrite <- (Permutation_in' (eq_refl v) (sort_perm _ Hlib _ lessCreatedAt (versions vars))).
  rewrite (pullsLoop_all lib _ Hw remote client pulls _ _ El v). cbn [versions List.In].
  tauto.
Qed.

(* --------------------------------------------------------------------- *)
(** ** Modes and filters that select nothing *)
(* --------------------------------------------------------------------- *)

Section NothingSelected.
Variable lib : GoLib.
Variable source : Source.
Hypothesis Hall : When source <> "all".
Hypothesis Hfirst : When source <> "first".
Hypothesis Hlatest : When source <> "latest".

Lemma unknown_not_all_or_first : whenAllOrFirst source = false.
Proof.
  unfold whenAllOrFirst.
  destruct (String.eqb_spec (When source) "all"); [contradiction|].
  destruct (String.eqb_spec (When source) "first"); [contradiction|]. reflexivity.
Qed.

Lemma commentsLoop_unknown (pull : PullRequest) (comments : list IssueComment) :
  forall vars b vars' b',
    commentsLoop lib source pull comments vars b = Ok (vars', b') ->
    versions vars' = versions vars.
Proof.
  induction comments as [|c rest IH]; intros vars b vars' b' E.
  - cbn in E. injection E as <- <-. reflexivity.
  - cbn [commentsLoop] in E. rewrite unknown_not_all_or_first in E.
    repeat go_step; try (eapply IH; eassumption).
    + reflexivity.
    + apply IH in E. exact E.
Qed.

Lemma reviewsLoop_unknown (pull : PullRequest) (reviews : list PullRequestReview) :
  forall vars b vars' b',
    reviewsLoop lib source pull reviews vars b = Ok (vars', b') ->
    versions vars' = versions vars.
Proof.
  induction reviews as [|r rest IH]; intros vars b vars' b' E.
  - cbn in E. injection E as <- <-. reflexivity.
  - cbn [reviewsLoop] in E. rewrite unknown_not_all_or_first in E.
    repeat go_step; try (eapply IH; eassumption).
    + reflexivity.
    + apply IH in E. exact E.
Qed.

Context {R : Type} `{GoGithub R}.
Variable remote : R.

Lemma pullsLoop_unknown (client : GithubClient) (pulls : list PullRequest) :
  forall vars vars',
    pullsLoop lib remote client source pulls vars = Ok vars' ->
    versions vars' = versions vars.
Proof.
  induction pulls as [|pull rest IH]; intros vars vars' E.
  - cbn in E. injection E as <-. reflexivity.
  - cbn [pullsLoop] in E.
    destruct (skipPull source pull) as [[|]| |]; cbn [Go.bind] in E; try discriminate.
    { apply IH in E. exact E. }
    destruct (deref (Number pull)) as [number| |]; cbn [Go.bind] in E; try discriminate.
    destruct (ListPullRequestComments client number remote) as [comments| |];
      cbn [Go.bind] in E; try discriminate.
    destruct (commentTrack lib source pull comments
                {| versions := versions vars; version := None |}) as [vars1| |] eqn:Et;
      cbn [Go.bind] in E; try discriminate.
    destruct (ListPullRequestReviews client number remote) as [reviews| |];
      cbn [Go.bind] in E; try discriminate.
    destruct (reviewTrack lib source pull reviews vars1) as [vars2| |] eqn:Et2;
      cbn [Go.bind] in E; try discriminate.
    apply IH in E. rewrite E.
    unfold commentTrack in Et.
    destruct (commentsLoop lib source pull comments _ false) as [[v1 b1]| |] eqn:El;
      cbn [Go.bind fst snd] in Et; try discriminate.
    rewrite saveLatest_other in Et by exact Hlatest. injection Et as <-.
    apply commentsLoop_unknown in El.
    unfold reviewTrack in Et2.
    destruct (reviewsLoop lib source pull reviews v1 false) as [[v2 b2]| |] eqn:El2;
      cbn [Go.bind fst snd] in Et2; try discriminate.
    rewrite saveLatest_other in Et2 by exact Hlatest. injection Et2 as <-.
    apply reviewsLoop_unknown in El2. rewrite El2, El. reflexivity.
Qed.

End NothingSelected.

(** X9. A selection mode other than "all", "first", "latest" and the empty
    one (which stands for "latest") selects nothing: a check that succeeds
    returns no version, whatever the remote holds. *)
Theorem check_unknown_when {R : Type} `{GoGithub R} (lib : GoLib) (remote : R)
    (req : CheckRequest) (vs : list Version) :
  GoLibSpec lib ->
  When (CheckRequest_Source req) <> "" ->
  When (CheckRequest_Source req) <> "all" ->
  When (CheckRequest_Source req) <> "first" ->
  When (CheckRequest_Source req) <> "latest" ->
  Check lib remote req = Ok vs ->
  vs = [].
Proof.
  intros Hlib Hempty Hall Hfirst Hlatest E. unfold Check in E.
  destruct (collect lib remote req) as [collected| |] eqn:Ec; cbn [Go.bind] in E;
    try discriminate.
  injection E as <-.
  assert (Hc : collected = []).
  { unfold collect in Ec.
    destruct (NewGithubClient lib _ _ _ _) as [client| |]; cbn [Go.bind] in Ec;
      try discriminate.
    destruct (ListPullRequests client remote) as [pulls| |]; cbn [Go.bind] in Ec;
      try discriminate.
    assert (Hd : defaultWhen (CheckRequest_Source req) = CheckRequest_Source req).
    { unfold defaultWhen. destruct (When (CheckRequest_Source req)); [congruence|].
      reflexivity. }
    rewrite Hd in Ec.
    destruct (pullsLoop lib remote client _ pulls _) as [vars| |] eqn:El;
      cbn [Go.bind] in Ec; try discriminate.
    injection Ec as <-.
    apply (pullsLoop_unknown lib _ Hall Hfirst Hlatest) in El. exact El. }
  subst collected.
  apply Permutation_nil. apply (sort_perm _ Hlib).
Qed.

(** X10. With no review state requested no review is ever selected: every
    version of a successful check references a comment. *)
Theorem check_without_review_states {R : Type} `{GoGithub R} (lib : GoLib) (remote : R)
    (req : CheckRequest) (vs : list Version) :
  GoLibSpec lib ->
  ReviewStates (CheckRequest_Source req) = [] ->
  Check lib remote req = Ok vs ->
  Forall (fun v => ReviewID v = "" /\ CommentID v <> "") vs.
Proof.
  intros Hlib Hrs E. unfold Check in E.
  destruct (collect lib remote req) as [collected| |] eqn:Ec; cbn [Go.bind] in E;
    try discriminate.
  injection E as <-.
  destruct (collect_sourced lib remote req collected Ec) as (client & pulls & _ & _ & Hs).
  rewrite Forall_forall in *. intros v Hin.
  apply list_elem_of_In in Hin.
  eapply Permutation_in in Hin; [|symmetry; apply (sort_perm _ Hlib)].
  apply list_elem_of_In in Hin.
  destruct (Hs v Hin) as (pull & number & _ & _ & _ & Href).
  destruct Href as [(comments & c & _ & _ & _ & Hv)|(reviews & r & _ & _ & Hp & _)].
  - unfold commentVersion in Hv.
    destruct (Api.CreatedAt c), (ID c); try discriminate. injection Hv as <-.
    split; [reflexivity | apply FormatInt_nonempty].
  - unfold passesReview, requestsReviewState in Hp. rewrite Hrs in Hp.
    destruct (Review_State r), (Review_Body r); discriminate.
Qed.

(* --------------------------------------------------------------------- *)
(** ** Removing labels *)
(* --------------------------------------------------------------------- *)

Section RemoveLabels.
Context {R : Type} `{GoGithub R}.
Variable c : GithubClient.
Variable prID : Z.

(** The state of the remote after the removal of each label of the list,
    in order, when every removal succeeds. *)
Lemma RemovePullRequestLabels_app (l1 l2 : list string) (remote : R) :
  RemovePullRequestLabels c prID (l1 ++ l2) remote
  = (do! _ := RemovePullRequestLabels c prID l1 in
     RemovePullRequestLabels c prID l2) remote.
Proof.
  revert remote. induction l1 as [|l l1 IH]; intros remote; [reflexivity|].
  cbn [app RemovePullRequestLabels]. unfold bindIO.
  destruct (tryIO _ remote) as [[[]|e|m] r1]; [|reflexivity ..].
  rewrite IH. unfold bindIO. reflexivity.
Qed.

(** X15. The labels are removed one request at a time, and the first request
    that fails ends the call with its error: the labels before it stay
    removed, and no request is made for the labels after it. *)
Theorem RemovePullRequestLabels_stops_at_failure (before after : list string)
    (l : string) (remote r1 r2 : R) (err : error) :
  RemovePullRequestLabels c prID before remote = (Ok tt, r1) ->
  Issues_RemoveLabelForIssue (Owner c) (Api.Repository c) prID l r1 = (Some err, r2) ->
  RemovePullRequestLabels c prID (before ++ l :: after) remote = (Err err, r2).
Proof.
  intros Hb Hl. rewrite RemovePullRequestLabels_app. unfold bindIO at 1. rewrite Hb.
  cbn [RemovePullRequestLabels]. unfold bindIO, tryIO. rewrite Hl. reflexivity.
Qed.

End RemoveLabels.

(* --------------------------------------------------------------------- *)
(** ** The number of the pull request, from the URL of the comment *)
(* --------------------------------------------------------------------- *)

Lemma lastPart_Split (d : string) :
  hasByte "/" d = false ->
  forall dir, exists p q qs,
    Split (dir +:+ String "/" d) "/" = p :: q :: qs /\ lastPart (q :: qs) = d.
Proof.
  intros Hd. induction dir as [|c dir IH].
  - rewrite string_app_nil. cbn [Split Ascii.eqb Bool.eqb].
    rewrite (Split_no_sep "/" d Hd). exists "", d, []. split; reflexivity.
  - destruct IH as (p & q & qs & E & Hl). rewrite string_app_cons. cbn [Split].
    rewrite E. destruct (Ascii.eqb c "/").
    + exists "", p, (q :: qs). split; [reflexivity | exact Hl].
    + exists (String c p), q, qs. split; [reflexivity | exact Hl].
Qed.

Lemma FormatInt_no_slash (n : Z) : 0 <= n -> hasByte "/" (FormatInt n) = false.
Proof.
  intros Hn. apply (digits_all_digit _ 0 n); [apply digits_FormatInt; exact Hn|].
  reflexivity.
Qed.

(** X14. The number of the pull request is the last segment of the path of the
    URL, read as a decimal number; a path that ends in a slash has an empty
    last segment, which is not a number. *)
Theorem ParseCommentHTMLURL_last_segment (lib : GoLib) (prUrl : string) (u : URL) :
  url_Parse lib prUrl = Ok u ->
  (forall dir n, URL_Path u = dir +:+ "/" +:+ FormatInt n -> 0 <= n < 2 ^ 63 ->
     ParseCommentHTMLURL lib prUrl = Ok n)
  /\ (forall dir, URL_Path u = dir +:+ "/" ->
      ParseCommentHTMLURL lib prUrl = Err (NumError "Atoi" "" ErrSyntax)).
Proof.
  intros Hu. unfold ParseCommentHTMLURL. rewrite Hu. cbn [Go.bind]. split.
  - intros dir n Hp Hn. rewrite Hp.
    change ("/" +:+ FormatInt n) with (String "/" (FormatInt n)).
    destruct (lastPart_Split (FormatInt n) (FormatInt_no_slash n ltac:(lia)) dir)
      as (p & q & qs & -> & Hl).
    change (lastPart (p :: q :: qs)) with (lastPart (q :: qs)). rewrite Hl.
    unfold Atoi. rewrite parseInt64_FormatInt by lia. reflexivity.
  - intros dir Hp. rewrite Hp.
    destruct (lastPart_Split "" eq_refl dir) as (p & q & qs & -> & Hl).
    change (lastPart (p :: q :: qs)) with (lastPart (q :: qs)). rewrite Hl. reflexivity.
Qed.

(* --------------------------------------------------------------------- *)
(** ** The response of the in step *)
(* --------------------------------------------------------------------- *)

Section InResponse.
Variable lib : GoLib.

Lemma addAll_app (extraMeta : gmap string string) (metadata : Metadata) :
  exists extra, addAll lib extraMeta metadata = metadata ++ extra.
Proof.
  unfold addAll. generalize (range_map lib extraMeta). intros l. revert metadata.
  induction l as [|kv l IH]; intros metadata; cbn [fold_left].
  - exists []. rewrite app_nil_r. reflexivity.
  - destruct (IH (Metadata_Add metadata (fst kv) (snd kv))) as [extra ->].
    unfold Metadata_Add. rewrite <- app_assoc. eexists. reflexivity.
Qed.

Lemma enrich_app (patterns : list string) (body : string) :
  forall metadata metadata',
    enrich lib patterns body metadata = Ok metadata' ->
    exists extra, metadata' = metadata ++ extra.
Proof.
  induction patterns as [|p patterns IH]; intros metadata metadata'; cbn [enrich].
  - intros [= <-]. exists []. rewrite app_nil_r. reflexivity.
  - destruct (getParams lib p body) as [extraMeta| |]; cbn [Go.bind]; try discriminate.
    intros E. destruct (IH _ _ E) as [extra ->].
    destruct (addAll_app extraMeta metadata) as [extra0 ->].
    rewrite <- app_assoc. eexists. reflexivity.
Qed.

Lemma inMetadata_names (prNumber : Z) (comment : IssueComment) (standard : Metadata) :
  inMetadata prNumber comment = Ok standard ->
  fieldNames standard =
    map Some ["pr_id"; "comment_id"; "body"; "created_at"; "updated_at";
              "author_association"; "html_url"; "user_login"; "user_id";
              "user_avatar_url"; "user_html_url"]
  /\ exists rest, standard =
       Some {| Name := "pr_id"; Value := FormatInt prNumber |} :: rest.
Proof.
  unfold inMetadata. intros E.
  repeat match type of E with
         | Go.bind (deref ?p) _ = Ok _ =>
             destruct p; cbn [deref Go.bind] in E; [|discriminate]
         end.
  injection E as <-. split; [reflexivity|]. eexists. reflexivity.
Qed.

Context {R F : Type} `{GoGithub R} `{FileSystem F}.
Variable Ref : Version -> string.


Lemma In_Ok_inv (remote : R) (outputDir : string) (req : InRequest) (fs fs' : F)
    (resp : InResponse) :
  Actions.In Ref lib remote outputDir req fs = (Ok resp, fs') ->
  exists client commentID comment,
    NewGithubClient lib
      (Actions.Repository (InRequest_Source req)) (AccessToken (InRequest_Source req))
      (SkipSSLVerification (InRequest_Source req)) (GithubEndpoint (InRequest_Source req))
    = Ok client
    /\ ParseInt (Ref (InRequest_Version req)) = Ok commentID
    /\ GetPullRequestComment client commentID remote = Ok comment
    /\ materialize lib comment outputDir req fs = (Ok resp, fs').
Proof.
  unfold Actions.In. intros E.
  rewrite bindIO_pure in E.
  destruct (NewGithubClient lib _ _ _ _) as [client| |]; try discriminate.
  rewrite bindIO_pure in E.
  destruct (ParseInt _) as [commentID| |]; try discriminate.
  rewrite bindIO_pure in E.
  destruct (GetPullRequestComment _ _ _) as [comment| |] eqn:Eg; try discriminate.
  exists client, commentID, comment. repeat split; [exact Eg | exact E].
Qed.

Lemma materialize_response (comment : IssueComment) (outputDir : string)
    (req : InRequest) (fs fs' : F) (resp : InResponse) :
  materialize lib comment outputDir req fs = (Ok resp, fs') ->
  InResponse_Version resp = InRequest_Version req
  /\ exists htmlURL prNumber standard extra,
       HTMLURL comment = Some htmlURL
       /\ ParseCommentHTMLURL lib htmlURL = Ok prNumber
       /\ inMetadata prNumber comment = Ok standard
       /\ fieldNames standard =
            map Some ["pr_id"; "comment_id"; "body"; "created_at"; "updated_at";
                      "author_association"; "html_url"; "user_login"; "user_id";
                      "user_avatar_url"; "user_html_url"]
       /\ InResponse_Metadata resp = standard ++ extra
       /\ (MapCommentMeta (InRequest_Source req) = false -> extra = [])
       /\ Metadata_Get (InResponse_Metadata resp) "pr_id" = Ok (FormatInt prNumber)
       /\ Atoi (FormatInt prNumber) = Ok prNumber.
Proof.
  unfold materialize. intros E.
  apply bindIO_inv in E. destruct E as (_ & fs1 & _ & E).
  apply bindIO_inv in E. destruct E as (_ & fs2 & _ & E).
  apply bindIO_inv in E. destruct E as (_ & fs3 & _ & E).
  rewrite bindIO_pure in E.
  destruct (deref (Body comment)) as [body| |]; try discriminate.
  apply bindIO_inv in E. destruct E as (_ & fs4 & _ & E).
  rewrite bindIO_pure in E.
  destruct (HTMLURL comment) as [htmlURL|] eqn:Eh; cbn [deref] in E; try discriminate.
  rewrite bindIO_pure in E.
  destruct (ParseCommentHTMLURL lib htmlURL) as [prNumber| |] eqn:Ep; try discriminate.
  rewrite bindIO_pure in E.
  destruct (inMetadata prNumber comment) as [standard| |] eqn:Em; try discriminate.
  rewrite bindIO_pure in E.
  destruct (if MapCommentMeta (InRequest_Source req)
            then enrich lib (Comments (InRequest_Source req)) body standard
            else Ok standard) as [metadata| |] eqn:Ee; try discriminate.
  apply bindIO_inv in E. destruct E as (_ & fs5 & _ & E).
  apply bindIO_inv in E. destruct E as (_ & fs6 & _ & E).
  apply bindIO_inv in E. destruct E as (_ & fs7 & _ & E).
  unfold pureIO in E. injection E as <- <-.
  cbn [InResponse_Version InResponse_Metadata]. split; [reflexivity|].
  destruct (inMetadata_names _ _ _ Em) as (Hnames & rest & Hst).
  assert (Hex : exists extra, metadata = standard ++ extra
                  /\ (MapCommentMeta (InRequest_Source req) = false -> extra = [])).
  { destruct (MapCommentMeta (InRequest_Source req)).
    - destruct (enrich_app _ _ _ _ Ee) as [extra ->]. exists extra.
      split; [reflexivity | discriminate].
    - injection Ee as <-. exists []. rewrite app_nil_r. split; reflexivity. }
  destruct Hex as (extra & -> & Hoff).
  exists htmlURL, prNumber, standard, extra.
  repeat (split; [first [reflexivity | assumption]|]).
  split.
  - rewrite Hst. reflexivity.
  - unfold ParseCommentHTMLURL in Ep.
    destruct (url_Parse lib htmlURL) as [u| |]; cbn [Go.bind] in Ep; try discriminate.
    destruct (Atoi _) as [i| |] eqn:Ea; cbn [Go.bind] in Ep; try discriminate.
    injection Ep as <-. unfold Atoi in *.
    apply parseInt64_FormatInt. eapply parseInt64_range. exact Ea.
Qed.


End InResponse.

(* --------------------------------------------------------------------- *)
(** ** The metadata on disk *)
(* --------------------------------------------------------------------- *)

Section JsonMetadata.

Lemma Marshal_MetadataField_app (p : option MetadataField) (tail : string) :
  Marshal_MetadataField p +:+ tail =
  match p with
  | None => String "n" (String "u" (String "l" (String "l" tail)))
  | Some d =>
      "{" +:+ encodeString "name" +:+ ":" +:+ encodeString (Name d) +:+ "," +:+
      (encodeString "value" +:+ ":" +:+ encodeString (Value d) +:+ "}" +:+ tail)
  end.
Proof.
  destruct p as [d|]; [|reflexivity]. unfold Marshal_MetadataField.
  rewrite !string_app_assoc. reflexivity.
Qed.

Lemma parseValue_field (f : nat) (p : option MetadataField) (tail : string) :
  parseValue (S (S (S (S f)))) (Marshal_MetadataField p +:+ tail)
  = Some (fieldValue p, tail).
Proof.
  rewrite Marshal_MetadataField_app. destruct p as [d|]; [|reflexivity].
  apply (parseValue_object (S (S (S f))) "name").
  change "name" with (coerce "name") at 2.
  apply (parseMembers_cons (S f)); [apply skipSpace_literal|].
  change "value" with (coerce "value") at 2.
  apply parseMembers_last.
Qed.

Lemma skipSpace_field (p : option MetadataField) (tail : string) :
  skipSpace (Marshal_MetadataField p +:+ tail) = Marshal_MetadataField p +:+ tail.
Proof. rewrite Marshal_MetadataField_app. destruct p; reflexivity. Qed.

Lemma Marshal_elements_cons (p q : option MetadataField) (m : Metadata) (tail : string) :
  Marshal_elements (p :: q :: m) +:+ tail
  = Marshal_MetadataField p +:+ String "," (Marshal_elements (q :: m) +:+ tail).
Proof.
  cbn [Marshal_elements]. rewrite !string_app_assoc. reflexivity.
Qed.

Lemma skipSpace_elements (m : Metadata) (tail : string) :
  m <> [] -> skipSpace (Marshal_elements m +:+ tail) = Marshal_elements m +:+ tail.
Proof.
  destruct m as [|p [|q m]]; [congruence | |]; intros _.
  - apply skipSpace_field.
  - rewrite Marshal_elements_cons. apply skipSpace_field.
Qed.

Lemma parseElements_step (f : nat) (s : string) :
  parseElements (S f) s =
  match parseValue f s with
  | Some (v, s1) =>
      match skipSpace s1 with
      | String "," s2 =>
          match parseElements f (skipSpace s2) with
          | Some (es, after) => Some (v :: es, after)
          | None => None
          end
      | String "]" after => Some ([v], after)
      | _ => None
      end
  | None => None
  end.
Proof. reflexivity. Qed.

Lemma parseElements_fields (m : Metadata) :
  m <> [] ->
  forall f tail,
    parseElements (length m + 4 + f) (Marshal_elements m +:+ String "]" tail)
    = Some (map fieldValue m, tail).
Proof.
  induction m as [|p m IH]; [congruence|]. intros _ f tail.
  destruct m as [|q m].
  - cbn [length Nat.add Marshal_elements]. rewrite parseElements_step.
    rewrite parseValue_field. reflexivity.
  - rewrite Marshal_elements_cons.
    change (length (p :: q :: m) + 4 + f)%nat with (S (length (q :: m) + 4 + f)).
    rewrite parseElements_step.
    replace (length (q :: m) + 4 + f)%nat with (S (S (S (S (length (q :: m) + f))))) at 1
      by lia.
    rewrite parseValue_field.
    change (skipSpace (String "," (Marshal_elements (q :: m) +:+ String "]" tail)))
      with (String "," (Marshal_elements (q :: m) +:+ String "]" tail)).
    cbv iota beta. rewrite skipSpace_elements by discriminate.
    rewrite IH by discriminate. reflexivity.
Qed.

Lemma Marshal_MetadataField_length (p : option MetadataField) :
  (4 <= String.length (Marshal_MetadataField p))%nat.
Proof.
  destruct p as [d|]; [|cbn; lia]. unfold Marshal_MetadataField, encodeString.
  rewrite !app_length. cbn [String.length]. lia.
Qed.

Lemma Marshal_elements_length (m : Metadata) :
  (4 * length m <= String.length (Marshal_elements m))%nat.
Proof.
  induction m as [|p m IH]; [cbn; lia|].
  pose proof (Marshal_MetadataField_length p).
  destruct m as [|q m].
  - cbn [Marshal_elements length]. lia.
  - change (Marshal_elements (p :: q :: m))
      with (Marshal_MetadataField p +:+ "," +:+ Marshal_elements (q :: m)).
    rewrite !app_length. cbn [String.length].
    change (length (p :: q :: m)) with (S (length (q :: m))). lia.
Qed.

Lemma parseValue_array (f : nat) (c : ascii) (r : string) :
  c <> "]"%char -> isSpace c = false ->
  parseValue (S f) (String "[" (String c r)) =
  match parseElements f (String c r) with
  | Some (es, after) => Some (JArray es, after)
  | None => None
  end.
Proof.
  intros Hc Hs.
  destruct c as [[] [] [] [] [] [] [] []];
    try reflexivity; try congruence; discriminate Hs.
Qed.

Lemma Marshal_elements_head (m : Metadata) (tail : string) :
  m <> [] ->
  exists c r, Marshal_elements m +:+ tail = String c r
              /\ c <> "]"%char /\ isSpace c = false.
Proof.
  intros Hm.
  assert (Hf : forall p t, exists c r, Marshal_MetadataField p +:+ t = String c r
                                       /\ c <> "]"%char /\ isSpace c = false).
  { intros p t. rewrite Marshal_MetadataField_app. destruct p.
    - eexists _, _. split; [reflexivity|]. split; [discriminate | reflexivity].
    - eexists _, _. split; [reflexivity|]. split; [discriminate | reflexivity]. }
  destruct m as [|p [|q m]]; [congruence | apply Hf |].
  rewrite Marshal_elements_cons. apply Hf.
Qed.

Lemma parse_Marshal_Metadata (m : Metadata) :
  m <> [] -> Json.parse (Marshal_Metadata m) = Ok (JArray (map fieldValue m)).
Proof.
  intros Hm. unfold Json.parse, Marshal_Metadata.
  destruct m as [|p m]; [congruence|].
  set (l := p :: m) in *.
  change ("[" +:+ Marshal_elements l +:+ "]")
    with (String "[" (Marshal_elements l +:+ String "]" EmptyString)).
  change (skipSpace (String "[" (Marshal_elements l +:+ String "]" EmptyString)))
    with (String "[" (Marshal_elements l +:+ String "]" EmptyString)).
  assert (Hlen : exists f,
    String.length (String "[" (Marshal_elements l +:+ String "]" EmptyString))
    = (length l + 4 + f)%nat).
  { pose proof (Marshal_elements_length l) as Hl.
    exists (String.length (Marshal_elements l) + 2 - (length l + 4))%nat.
    cbn [String.length]. rewrite app_length. cbn [String.length].
    assert (1 <= length l)%nat by (subst l; cbn; lia). lia. }
  destruct Hlen as [f ->].
  destruct (Marshal_elements_head l (String "]" EmptyString) Hm) as (c & r & Hs & Hc & Hsp).
  rewrite Hs, (parseValue_array _ c r Hc Hsp), <- Hs.
  rewrite (parseElements_fields l Hm). reflexivity.
Qed.

Lemma Unmarshal_elements_fields (m : Metadata) :
  Unmarshal_elements (map fieldValue m) = Ok (coerceMetadata m).
Proof.
  induction m as [|p m IH]; [reflexivity|].
  cbn [map Unmarshal_elements]. rewrite IH. destruct p; reflexivity.
Qed.

Lemma metadata_read_back (m : Metadata) :
  Unmarshal_Metadata (Marshal_Metadata m) = Ok (coerceMetadata m).
Proof.
  destruct m as [|p m]; [reflexivity|].
  unfold Unmarshal_Metadata. rewrite parse_Marshal_Metadata by discriminate.
  cbn [Go.bind]. apply Unmarshal_elements_fields.
Qed.

(** X4. What the out step reads back from the metadata that the in step wrote,
    for every metadata list: the same fields in the same order, nil elements
    included, with names and values coerced to valid UTF-8. *)
Theorem Unmarshal_Marshal_Metadata (m : Metadata) :
  Unmarshal_Metadata (Marshal_Metadata m) = Ok (coerceMetadata m).
Proof.
  apply metadata_read_back.
Qed.

End JsonMetadata.

(* --------------------------------------------------------------------- *)
(** ** From the in step to the out step *)
(* --------------------------------------------------------------------- *)

Section InThenOut.
Context {R F : Type} `{GoGithub R} `{FileSystem F}.
Hypothesis Hfs : FileSystemSpec F.
Variable lib : GoLib.

Lemma wrapIO_Ok (prefix : string) (w : F -> option error * F) (fs fs' : F) (u : unit) :
  wrapIO prefix w fs = (Ok u, fs') -> w fs = (None, fs').
Proof.
  unfold wrapIO. destruct (w fs) as [[e|] fs1]; [discriminate|].
  intros [= _ <-]. reflexivity.
Qed.

Lemma writeItems_keeps (path p : string) (metadata : Metadata) :
  (forall d, List.In (Some d) metadata -> filepath_Join lib [path; Name d] <> p) ->
  forall fs fs' u,
    writeItems lib path metadata fs = (Ok u, fs') ->
    ReadFile p fs' = ReadFile p fs.
Proof.
  induction metadata as [|item metadata IH]; intros Hd fs fs' u E.
  - cbn in E. injection E as _ <-. reflexivity.
  - cbn [writeItems] in E. rewrite bindIO_pure in E.
    destruct item as [d|]; cbn [deref] in E; [|discriminate].
    apply bindIO_inv in E. destruct E as (u1 & fs1 & Ew & E).
    apply wrapIO_Ok in Ew.
    rewrite (IH (fun d' Hin => Hd d' (or_intror Hin)) _ _ _ E).
    apply (read_other F Hfs _ _ _ _ _ Ew).
    intros Heq. apply (Hd d); [left; reflexivity | symmetry; exact Heq].
Qed.

Variable Ref : Version -> string.

Lemma tryIO_Ok (w : F -> option error * F) (fs fs' : F) (u : unit) :
  tryIO w fs = (Ok u, fs') -> w fs = (None, fs').
Proof.
  unfold tryIO. destruct (w fs) as [[e|] fs1]; [discriminate|].
  intros [= _ <-]. reflexivity.
Qed.

(** The file of a metadata field holds the value of the field, unless a
    later field is written to the same path. *)
Lemma writeItems_written (path : string) (metadata : Metadata) :
  forall fs fs' u,
    writeItems lib path metadata fs = (Ok u, fs') ->
    forall before d after,
      metadata = before ++ Some d :: after ->
      (forall d', List.In (Some d') after ->
         filepath_Join lib [path; Name d'] <> filepath_Join lib [path; Name d]) ->
      ReadFile (filepath_Join lib [path; Name d]) fs' = Ok (Value d).
Proof.
  induction metadata as [|item metadata IH]; intros fs fs' u E before d after Hm Hafter.
  - destruct before; discriminate Hm.
  - cbn [writeItems] in E. rewrite bindIO_pure in E.
    destruct item as [d0|]; cbn [deref] in E; [|discriminate].
    apply bindIO_inv in E. destruct E as (u1 & fs1 & Ew & E).
    apply wrapIO_Ok in Ew.
    destruct before as [|b before]; cbn [app] in Hm.
    + injection Hm as Hd Hm. subst d0 metadata.
      rewrite (writeItems_keeps path _ after Hafter _ _ _ E).
      apply (read_written F Hfs _ _ _ _ Ew).
    + injection Hm as _ Hm. eapply IH; eassumption.
Qed.

(** The files that a successful in step leaves behind. *)
Lemma materialize_files (comment : IssueComment) (outputDir : string) (req : InRequest)
    (fs fs' : F) (resp : InResponse) :
  materialize lib comment outputDir req fs = (Ok resp, fs') ->
  ((forall d, List.In (Some d) (InResponse_Metadata resp) ->
      inFile lib outputDir (Name d) <> inFile lib outputDir "version.json") ->
   inFile lib outputDir "version.json" <> inFile lib outputDir "metadata.json" ->
   ReadFile (inFile lib outputDir "version.json") fs'
   = Ok (Marshal_Version (InRequest_Version req)))
  /\ ((forall d, List.In (Some d) (InResponse_Metadata resp) ->
        inFile lib outputDir (Name d) <> inFile lib outputDir "metadata.json") ->
      ReadFile (inFile lib outputDir "metadata.json") fs'
      = Ok (Marshal_Metadata (InResponse_Metadata resp)))
  /\ (forall before d after,
        InResponse_Metadata resp = before ++ Some d :: after ->
        (forall d', List.In (Some d') after ->
           inFile lib outputDir (Name d') <> inFile lib outputDir (Name d)) ->
        ReadFile (inFile lib outputDir (Name d)) fs' = Ok (Value d))
  /\ (exists body,
        Metadata_Get (InResponse_Metadata resp) "body" = Ok body
        /\ (inFile lib outputDir (commentFileOf req) <> inFile lib outputDir "version.json" ->
            inFile lib outputDir (commentFileOf req)
              <> inFile lib outputDir "metadata.json" ->
            (forall d, List.In (Some d) (InResponse_Metadata resp) ->
               inFile lib outputDir (Name d) <> inFile lib outputDir (commentFileOf req)) ->
            ReadFile (inFile lib outputDir (commentFileOf req)) fs' = Ok body)).
Proof.
  unfold inFile. set (path := filepath_Join lib [outputDir]).
  intros E. unfold materialize in E. fold path in E.
  assert (Hcf : (if negb (String.eqb (CommentFile (InRequest_Params req)) "")
                 then CommentFile (InRequest_Params req) else "comment.txt")
                = commentFileOf req).
  { unfold commentFileOf. destruct (String.eqb _ ""); reflexivity. }
  rewrite Hcf in E. set (cpath := filepath_Join lib [path; commentFileOf req]) in *.
  apply bindIO_inv in E. destruct E as (_ & fs1 & _ & E).
  apply bindIO_inv in E. destruct E as (_ & fs2 & _ & E).
  apply bindIO_inv in E. destruct E as (u3 & fs3 & Et & E). apply tryIO_Ok in Et.
  rewrite bindIO_pure in E.
  destruct (Body comment) as [body|] eqn:Eb; cbn [deref] in E; try discriminate.
  apply bindIO_inv in E. destruct E as (u4 & fs4 & Ews & E). apply tryIO_Ok in Ews.
  rewrite bindIO_pure in E.
  destruct (deref (HTMLURL comment)) as [htmlURL| |]; try discriminate.
  rewrite bindIO_pure in E.
  destruct (ParseCommentHTMLURL lib htmlURL) as [prNumber| |]; try discriminate.
  rewrite bindIO_pure in E.
  destruct (inMetadata prNumber comment) as [standard| |] eqn:Es; try discriminate.
  rewrite bindIO_pure in E.
  destruct (if MapCommentMeta (InRequest_Source req)
            then enrich lib (Comments (InRequest_Source req)) body standard
            else Ok standard) as [metadata| |] eqn:Ee; try discriminate.
  apply bindIO_inv in E. destruct E as (u5 & fs5 & Ev & E). apply wrapIO_Ok in Ev.
  apply bindIO_inv in E. destruct E as (u6 & fs6 & Em & E). apply wrapIO_Ok in Em.
  apply bindIO_inv in E. destruct E as (u7 & fs7 & Ei & E).
  unfold pureIO in E. injection E as E1 E2. subst resp fs7.
  cbn [InResponse_Metadata].
  split; [|split; [|split]].
  - intros Hitems Hvm.
    rewrite (writeItems_keeps path _ metadata Hitems _ _ _ Ei).
    rewrite (read_other F Hfs _ _ _ _ _ Em Hvm).
    apply (read_written F Hfs _ _ _ _ Ev).
  - intros Hitems.
    rewrite (writeItems_keeps path _ metadata Hitems _ _ _ Ei).
    apply (read_written F Hfs _ _ _ _ Em).
  - intros before d after Hm Hafter.
    apply (writeItems_written path metadata _ _ _ Ei before d after Hm Hafter).
  - exists body. split.
    + assert (Hex : exists extra, metadata = standard ++ extra).
      { destruct (MapCommentMeta (InRequest_Source req)).
        - apply (enrich_app lib _ _ _ _ Ee).
        - injection Ee as <-. exists []. rewrite app_nil_r. reflexivity. }
      destruct Hex as [extra ->].
      unfold inMetadata in Es. rewrite Eb in Es. cbn [deref Go.bind] in Es.
      repeat match type of Es with
             | Go.bind (deref ?p) _ = Ok _ =>
                 destruct p; cbn [deref Go.bind] in Es; [|discriminate]
             end.
      injection Es as <-. reflexivity.
    + intros Hcv Hcm Hitems.
      rewrite (writeItems_keeps path _ metadata Hitems _ _ _ Ei).
      rewrite (read_other F Hfs _ _ _ _ _ Em Hcm).
      rewrite (read_other F Hfs _ _ _ _ _ Ev Hcv).
      rewrite (read_appended F Hfs _ EmptyString _ _ _ Ews).
      * rewrite string_app_nil. reflexivity.
      * apply (read_truncated F Hfs _ _ _ Et).
Qed.


Lemma wrapErr_Ok {A} (prefix : string) (a : A) : wrapErr prefix (Ok a) = Ok a.
Proof. reflexivity. Qed.

Lemma bindIO_pure_Ok {S A B} (a : A) (k : A -> io S B) (s : S) :
  (do! x := pureIO (Ok a) in k x) s = k a s.
Proof. reflexivity. Qed.

(** The out step answers with the version and the metadata that it
    unmarshals from version.json and metadata.json. *)
Lemma Out_returns_stored (env : gmap string string) (fs : F) (inputDir : string)
    (req : OutRequest) (remote remote' : R) (resp : OutResponse)
    (v : Version) (m : Metadata) :
  ReadFile (filepath_Join lib
              [filepath_Join lib [inputDir; Path (OutRequest_Params req)];
               "version.json"]) fs
  = Ok (Marshal_Version v) ->
  ReadFile (filepath_Join lib
              [filepath_Join lib [inputDir; Path (OutRequest_Params req)];
               "metadata.json"]) fs
  = Ok (Marshal_Metadata m) ->
  Out lib env fs inputDir req remote = (Ok resp, remote') ->
  OutResponse_Version resp = coerceVersion v
  /\ OutResponse_Metadata resp = coerceMetadata m.
Proof.
  intros Hv Hm. unfold Out.
  rewrite bindIO_pure.
  destruct (wrapErr "invalid parameters: " (Validate lib (OutRequest_Params req)));
    try discriminate.
  rewrite Hv, wrapErr_Ok, bindIO_pure_Ok.
  rewrite Unmarshal_Marshal_Version, wrapErr_Ok, bindIO_pure_Ok.
  rewrite Hm, wrapErr_Ok, bindIO_pure_Ok.
  rewrite metadata_read_back, wrapErr_Ok, bindIO_pure_Ok.
  rewrite bindIO_pure.
  destruct (Metadata_Get (coerceMetadata m) "pr_id") as [prNumber| |]; try discriminate.
  rewrite bindIO_pure.
  destruct (Atoi prNumber); try discriminate.
  rewrite bindIO_pure.
  destruct (NewGithubClient lib _ _ _ _); try discriminate.
  intros Eout.
  pose proof (bindIO_inv _ _ _ _ _ Eout) as (x1 & r1 & _ & E1). clear Eout.
  pose proof (bindIO_inv _ _ _ _ _ E1) as (x2 & r2 & _ & E2). clear E1.
  pose proof (bindIO_inv _ _ _ _ _ E2) as (x3 & r3 & _ & E3). clear E2.
  pose proof (bindIO_inv _ _ _ _ _ E3) as (x4 & r4 & _ & E4). clear E3.
  pose proof (bindIO_inv _ _ _ _ _ E4) as (x5 & r5 & _ & E5). clear E4.
  unfold pureIO in E5. injection E5 as E5 _. subst resp. split; reflexivity.
Qed.


End InThenOut.

(* --------------------------------------------------------------------- *)
(** ** The out step *)
(* --------------------------------------------------------------------- *)

Section OutStep.
Context {R F : Type} `{GoGithub R} `{FileSystem F}.
Variable lib : GoLib.
Variable env : gmap string string.
Variable fs : F.
Variable inputDir : string.

Lemma SetPullRequestState_other (c : GithubClient) (prID : Z) (state : string)
    (remote : R) :
  state <> "open" -> state <> "closed" ->
  SetPullRequestState c prID state remote
  = (Err (Errorf ("invalid pull request state: " +:+ state)), remote).
Proof.
  intros Ho Hc. unfold SetPullRequestState. cbn [fold_left].
  destruct (String.eqb_spec state "open"); [contradiction|].
  destruct (String.eqb_spec state "closed"); [contradiction|]. reflexivity.
Qed.

(** X19. [Validate] compares the state in lower case, [SetPullRequestState] as
    it is: a put whose state is not empty and not exactly "open" or
    "closed" never succeeds, and it leaves the remote as it is. *)
Theorem Out_state_is_case_sensitive (req : OutRequest) (remote : R) :
  OutParams_State (OutRequest_Params req) <> "" ->
  OutParams_State (OutRequest_Params req) <> "open" ->
  OutParams_State (OutRequest_Params req) <> "closed" ->
  exists r,
    Out lib env fs inputDir req remote = (r, remote)
    /\ forall resp, r <> Ok resp.
Proof.
  intros He Ho Hc. unfold Out.
  repeat (rewrite bindIO_pure;
          match goal with
          | |- context [match ?r with Ok _ => _ | Err _ => _ | Panic _ => _ end] =>
              destruct r;
              [| eexists; split; [reflexivity | discriminate] ..]
          end).
  destruct (String.eqb_spec (OutParams_State (OutRequest_Params req)) "");
    [contradiction|]. cbn [negb].
  unfold bindIO at 1. rewrite (SetPullRequestState_other _ _ _ _ Ho Hc).
  eexists. split; [reflexivity | discriminate].
Qed.

(** X20. With [labels] set the labels are replaced, and [add_labels] and
    [remove_labels] are not looked at. *)
Theorem Out_labels_replace_only (req : OutRequest) (add remove : list string)
    (remote : R) :
  OutParams_Labels (OutRequest_Params req) <> [] ->
  Out lib env fs inputDir (withParams req (withAddRemove (OutRequest_Params req) add remove))
      remote
  = Out lib env fs inputDir req remote.
Proof.
  destruct req as [src p]. destruct p as [path state comment file labels a r d].
  cbn [OutRequest_Params OutParams_Labels]. intros Hl.
  destruct labels as [|l labels]; [contradiction|]. reflexivity.
Qed.

(** X21. With [comment] set the comment file is not read. *)
Theorem Out_comment_before_file (req : OutRequest) (file : string) (remote : R) :
  Comment (OutRequest_Params req) <> "" ->
  Out lib env fs inputDir (withParams req (withCommentFile (OutRequest_Params req) file))
      remote
  = Out lib env fs inputDir req remote.
Proof.
  destruct req as [src p]. destruct p as [path state comment f labels a r d].
  cbn [OutRequest_Params Comment]. intros Hc.
  destruct comment as [|c comment]; [contradiction|]. reflexivity.
Qed.

(** X22. A put that names no state, no labels, no comment and no comment file,
    and does not ask for the deletion of the last comment, leaves the remote
    as it is. *)
Theorem Out_without_actions (req : OutRequest) (remote : R) :
  OutParams_State (OutRequest_Params req) = "" ->
  DeleteLastComment (OutRequest_Params req) = false ->
  OutParams_Labels (OutRequest_Params req) = [] ->
  AddLabels (OutRequest_Params req) = [] ->
  RemoveLabels (OutRequest_Params req) = [] ->
  Comment (OutRequest_Params req) = "" ->
  OutParams_CommentFile (OutRequest_Params req) = "" ->
  snd (Out lib env fs inputDir req remote) = remote.
Proof.
  intros Hs Hd Hl Ha Hr Hc Hf. unfold Out.
  rewrite Hs, Hd, Hl, Ha, Hr, Hc, Hf.
  cbn [String.eqb negb length Nat.ltb Nat.leb String.length].
  repeat (rewrite bindIO_pure;
          match goal with
          | |- context [match ?r with Ok _ => _ | Err _ => _ | Panic _ => _ end] =>
              destruct r; [| reflexivity ..]
          end).
  reflexivity.
Qed.

(** X23. A put with a comment, and nothing else to do, that succeeds has
    created exactly one comment on the pull request named by the field
    pr_id of the stored metadata: the text of [comment] after the expansion
    of the allow-listed variables. *)
Theorem Out_posts_expanded_comment (req : OutRequest) (remote remote' : R)
    (resp : OutResponse) :
  OutParams_State (OutRequest_Params req) = "" ->
  DeleteLastComment (OutRequest_Params req) = false ->
  OutParams_Labels (OutRequest_Params req) = [] ->
  AddLabels (OutRequest_Params req) = [] ->
  RemoveLabels (OutRequest_Params req) = [] ->
  Comment (OutRequest_Params req) <> "" ->
  Out lib env fs inputDir req remote = (Ok resp, remote') ->
  exists prNumber prID client,
    Metadata_Get (OutResponse_Metadata resp) "pr_id" = Ok prNumber
    /\ Atoi prNumber = Ok prID
    /\ NewGithubClient lib
         (Actions.Repository (OutRequest_Source req)) (AccessToken (OutRequest_Source req))
         (SkipSSLVerification (OutRequest_Source req)) (GithubEndpoint (OutRequest_Source req))
       = Ok client
    /\ Issues_CreateComment (Owner client) (Api.Repository client) prID
         (safeExpandEnv env (Comment (OutRequest_Params req))) remote
       = (None, remote').
Proof.
  intros Hs Hd Hl Ha Hr Hc. unfold Out.
  rewrite Hs, Hd, Hl, Ha, Hr.
  destruct (Comment (OutRequest_Params req)) as [|c comment] eqn:Ec; [contradiction|].
  cbn [String.eqb negb length Nat.ltb Nat.leb String.length].
  rewrite bindIO_pure.
  destruct (wrapErr _ (Validate _ _)); [|discriminate ..].
  rewrite bindIO_pure. destruct (wrapErr _ (ReadFile _ _)); [|discriminate ..].
  rewrite bindIO_pure. destruct (wrapErr _ (Unmarshal_Version _)); [|discriminate ..].
  rewrite bindIO_pure. destruct (wrapErr _ (ReadFile _ _)); [|discriminate ..].
  rewrite bindIO_pure.
  destruct (wrapErr _ (Unmarshal_Metadata _)) as [metadata| |]; [|discriminate ..].
  rewrite bindIO_pure.
  destruct (Metadata_Get metadata "pr_id") as [prNumber| |] eqn:Eg; [|discriminate ..].
  rewrite bindIO_pure. destruct (Atoi prNumber) as [prID| |] eqn:Ea; [|discriminate ..].
  rewrite bindIO_pure.
  destruct (NewGithubClient lib _ _ _ _) as [client| |] eqn:En; [|discriminate ..].
  rewrite !bindIO_pure.
  unfold bindIO, CreatePullRequestComment, tryIO, pureIO.
  cbn [String.length]. cbv beta iota.
  destruct (Issues_CreateComment (Owner client) (Api.Repository client) prID
              (safeExpandEnv env (String c comment)) remote) as [[err|] r'] eqn:Ei;
    [discriminate|].
  intros [= <- <-]. exists prNumber, prID, client. cbn [OutResponse_Metadata].
  repeat split; assumption.
Qed.

End OutStep.

(* --------------------------------------------------------------------- *)
(** ** References in the comment text *)
(* --------------------------------------------------------------------- *)

Section MoreReferences.
Variable env : gmap string string.

Lemma expandFrom_no_dollar (f : string -> string) (fuel : nat) :
  forall s, hasByte "$" s = false -> expandFrom fuel f s = s.
Proof.
  induction fuel as [|fuel IH]; intros s Hs; [reflexivity|].
  destruct s as [|c rest]; [reflexivity|]. cbn [hasByte] in Hs.
  apply orb_false_iff in Hs. destruct Hs as [Hc Hrest].
  cbn [expandFrom]. rewrite Hc. cbn [andb]. rewrite (IH rest Hrest). reflexivity.
Qed.

(** X24. A text without a dollar sign is posted as it is. *)
Theorem safeExpandEnv_no_dollar (s : string) :
  hasByte "$" s = false -> safeExpandEnv env s = s.
Proof. intros Hs. apply expandFrom_no_dollar. exact Hs. Qed.

Lemma toBrace_name (name rest : string) :
  hasByte "}" name = false ->
  forall i, toBrace (name +:+ String "}" rest) i = Some (name, (i + String.length name)%nat).
Proof.
  induction name as [|c name IH]; intros Hn i.
  - rewrite string_app_nil. cbn [toBrace Ascii.eqb Bool.eqb String.length].
    rewrite Nat.add_0_r. reflexivity.
  - cbn [hasByte] in Hn. apply orb_false_iff in Hn. destruct Hn as [Hc Hn].
    rewrite string_app_cons. cbn [toBrace]. rewrite Hc, (IH Hn (S i)).
    cbn [String.length]. rewrite Nat.add_succ_r. reflexivity.
Qed.

Lemma getShellName_braces (name rest : string) :
  name <> "" -> hasByte "}" name = false ->
  getShellName (String "{" (name +:+ String "}" rest))
  = (name, S (S (String.length name))).
Proof.
  intros Hne Hn. unfold getShellName.
  rewrite (toBrace_name name rest Hn 1).
  destruct name as [|c name]; [congruence|].
  cbn [String.length Nat.add Nat.eqb].
  rewrite string_app_cons.
  destruct name as [|d name].
  - rewrite string_app_nil. destruct (isShellSpecialVar c); reflexivity.
  - rewrite string_app_cons. cbn [hasByte] in Hn.
    apply orb_false_iff in Hn. destruct Hn as [_ Hn].
    apply orb_false_iff in Hn. destruct Hn as [Hd _].
    destruct (Ascii.eqb_spec d "}") as [->|Hd']; [discriminate Hd|].
    destruct d as [[] [] [] [] [] [] [] []]; try reflexivity; congruence.
Qed.

Lemma dropBytes_past (name : string) (c : ascii) (rest : string) :
  dropBytes (S (String.length name)) (name +:+ String c rest) = rest.
Proof. induction name as [|d name IH]; [reflexivity | exact IH]. Qed.

Lemma getShellName_empty_braces (rest : string) :
  getShellName (String "{" (String "}" rest)) = (EmptyString, 2%nat).
Proof.
  destruct rest as [|c rest]; [reflexivity|].
  destruct c as [[] [] [] [] [] [] [] []]; reflexivity.
Qed.

Lemma expand_step (f : string -> string) (after name : string) (w : nat) (rest : string) :
  after <> "" -> getShellName after = (name, w) -> name <> "" ->
  dropBytes w after = rest ->
  Expand (String "$" after) f = f name +:+ Expand rest f.
Proof.
  intros Ha Hg Hn Hd. unfold Expand. cbn [String.length expandFrom].
  replace (Ascii.eqb "$" "$") with true by reflexivity.
  destruct (String.eqb_spec after ""); [contradiction|]. cbn [negb andb].
  rewrite Hg. destruct (String.eqb_spec name ""); [contradiction|]. cbn [andb].
  rewrite Hd.
  rewrite (expandFrom_fuel f (String.length after) (String.length rest) rest);
    [reflexivity | | lia].
  subst rest. apply dropBytes_length.
Qed.

Lemma expand_step_empty (f : string -> string) (after : string) (w : nat) (rest : string) :
  after <> "" -> getShellName after = (EmptyString, S w) ->
  dropBytes (S w) after = rest ->
  Expand (String "$" after) f = Expand rest f.
Proof.
  intros Ha Hg Hd. unfold Expand. cbn [String.length expandFrom].
  replace (Ascii.eqb "$" "$") with true by reflexivity.
  destruct (String.eqb_spec after ""); [contradiction|]. cbn [negb andb].
  rewrite Hg. cbn [String.eqb andb Nat.ltb Nat.leb]. rewrite Hd, string_app_nil.
  apply expandFrom_fuel; [|lia].
  subst rest. apply dropBytes_length.
Qed.

(** X25. A reference to a variable, written [$NAME] or [${NAME}], is replaced by
    the value of the variable if its name is on the allow-list (by nothing
    if the variable is not set), and by [$NAME] otherwise: the braces of a
    reference that is not expanded are dropped. The empty reference [${}] is
    removed from the text. *)
Theorem safeExpandEnv_reference (name rest : string) :
  (plainName name -> endsName rest ->
   safeExpandEnv env ("$" +:+ name +:+ rest)
   = (if allowed name then Getenv env name else "$" +:+ name) +:+ safeExpandEnv env rest)
  /\ (name <> "" -> hasByte "}" name = false ->
      safeExpandEnv env ("${" +:+ name +:+ "}" +:+ rest)
      = (if allowed name then Getenv env name else "$" +:+ name)
        +:+ safeExpandEnv env rest)
  /\ safeExpandEnv env ("${}" +:+ rest) = safeExpandEnv env rest.
Proof.
  split; [|split].
  - intros Hname Hend. unfold safeExpandEnv.
    rewrite string_app_cons, string_app_nil.
    rewrite (expand_step (safeMapping env) (name +:+ rest) name (String.length name) rest).
    + reflexivity.
    + destruct name; [destruct Hname | discriminate].
    + apply getShellName_plain; assumption.
    + destruct name; [destruct Hname | discriminate].
    + apply dropBytes_app.
  - intros Hne Hn. unfold safeExpandEnv.
    change ("${" +:+ name +:+ "}" +:+ rest)
      with (String "$" (String "{" (name +:+ String "}" rest))).
    rewrite (expand_step (safeMapping env) _ name (S (S (String.length name))) rest).
    + reflexivity.
    + discriminate.
    + apply getShellName_braces; assumption.
    + exact Hne.
    + change (dropBytes (S (S (String.length name)))
                (String "{" (name +:+ String "}" rest)))
        with (dropBytes (S (String.length name)) (name +:+ String "}" rest)).
      apply dropBytes_past.
  - unfold safeExpandEnv.
    change ("${}" +:+ rest) with (String "$" (String "{" (String "}" rest))).
    apply (expand_step_empty _ _ 1 rest);
      [discriminate | apply getShellName_empty_braces | reflexivity].
Qed.

End MoreReferences.

(* --------------------------------------------------------------------- *)
(** ** The properties above on the example data *)
(* --------------------------------------------------------------------- *)

Lemma commentTrack_all_first_witness :
  (exists vars',
     commentTrack Example.lib (Sample.sourceWith "all" []) Example.pull7
       [Example.ping1; Example.chat2; Example.ping3] Example.noVars = Ok vars'
     /\ versions vars' =
        [{| Actions.CreatedAt := "1600000000"; PrID := "7"; ReviewID := "";
            CommentID := "101" |};
         {| Actions.CreatedAt := "1600000200"; PrID := "7"; ReviewID := "";
            CommentID := "103" |}])
  /\ (exists vars',
     commentTrack Example.lib (Sample.sourceWith "first" []) Example.pull7
       [Example.chat2; Example.ping1; Example.ping3] Example.noVars = Ok vars'
     /\ versions vars' =
        [{| Actions.CreatedAt := "1600000000"; PrID := "7"; ReviewID := "";
            CommentID := "101" |}]).
Proof.
  split.
  - apply (commentTrack_all_first Example.lib (Sample.sourceWith "all" []) Example.pull7 7
             eq_refl [Example.ping1; Example.chat2; Example.ping3] Example.noVars).
    + discriminate.
    + repeat constructor; unfold is_Some; eexists; reflexivity.
  - apply (commentTrack_all_first Example.lib (Sample.sourceWith "first" []) Example.pull7 7
             eq_refl [Example.chat2; Example.ping1; Example.ping3] Example.noVars).
    + discriminate.
    + repeat constructor; unfold is_Some; eexists; reflexivity.
Defined.

Lemma reviewTrack_modes_witness :
  (exists vars',
     reviewTrack Example.lib (Sample.sourceWith "latest" ["approved"]) Example.pull7
       [Sample.approve1; Sample.remark2; Sample.approve3] Example.noVars = Ok vars'
     /\ versions vars' =
        [{| Actions.CreatedAt := "1600000250"; PrID := "7"; ReviewID := "57";
            CommentID := "" |}])
  /\ (exists vars',
     reviewTrack Example.lib (Sample.sourceWith "latest" ["approved"]) Example.pull7
       [Sample.approve1; Sample.remark2] Example.noVars = Ok vars'
     /\ versions vars' = [])
  /\ (exists vars',
     reviewTrack Example.lib (Sample.sourceWith "all" ["approved"]) Example.pull7
       [Sample.approve1; Sample.remark2; Sample.approve3] Example.noVars = Ok vars'
     /\ versions vars' =
        [{| Actions.CreatedAt := "1600000050"; PrID := "7"; ReviewID := "55";
            CommentID := "" |};
         {| Actions.CreatedAt := "1600000250"; PrID := "7"; ReviewID := "57";
            CommentID := "" |}]).
Proof.
  split; [|split].
  - apply (reviewTrack_modes Example.lib (Sample.sourceWith "latest" ["approved"])
             Example.pull7 7 eq_refl
             [Sample.approve1; Sample.remark2; Sample.approve3] Example.noVars).
    repeat constructor; unfold is_Some; eexists; reflexivity.
  - apply (reviewTrack_modes Example.lib (Sample.sourceWith "latest" ["approved"])
             Example.pull7 7 eq_refl
             [Sample.approve1; Sample.remark2] Example.noVars).
    repeat constructor; unfold is_Some; eexists; reflexivity.
  - apply (reviewTrack_modes Example.lib (Sample.sourceWith "all" ["approved"])
             Example.pull7 7 eq_refl
             [Sample.approve1; Sample.remark2; Sample.approve3] Example.noVars).
    repeat constructor; unfold is_Some; eexists; reflexivity.
Defined.

Lemma check_sound_witness :
  exists client pulls,
    NewGithubClient (H := Example.github) Example.lib "nderjung/limp" "token" false ""
    = Ok client
    /\ ListPullRequests client
         (Sample.remoteWith [Example.ping1; Example.chat2] [Sample.approve1])
       = Ok pulls
    /\ Forall (sourcedFrom Example.lib
                 (Sample.remoteWith [Example.ping1; Example.chat2] [Sample.approve1])
                 client (Sample.sourceWith "all" ["approved"]) pulls)
         [{| Actions.CreatedAt := "1600000000"; PrID := "7"; ReviewID := "";
             CommentID := "101" |};
          {| Actions.CreatedAt := "1600000050"; PrID := "7"; ReviewID := "55";
             CommentID := "" |}].
Proof.
  apply (check_sound Example.lib
           (Sample.remoteWith [Example.ping1; Example.chat2] [Sample.approve1])
           (Example.request (Sample.sourceWith "all" ["approved"]))).
  - exact example_lib_spec.
  - reflexivity.
Defined.

Lemma check_unknown_when_witness :
  Check Example.lib (Example.remote [Example.ping1; Example.ping3])
    (Example.request (Sample.sourceWith "newest" [])) = Ok []
  /\ forall vs,
       Check Example.lib (Example.remote [Example.ping1; Example.ping3])
         (Example.request (Sample.sourceWith "newest" [])) = Ok vs -> vs = [].
Proof.
  split; [reflexivity|]. intros vs.
  apply (check_unknown_when Example.lib (Example.remote [Example.ping1; Example.ping3])
           (Example.request (Sample.sourceWith "newest" [])) vs);
    [exact example_lib_spec | discriminate ..].
Defined.

Lemma check_without_review_states_witness :
  Forall (fun v => ReviewID v = "" /\ CommentID v <> "")
    [{| Actions.CreatedAt := "1600000000"; PrID := "7"; ReviewID := "";
        CommentID := "101" |}].
Proof.
  apply (check_without_review_states Example.lib
           (Sample.remoteWith [Example.ping1; Example.chat2] [Sample.approve1])
           (Example.request (Sample.sourceWith "all" []))).
  - exact example_lib_spec.
  - reflexivity.
  - reflexivity.
Defined.

Lemma Out_state_is_case_sensitive_witness :
  Validate Example.lib (Sample.outParams "OPEN" "" "" [] [] []) = Ok tt
  /\ exists r,
       Out Example.lib Example.env1 Sample.stored ""
         (Sample.outRequest (Sample.outParams "OPEN" "" "" [] [] []))
         (Example.remote [Example.ping1])
       = (r, Example.remote [Example.ping1])
       /\ forall resp, r <> Ok resp.
Proof.
  split; [reflexivity|].
  apply (Out_state_is_case_sensitive (H := Example.github) (H0 := Example.filesystem)
           Example.lib Example.env1 Sample.stored ""
           (Sample.outRequest (Sample.outParams "OPEN" "" "" [] [] []))
           (Example.remote [Example.ping1])); discriminate.
Defined.

Lemma Out_labels_replace_only_witness :
  Out Example.lib Example.env1 Sample.stored ""
    (Sample.outRequest (Sample.outParams "" "" "" ["bug"] ["a"] ["b"]))
    (Example.remote [Example.ping1])
  = Out Example.lib Example.env1 Sample.stored ""
      (Sample.outRequest (Sample.outParams "" "" "" ["bug"] [] []))
      (Example.remote [Example.ping1]).
Proof.
  apply (Out_labels_replace_only (H := Example.github) (H0 := Example.filesystem)
           Example.lib Example.env1 Sample.stored ""
           (Sample.outRequest (Sample.outParams "" "" "" ["bug"] [] []))
           ["a"] ["b"] (Example.remote [Example.ping1])).
  discriminate.
Defined.

Lemma Out_comment_before_file_witness :
  Out Example.lib Example.env1 Sample.stored ""
    (Sample.outRequest (Sample.outParams "" "pong" "missing.txt" [] [] []))
    (Example.remote [Example.ping1])
  = Out Example.lib Example.env1 Sample.stored ""
      (Sample.outRequest (Sample.outParams "" "pong" "" [] [] []))
      (Example.remote [Example.ping1]).
Proof.
  apply (Out_comment_before_file (H := Example.github) (H0 := Example.filesystem)
           Example.lib Example.env1 Sample.stored ""
           (Sample.outRequest (Sample.outParams "" "pong" "" [] [] []))
           "missing.txt" (Example.remote [Example.ping1])).
  discriminate.
Defined.

Lemma Out_without_actions_witness :
  snd (Out Example.lib Example.env1 Sample.stored ""
         (Sample.outRequest (Sample.outParams "" "" "" [] [] []))
         (Example.remote [Example.ping1]))
  = Example.remote [Example.ping1].
Proof.
  apply (Out_without_actions (H := Example.github) (H0 := Example.filesystem)
           Example.lib Example.env1 Sample.stored ""
           (Sample.outRequest (Sample.outParams "" "" "" [] [] []))
           (Example.remote [Example.ping1])); reflexivity.
Defined.

Lemma Out_posts_expanded_comment_witness :
  exists prNumber prID client,
    prNumber = "7" /\ prID = 7
    /\ NewGithubClient (H := Example.github) Example.lib "nderjung/limp" "token" false ""
       = Ok client
    /\ Issues_CreateComment (Owner client) (Api.Repository client) prID
         "build 42 of $SECRET" (Example.remote [Example.ping1])
       = (None,
          snd (Out Example.lib Example.env1 Sample.stored ""
                 (Sample.outRequest
                    (Sample.outParams "" "build $BUILD_ID of $SECRET" "" [] [] []))
                 (Example.remote [Example.ping1]))).
Proof.
  destruct (Out Example.lib Example.env1 Sample.stored ""
              (Sample.outRequest
                 (Sample.outParams "" "build $BUILD_ID of $SECRET" "" [] [] []))
              (Example.remote [Example.ping1])) as [r remote'] eqn:E.
  assert (Hr : exists resp, r = Ok resp /\ Metadata_Get (OutResponse_Metadata resp) "pr_id" = Ok "7").
  { vm_compute in E. injection E as <- _. eexists. split; reflexivity. }
  destruct Hr as (resp & -> & Hget).
  destruct (Out_posts_expanded_comment (H := Example.github) (H0 := Example.filesystem)
              Example.lib Example.env1 Sample.stored ""
              (Sample.outRequest
                 (Sample.outParams "" "build $BUILD_ID of $SECRET" "" [] [] []))
              (Example.remote [Example.ping1]) remote' resp
              eq_refl eq_refl eq_refl eq_refl eq_refl ltac:(discriminate) E)
    as (prNumber & prID & client & Hg & Ha & Hc & Hi).
  rewrite Hget in Hg. injection Hg as <-.
  exists "7", prID, client. split; [reflexivity|]. split.
  - vm_compute in Ha. injection Ha as <-. reflexivity.
  - split; [exact Hc|]. exact Hi.
Defined.

Lemma example_files_spec : FileSystemSpec Example.Files.
Proof.
  split.
  - intros p data fs fs'. cbn. unfold Example.put.
    destruct (Example.isDir p fs); [discriminate|]. intros [= <-]. cbn.
    rewrite lookup_insert_eq. reflexivity.
  - intros p q data fs fs'. cbn. unfold Example.put.
    destruct (Example.isDir q fs); [discriminate|]. intros [= <-] Hne. cbn.
    rewrite lookup_insert_ne by congruence. reflexivity.
  - intros p fs fs'. cbn. unfold Example.put.
    destruct (Example.isDir p fs); [discriminate|]. intros [= <-]. cbn.
    rewrite lookup_insert_eq. reflexivity.
  - intros p old data fs fs'. cbn. unfold Example.put.
    destruct (Example.isDir p fs); [discriminate|]. intros [= <-]. cbn.
    destruct (Example.files fs !! p) as [x|]; [|discriminate].
    intros [= ->]. rewrite lookup_insert_eq. reflexivity.
Qed.

Lemma RemovePullRequestLabels_stops_at_failure_witness :
  RemovePullRequestLabels (H := Sample.labelled) Example.client 7
    ["stale"; "missing"; "bug"] {| Sample.carried := ["bug"; "stale"] |}
  = (Err (External "404 Label does not exist"), {| Sample.carried := ["bug"] |}).
Proof.
  apply (RemovePullRequestLabels_stops_at_failure (H := Sample.labelled)
           Example.client 7 ["stale"] ["bug"] "missing"
           {| Sample.carried := ["bug"; "stale"] |} {| Sample.carried := ["bug"] |}
           {| Sample.carried := ["bug"] |} (External "404 Label does not exist"));
    reflexivity.
Defined.

Lemma ParseCommentHTMLURL_last_segment_witness :
  ParseCommentHTMLURL Example.lib
    "https://github.com/octocat/Hello-World/issues/1347#issuecomment-1" = Ok 1347.
Proof.
  destruct (ParseCommentHTMLURL_last_segment Example.lib
              "https://github.com/octocat/Hello-World/issues/1347#issuecomment-1"
              {| URL_String :=
                   "https://github.com/octocat/Hello-World/issues/1347#issuecomment-1";
                 URL_Path := "/octocat/Hello-World/issues/1347" |} eq_refl)
    as [Hnum _].
  apply (Hnum "/octocat/Hello-World/issues" 1347); [reflexivity | lia].
Defined.

Lemma example_in_run :
  Actions.In CommentID Example.lib (Example.remote [Example.ping1]) "pr"
    (Example.inRequest Example.source Example.version101) Example.emptyFiles
  = (Ok Sample.response, Sample.stored).
Proof. vm_compute. reflexivity. Qed.

Lemma example_in_paths :
  inFile Example.lib "pr" "version.json" <> inFile Example.lib "pr" "metadata.json"
  /\ forall d, List.In (Some d) (InResponse_Metadata Sample.response) ->
       inFile Example.lib "pr" (Name d) <> inFile Example.lib "pr" "version.json"
       /\ inFile Example.lib "pr" (Name d) <> inFile Example.lib "pr" "metadata.json"
       /\ inFile Example.lib "pr" (Name d) <> inFile Example.lib "pr" "comment.txt".
Proof.
  split; [vm_compute; discriminate|].
  intros d Hin. cbn [Sample.response InResponse_Metadata List.In] in Hin.
  repeat (destruct Hin as [Hd|Hin];
          [injection Hd as <-; repeat split; vm_compute; discriminate|]).
  destruct Hin.
Qed.


Lemma safeExpandEnv_no_dollar_witness :
  safeExpandEnv Example.env1 "pong {BUILD_ID}" = "pong {BUILD_ID}".
Proof.
  apply (safeExpandEnv_no_dollar Example.env1 "pong {BUILD_ID}"). reflexivity.
Defined.



Lemma check_only_mergeable_needs_field_witness :
  Check Example.lib (Example.remote [Example.ping1])
    (Example.request Sample.sourceMergeable) = Panic nilDeref.
Proof.
  apply (check_only_mergeable_needs_field (H := Example.github) Example.lib
           (Example.remote [Example.ping1]) (Example.request Sample.sourceMergeable)
           Example.client Example.pull7 [] "open"); reflexivity.
Defined.

Lemma check_all_exact_witness :
  exists client pulls,
    NewGithubClient (H := Example.github) Example.lib "nderjung/limp" "token" false ""
    = Ok client
    /\ ListPullRequests client
         (Sample.remoteWith [Example.ping1; Example.chat2] [Sample.approve1])
       = Ok pulls
    /\ forall v,
         List.In v
           [{| Actions.CreatedAt := "1600000000"; PrID := "7"; ReviewID := "";
               CommentID := "101" |};
            {| Actions.CreatedAt := "1600000050"; PrID := "7"; ReviewID := "55";
               CommentID := "" |}]
         <-> sourcedFrom Example.lib
               (Sample.remoteWith [Example.ping1; Example.chat2] [Sample.approve1])
               client (Sample.sourceWith "all" ["approved"]) pulls v.
Proof.
  apply (check_all_exact Example.lib
           (Sample.remoteWith [Example.ping1; Example.chat2] [Sample.approve1])
           (Example.request (Sample.sourceWith "all" ["approved"]))).
  - exact example_lib_spec.
  - reflexivity.
  - reflexivity.
Defined.
